(** * Librarian 2.0 (cloud-eye-mcp-bridge): claim extraction, verification,
      warning level, briefing cache and repository probe

    A shallow embedding of [src/librarian2/detector.py],
    [src/librarian2/engine.py], [src/librarian2/api.py] and
    [src/librarian2/scanner.py], followed by the properties the
    specification states about them.

    Conventions.
    - Python [str] values are [string]s of ASCII characters; the entries,
      revision ids, service names and paths the code handles are ASCII text.
      On text that is not ASCII a character is several bytes, and [re]
      folds a few more letters under [re.IGNORECASE]; properties that
      depend on either are stated for ASCII content ([is_ascii]).
    - A Python [dict] that is only looked up by key is a [gmap]; a [dict]
      that is iterated with a first-match [break] keeps its insertion order
      as an association list.
    - [Optional[T]] is [option T]; a Python exception escaping a function is
      the [None] of an [option] result.
    - Every [Claim] object is created by one constructor call in
      [extract_claims] and is referenced from one list only, so the in-place
      field updates of [verify_claims] are record updates on list elements. *)

From Stdlib Require Import ZArith Ascii String List Lia Bool Permutation Sorted.
From stdpp Require Import base option list gmap strings fin_maps pretty.

Local Open Scope string_scope.
Local Open Scope list_scope.

(* ===================================================================== *)
(** ** Python string primitives used by the sources                      *)
(* ===================================================================== *)

Module Py.

Definition code (c : ascii) : nat := nat_of_ascii c.

Definition between (lo hi : nat) (c : ascii) : bool :=
  (lo <=? code c)%nat && (code c <=? hi)%nat.

Definition is_upper (c : ascii) : bool := between 65 90 c.
Definition is_lower (c : ascii) : bool := between 97 122 c.

(** [str.lower] and [str.upper] on one ASCII character. *)
Definition lower_char (c : ascii) : ascii :=
  if is_upper c then ascii_of_nat (code c + 32) else c.
Definition upper_char (c : ascii) : ascii :=
  if is_lower c then ascii_of_nat (code c - 32) else c.

(** [s.lower()] *)
Fixpoint lower (s : string) : string :=
  match s with
  | EmptyString => EmptyString
  | String c t => String (lower_char c) (lower t)
  end.

(** [s.startswith(p)] *)
Definition startswith (s p : string) : bool := String.prefix p s.

(** [needle in hay] *)
Fixpoint contains (needle hay : string) : bool :=
  String.prefix needle hay ||
  match hay with
  | EmptyString => false
  | String _ t => contains needle t
  end.

(** [s[:n]], on ASCII text (one byte per character) *)
Definition slice_to (n : nat) (s : string) : string := String.substring 0 n s.

(** [s[n:]] *)
Fixpoint slice_from (n : nat) (s : string) : string :=
  match n, s with
  | O, _ => s
  | S _, EmptyString => EmptyString
  | S n', String _ t => slice_from n' t
  end.

(** [s[i]] for [0 <= i < len(s)] *)
Definition char_at (i : nat) (s : string) : option ascii := String.get i s.

(** [s.replace(a, b)] for one-character [a] and [b] *)
Fixpoint replace_char (a b : ascii) (s : string) : string :=
  match s with
  | EmptyString => EmptyString
  | String c t => String (if Ascii.eqb c a then b else c) (replace_char a b t)
  end.

(** [str.isspace] on ASCII: TAB, LF, VT, FF, CR, FS, GS, RS, US, space. *)
Definition isspace (c : ascii) : bool :=
  between 9 13 c || between 28 31 c || (code c =? 32)%nat.

Fixpoint lstrip (s : string) : string :=
  match s with
  | EmptyString => EmptyString
  | String c t => if isspace c then lstrip t else s
  end.

Definition rstrip (s : string) : string := String.rev (lstrip (String.rev s)).

(** [s.strip()] *)
Definition strip (s : string) : string := rstrip (lstrip s).

(** Line boundaries of [str.splitlines] in the ASCII range:
    LF, VT, FF, CR, FS, GS, RS (CR LF counts once). *)
Definition is_linebreak (c : ascii) : bool :=
  between 10 13 c || between 28 30 c.

Fixpoint splitlines_go (after_cr : bool) (cur : string) (s : string)
  : list string :=
  match s with
  | EmptyString => if String.eqb cur "" then [] else [String.rev cur]
  | String c t =>
      if (code c =? 10)%nat && after_cr then splitlines_go false cur t
      else if is_linebreak c
           then String.rev cur :: splitlines_go (code c =? 13)%nat "" t
           else splitlines_go false (String c cur) t
  end.

(** [s.splitlines()] *)
Definition splitlines (s : string) : list string := splitlines_go false "" s.

(** [s.split(sep, 1)] unpacked into two names: [None] is the [ValueError]
    of unpacking a one-element list, raised when [sep] does not occur. *)
Fixpoint split_once (sep : ascii) (s : string) : option (string * string) :=
  match s with
  | EmptyString => None
  | String c t =>
      if Ascii.eqb c sep then Some ("", t)
      else match split_once sep t with
           | Some (a, b) => Some (String c a, b)
           | None => None
           end
  end.

(** Truthiness of an [Optional[str]]: set and not empty. *)
Definition truthy (o : option string) : bool :=
  match o with
  | Some s => negb (String.eqb s "")
  | None => false
  end.

(** [f"{o}"] for an [Optional[str]] *)
Definition fmt_opt (o : option string) : string := default "None" o.

(** [f"{o}"] for an [Optional[int]] *)
Definition fmt_opt_int (o : option Z) : string :=
  match o with
  | Some z => pretty z
  | None => "None"
  end.

Definition hex_digit (n : nat) : ascii :=
  if (n <? 10)%nat then ascii_of_nat (48 + n) else ascii_of_nat (87 + n).

Definition squote : ascii := ascii_of_nat 39.
Definition dquote : ascii := ascii_of_nat 34.
Definition backslash : ascii := ascii_of_nat 92.

Definition contains_char (c : ascii) (s : string) : bool :=
  contains (String c "") s.

Fixpoint repr_body (q : ascii) (s : string) : string :=
  match s with
  | EmptyString => EmptyString
  | String c t =>
      let n := code c in
      (if Ascii.eqb c q || Ascii.eqb c backslash
       then String backslash (String c "")
       else if (n =? 9)%nat then String backslash "t"
       else if (n =? 10)%nat then String backslash "n"
       else if (n =? 13)%nat then String backslash "r"
       else if (n <? 32)%nat || (n =? 127)%nat
       then String backslash
              (String "x" (String (hex_digit (n / 16))
                                  (String (hex_digit (n mod 16)) "")))
       else String c "")
      +:+ repr_body q t
  end.

(** [repr(s)] of an ASCII [str]: single quotes unless the text has a
    single quote and no double quote. *)
Definition repr (s : string) : string :=
  let q := if contains_char squote s && negb (contains_char dquote s)
           then dquote else squote in
  String q (repr_body q s +:+ String q "").

Fixpoint join (sep : string) (l : list string) : string :=
  match l with
  | [] => ""
  | [x] => x
  | x :: t => x +:+ sep +:+ join sep t
  end.

(** [str(d)] of a [dict] with [str] keys and values, in insertion order. *)
Definition str_dict (d : list (string * string)) : string :=
  "{" +:+ join ", " (map (fun kv => repr (fst kv) +:+ ": " +:+ repr (snd kv)) d)
      +:+ "}".

End Py.

(* ===================================================================== *)
(** ** The fragment of Python's [re] used by [detector.py]               *)
(* ===================================================================== *)

(** A backtracking matcher: [run] lists the end states of every way a
    pattern can match at a position, in the order [re] tries them, so
    the head of the list is the match [re] reports.  Repetition is only
    applied to one-character sets, which is all the patterns of
    [detector.py] need. *)

Module Re.

Inductive citem :=
| One (c : ascii)
| Range (lo hi : ascii)
| ClsSpace                       (* \s *)
| ClsDigit.                      (* \d *)

Inductive cset :=
| Dot                            (* .   : anything but a newline *)
| OneOf (items : list citem)     (* [...]  *)
| NoneOf (items : list citem).   (* [^...] *)

Inductive regex :=
| Lit (s : string)
| Cat (r1 r2 : regex)
| Alt (r1 r2 : regex)
| Rep (greedy : bool) (lo : nat) (hi : option nat) (cs : cset)
| Group (n : nat) (r : regex)
| Boundary.                      (* \b *)

Definition item_match (c : ascii) (it : citem) : bool :=
  match it with
  | One x => Ascii.eqb c x
  | Range lo hi => Py.between (Py.code lo) (Py.code hi) c
  | ClsSpace => Py.isspace c
  | ClsDigit => Py.between 48 57 c
  end.

(** With [re.IGNORECASE] a set also matches the other case of a letter
    (of an ASCII letter: the few letters outside ASCII that Python folds
    onto s, i and k do not occur in ASCII text). *)
Definition items_match (icase : bool) (items : list citem) (c : ascii) : bool :=
  existsb (item_match c) items
  || (icase && (existsb (item_match (Py.lower_char c)) items
                || existsb (item_match (Py.upper_char c)) items)).

Definition cset_match (icase : bool) (cs : cset) (c : ascii) : bool :=
  match cs with
  | Dot => negb (Py.code c =? 10)%nat
  | OneOf items => items_match icase items c
  | NoneOf items => negb (items_match icase items c)
  end.

(** A character of a literal against a character of the subject; with
    [re.IGNORECASE] both are compared in lower case (ASCII text). *)
Definition chr_match (icase : bool) (x c : ascii) : bool :=
  if icase then Ascii.eqb (Py.lower_char x) (Py.lower_char c)
  else Ascii.eqb x c.

(** [\w] on ASCII text *)
Definition is_word (c : ascii) : bool :=
  Py.is_upper c || Py.is_lower c || Py.between 48 57 c || (Py.code c =? 95)%nat.

(** A position in the subject: the character before it, its offset, the
    text after it, and the spans of the groups closed so far. *)
Record mstate := MState {
  m_prev : option ascii;
  m_pos : nat;
  m_rest : string;
  m_groups : list (nat * (nat * nat))
}.

Fixpoint lit (icase : bool) (s : string) (st : mstate) : option mstate :=
  match s with
  | EmptyString => Some st
  | String x s' =>
      match m_rest st with
      | String c t =>
          if chr_match icase x c
          then lit icase s' (MState (Some c) (S (m_pos st)) t (m_groups st))
          else None
      | EmptyString => None
      end
  end.

(** The positions after 0, 1, 2, ... characters of [cs], at most [hi]. *)
Fixpoint spans (icase : bool) (cs : cset) (hi : option nat)
         (prev : option ascii) (pos : nat) (rest : string)
         (gs : list (nat * (nat * nat))) : list mstate :=
  MState prev pos rest gs ::
  match hi with
  | Some O => []
  | _ =>
      match rest with
      | String c t =>
          if cset_match icase cs c
          then spans icase cs (Nat.pred <$> hi) (Some c) (S pos) t gs
          else []
      | EmptyString => []
      end
  end.

Definition at_boundary (st : mstate) : bool :=
  let before := match m_prev st with Some c => is_word c | None => false end in
  let after := match m_rest st with String c _ => is_word c | EmptyString => false end in
  xorb before after.

Fixpoint run (icase : bool) (r : regex) (st : mstate) : list mstate :=
  match r with
  | Lit s => match lit icase s st with Some st' => [st'] | None => [] end
  | Cat r1 r2 => flat_map (run icase r2) (run icase r1 st)
  | Alt r1 r2 => run icase r1 st ++ run icase r2 st
  | Rep greedy lo hi cs =>
      let l := skipn lo (spans icase cs hi (m_prev st) (m_pos st)
                               (m_rest st) (m_groups st)) in
      if greedy then rev l else l
  | Group n r1 =>
      map (fun st' => MState (m_prev st') (m_pos st') (m_rest st')
                             ((n, (m_pos st, m_pos st')) :: m_groups st'))
          (run icase r1 st)
  | Boundary => if at_boundary st then [st] else []
  end.

(** A match object: the subject, the span of the match, the group spans. *)
Record rmatch := RMatch {
  subject : string;
  m_start : nat;
  m_end : nat;
  spans_of : list (nat * (nat * nat))
}.

Fixpoint assoc (n : nat) (l : list (nat * (nat * nat))) : option (nat * nat) :=
  match l with
  | [] => None
  | (k, v) :: t => if (k =? n)%nat then Some v else assoc n t
  end.

(** [m.group(n)]; group 0 is the whole match.  The groups read by
    [detector.py] are on every path of their pattern, so the empty
    default is never returned. *)
Definition group (n : nat) (m : rmatch) : string :=
  match n with
  | O => String.substring (m_start m) (m_end m - m_start m) (subject m)
  | _ => match assoc n (spans_of m) with
         | Some (a, b) => String.substring a (b - a) (subject m)
         | None => ""
         end
  end.

(** The scan of [finditer]: try every position from the left; after a
    match continue where it ended ([skip] counts the positions inside
    the last match). *)
Fixpoint finditer_go (icase : bool) (r : regex) (subj : string) (skip : nat)
         (prev : option ascii) (pos : nat) (rest : string) : list rmatch :=
  let next (k : nat) :=
    match rest with
    | String c t => finditer_go icase r subj k (Some c) (S pos) t
    | EmptyString => []
    end in
  match skip with
  | S k => next k
  | O =>
      match run icase r (MState prev pos rest []) with
      | st' :: _ =>
          RMatch subj pos (m_pos st') (m_groups st')
            :: next (m_pos st' - pos - 1)
      | [] => next O
      end
  end.

(** [pattern.finditer(s)] as a list *)
Definition finditer (icase : bool) (r : regex) (s : string) : list rmatch :=
  finditer_go icase r s 0 None 0 s.

(** [re.search(pattern, s)] as a truth value *)
Definition search (icase : bool) (r : regex) (s : string) : bool :=
  match finditer icase r s with
  | [] => false
  | _ :: _ => true
  end.

Fixpoint alts (l : list regex) : regex :=
  match l with
  | [] => Lit ""
  | [r] => r
  | r :: t => Alt r (alts t)
  end.

Fixpoint cats (l : list regex) : regex :=
  match l with
  | [] => Lit ""
  | [r] => r
  | r :: t => Cat r (cats t)
  end.

Definition star (cs : cset) : regex := Rep true 0 None cs.
Definition plus (cs : cset) : regex := Rep true 1 None cs.
Definition lazy_star (cs : cset) : regex := Rep false 0 None cs.

End Re.

(* ===================================================================== *)
(** ** scanner.py: ground-truth records and the repository probe         *)
(* ===================================================================== *)

Module Scanner.

(** [GitState]; [repo_path] is the text of the [Path]. *)
Record GitState := mkGitState {
  repo_name : string;
  repo_path : string;
  available : bool;
  head_commit : option string;
  branch : option string;
  untracked : list string;
  modified : list string;
  staged : list string;
  ahead_behind : option string;
  git_error : option string
}.

(** [ServiceState]; [response_ms] holds the text Python prints for the
    rounded float, [health_detail] the text of the JSON body. *)
Record ServiceState := mkServiceState {
  name : string;
  url : string;
  reachable : bool;
  status_code : option Z;
  response_ms : option string;
  version : option string;
  health_detail : option string;
  svc_error : option string
}.

(** [RealitySnapshot].  [scanned_at] is the instant [t0] of [full_scan]
    in microseconds since the epoch (the code stores its ISO rendering).
    The scan duration and the two store states are read only by the
    text renderers of [engine.py] and are left out. *)
Record RealitySnapshot := mkRealitySnapshot {
  scanned_at : Z;
  git : list (string * GitState);
  services : gmap string ServiceState;
  filesystem : list (string * bool)
}.

(** What the probe observes of the machine: [Path.exists] and
    [subprocess.run(cmd, cwd=...)], the latter giving the return code
    and captured stdout, or [None] when it raises (timeout, no git). *)
Record World := mkWorld {
  path_exists : string -> bool;
  subprocess_run : list string -> string -> option (Z * string)
}.

(** [_git(args, cwd)] *)
Definition _git (w : World) (args : list string) (cwd : string) : option string :=
  match subprocess_run w ("git" :: args) cwd with
  | Some (returncode, stdout) =>
      if (returncode =? 0)%Z then Some (Py.strip stdout) else None
  | None => None
  end.

Definition set_error (e : string) (s : GitState) : GitState :=
  mkGitState (repo_name s) (repo_path s) (available s) (head_commit s)
             (branch s) (untracked s) (modified s) (staged s)
             (ahead_behind s) (Some e).

Definition set_available (b : bool) (s : GitState) : GitState :=
  mkGitState (repo_name s) (repo_path s) b (head_commit s)
             (branch s) (untracked s) (modified s) (staged s)
             (ahead_behind s) (git_error s).

Definition set_head_commit (h : string) (s : GitState) : GitState :=
  mkGitState (repo_name s) (repo_path s) (available s) (Some h)
             (branch s) (untracked s) (modified s) (staged s)
             (ahead_behind s) (git_error s).

Definition set_branch (b : option string) (s : GitState) : GitState :=
  mkGitState (repo_name s) (repo_path s) (available s) (head_commit s)
             b (untracked s) (modified s) (staged s)
             (ahead_behind s) (git_error s).

Definition set_ahead_behind (ab : option string) (s : GitState) : GitState :=
  mkGitState (repo_name s) (repo_path s) (available s) (head_commit s)
             (branch s) (untracked s) (modified s) (staged s)
             ab (git_error s).

Definition add_untracked (f : string) (s : GitState) : GitState :=
  mkGitState (repo_name s) (repo_path s) (available s) (head_commit s)
             (branch s) (untracked s ++ [f]) (modified s) (staged s)
             (ahead_behind s) (git_error s).

Definition add_modified (f : string) (s : GitState) : GitState :=
  mkGitState (repo_name s) (repo_path s) (available s) (head_commit s)
             (branch s) (untracked s) (modified s ++ [f]) (staged s)
             (ahead_behind s) (git_error s).

Definition add_staged (f : string) (s : GitState) : GitState :=
  mkGitState (repo_name s) (repo_path s) (available s) (head_commit s)
             (branch s) (untracked s) (modified s) (staged s ++ [f])
             (ahead_behind s) (git_error s).

Definition space : ascii := ascii_of_nat 32.

Definition is_not_space (o : option ascii) : bool :=
  match o with
  | Some c => negb (Ascii.eqb c space)
  | None => false
  end.

(** One iteration of the loop over the porcelain status lines. *)
Definition status_line (state : GitState) (line : string) : GitState :=
  if (String.length line <? 2)%nat then state
  else
    let xy := Py.slice_to 2 line in
    let fname := Py.strip (Py.slice_from 3 line) in
    if Py.startswith xy "??" then add_untracked fname state
    else if is_not_space (Py.char_at 1 xy) then add_modified fname state
    else if is_not_space (Py.char_at 0 xy) then add_staged fname state
    else state.

(** The argument lists [scan_repo] hands to [_git]. *)
Definition Q_HEAD : list string := ["rev-parse"; "--short"; "HEAD"].
Definition Q_BRANCH : list string := ["rev-parse"; "--abbrev-ref"; "HEAD"].
Definition Q_STATUS : list string := ["status"; "--porcelain"].
Definition Q_AHEAD_BEHIND (branch0 : option string) : list string :=
  ["rev-list"; "--left-right"; "--count";
   Py.fmt_opt branch0 +:+ "...origin/" +:+ Py.fmt_opt branch0].

(** [scan_repo(name, path)] *)
Definition scan_repo (w : World) (name0 : string) (path : string) : GitState :=
  let state := mkGitState name0 path (path_exists w path)
                          None None [] [] [] None None in
  if negb (available state)
  then set_error ("Path not found: " +:+ path) state
  else
    match _git w Q_HEAD path with
    | None =>
        set_error "Not a git repository or git not available"
                  (set_available false state)
    | Some head =>
        let state := set_head_commit head state in
        let state :=
          set_branch (_git w Q_BRANCH path) state in
        let state :=
          match _git w Q_STATUS path with
          | Some status_raw =>
              if String.eqb status_raw "" then state
              else fold_left status_line (Py.splitlines status_raw) state
          | None => state
          end in
        let ab := _git w (Q_AHEAD_BEHIND (branch state)) path in
        if Py.truthy ab then set_ahead_behind ab state else state
    end.

(** [{name: scan_repo(name, path) for name, path in REPOS.items()}],
    the [git] component [full_scan] builds. *)
Definition scan_repos (w : World) (repos : list (string * string))
  : list (string * GitState) :=
  map (fun np => (fst np, scan_repo w (fst np) (snd np))) repos.

(** [Path.exists] can itself raise ([OSError], on a name the system
    rejects or a directory it may not search), and [scan_repo] calls it
    outside any [try].  A [Machine] is a machine on which it may: the
    [None] of [exists_call] is that exception. *)
Record Machine := mkMachine {
  exists_call : string -> option bool;
  run_call : list string -> string -> option (Z * string)
}.

(** The machine as the probe sees it once [path.exists()] returned [b]. *)
Definition observed (m : Machine) (b : bool) : World :=
  mkWorld (fun _ => b) (run_call m).

(** A call [scan_repo(name, path)] on such a machine; [None] is the
    exception of [path.exists()], which nothing catches. *)
Definition scan_repo_call (m : Machine) (name0 : string) (path : string)
  : option GitState :=
  b ← exists_call m path;
  Some (scan_repo (observed m b) name0 path).

End Scanner.

(* ===================================================================== *)
(** ** detector.py: claims, extraction, verification, ordering           *)
(* ===================================================================== *)

Module Detector.
Import Scanner.

Definition VERIFIED : string := "VERIFIED".
Definition ILLUSION : string := "ILLUSION".
Definition UNVERIFIABLE : string := "UNVERIFIABLE".
Definition STALE : string := "STALE".

Definition SEVERITY_HIGH : string := "HIGH".
Definition SEVERITY_MEDIUM : string := "MEDIUM".
Definition SEVERITY_LOW : string := "LOW".

Record Claim := mkClaim {
  entry_id : string;
  entry_priority : string;
  claim_type : string;
  claim_text : string;
  expected_value : string;
  verdict : string;
  actual_value : option string;
  severity : string;
  note : option string
}.

Definition newline : ascii := ascii_of_nat 10.
Definition hex_set : Re.cset := Re.OneOf [Re.Range "0" "9"; Re.Range "a" "f"].
Definition space_set : Re.cset := Re.OneOf [Re.ClsSpace].
Definition service_names : Re.regex :=
  Re.alts [Re.Lit "lxr-5"; Re.Lit "coach"; Re.Lit "cloudeye-lxr"; Re.Lit "cloudeye-ui"].

(** [(?:master|HEAD|branch|commit|at)\s+([0-9a-f]{7,10})\b], IGNORECASE *)
Definition RE_COMMIT_CONTEXT : Re.regex :=
  Re.cats [Re.alts [Re.Lit "master"; Re.Lit "HEAD"; Re.Lit "branch";
                    Re.Lit "commit"; Re.Lit "at"];
           Re.plus space_set;
           Re.Group 1 (Re.Rep true 7 (Some 10) hex_set);
           Re.Boundary].

(** [(lxr-5|coach|cloudeye-lxr|cloudeye-ui)[^\n]*:\s*(UP|LIVE|healthy|running|operational)],
    IGNORECASE *)
Definition RE_SERVICE_UP : Re.regex :=
  Re.cats [Re.Group 1 service_names;
           Re.star (Re.NoneOf [Re.One newline]);
           Re.Lit ":";
           Re.star space_set;
           Re.Group 2 (Re.alts [Re.Lit "UP"; Re.Lit "LIVE"; Re.Lit "healthy";
                                Re.Lit "running"; Re.Lit "operational"])].

(** [(lxr-5|coach|cloudeye-lxr|cloudeye-ui)[^\n]*:\s*(DOWN|failed|error|unreachable)],
    IGNORECASE.  Defined by the module; no function of it reads it. *)
Definition RE_SERVICE_DOWN : Re.regex :=
  Re.cats [Re.Group 1 service_names;
           Re.star (Re.NoneOf [Re.One newline]);
           Re.Lit ":";
           Re.star space_set;
           Re.Group 2 (Re.alts [Re.Lit "DOWN"; Re.Lit "failed"; Re.Lit "error";
                                Re.Lit "unreachable"])].

(** [(?:BUG\s*\d+|no such table|no such column|attribute.*get|sqlite3\.Row).*],
    IGNORECASE *)
Definition RE_BUG_ACTIVE : Re.regex :=
  Re.cats [Re.alts [Re.cats [Re.Lit "BUG"; Re.star space_set;
                             Re.plus (Re.OneOf [Re.ClsDigit])];
                    Re.Lit "no such table";
                    Re.Lit "no such column";
                    Re.cats [Re.Lit "attribute"; Re.star Re.Dot; Re.Lit "get"];
                    Re.Lit "sqlite3.Row"];
           Re.star Re.Dot].

(** [BUG INVENTORY|KNOWN RUNTIME|BEFORE STATE|runtime bugs], IGNORECASE *)
Definition RE_BUG_MARKER : Re.regex :=
  Re.alts [Re.Lit "BUG INVENTORY"; Re.Lit "KNOWN RUNTIME";
           Re.Lit "BEFORE STATE"; Re.Lit "runtime bugs"].

(** [(?:committed|deployed|created|exists|saved).*?([A-Za-z0-9_\-/\\]+\.(?:py|md|js|ts|jsx|sql|toml|json))\b],
    IGNORECASE *)
Definition RE_FILE_CLAIM : Re.regex :=
  Re.cats [Re.alts [Re.Lit "committed"; Re.Lit "deployed"; Re.Lit "created";
                    Re.Lit "exists"; Re.Lit "saved"];
           Re.lazy_star Re.Dot;
           Re.Group 1
             (Re.cats [Re.plus (Re.OneOf [Re.Range "A" "Z"; Re.Range "a" "z";
                                          Re.Range "0" "9"; Re.One "_";
                                          Re.One "-"; Re.One "/";
                                          Re.One Py.backslash]);
                       Re.Lit ".";
                       Re.alts [Re.Lit "py"; Re.Lit "md"; Re.Lit "js";
                                Re.Lit "ts"; Re.Lit "jsx"; Re.Lit "sql";
                                Re.Lit "toml"; Re.Lit "json"]]);
           Re.Boundary].

(** [_service_name_normalize(raw)] *)
Definition _service_name_normalize (raw : string) : option string :=
  let raw := Py.lower raw in
  if Py.contains "lxr-5" raw || Py.contains "lxr5" raw then Some "lxr-5"
  else if Py.contains "coach" raw then Some "coach"
  else if Py.contains "cloudeye-lxr" raw then Some "lxr"
  else if Py.contains "cloudeye-ui" raw || Py.contains "ui" raw then Some "ui"
  else None.

(** [extract_claims(entry_id, priority, content)] *)
Definition extract_claims (entry_id0 priority content : string) : list Claim :=
  (* 1. Git commit claims *)
  map (fun m =>
         mkClaim entry_id0 priority "git_commit" (Re.group 0 m)
                 (Py.lower (Re.group 1 m)) UNVERIFIABLE None SEVERITY_LOW None)
      (Re.finditer true RE_COMMIT_CONTEXT content)
  (* 2. Service health claims *)
  ++ flat_map (fun m =>
         match _service_name_normalize (Re.group 1 m) with
         | Some sname =>
             if String.eqb sname "" then []
             else [mkClaim entry_id0 priority "service_health" (Re.group 0 m)
                           (sname +:+ ":UP") UNVERIFIABLE None SEVERITY_LOW None]
         | None => []
         end)
      (Re.finditer true RE_SERVICE_UP content)
  (* 3. Active bug claims *)
  ++ (if Re.search true RE_BUG_MARKER content
      then map (fun m =>
                  mkClaim entry_id0 priority "bug_active"
                          (Py.slice_to 120 (Re.group 0 m)) "bug:present"
                          UNVERIFIABLE None SEVERITY_HIGH None)
               (Re.finditer true RE_BUG_ACTIVE content)
      else [])
  (* 4. File existence claims *)
  ++ flat_map (fun m =>
         let fname := Re.group 1 m in
         if (4 <? String.length fname)%nat
         then [mkClaim entry_id0 priority "file_exists"
                       (Py.slice_to 120 (Re.group 0 m)) fname
                       UNVERIFIABLE None SEVERITY_LOW None]
         else [])
      (Re.finditer true RE_FILE_CLAIM content).

(** The assignments [verify_claims] makes to a claim: verdict, actual
    value, severity and note ([None] leaves the field as it is). *)
Definition resolve (c : Claim) (v : string) (actual : option string)
           (sev : option string) (nt : option string) : Claim :=
  mkClaim (entry_id c) (entry_priority c) (claim_type c) (claim_text c)
          (expected_value c) v
          (match actual with Some a => Some a | None => actual_value c end)
          (default (severity c) sev)
          (match nt with Some n => Some n | None => note c end).

(** The loop of the [git_commit] branch up to its [break]: the first
    repository, in the order of the dict, whose head is set and starts
    with the expected token, with that head. *)
Fixpoint matching_repo (expected : string) (gits : list (string * GitState))
  : option (string * string) :=
  match gits with
  | [] => None
  | (repo, g) :: rest =>
      match head_commit g with
      | Some h =>
          if negb (String.eqb h "")
             && Py.startswith (Py.lower h) (Py.lower expected)
          then Some (repo, h)
          else matching_repo expected rest
      | None => matching_repo expected rest
      end
  end.

(** [{r: g.head_commit for r, g in reality.git.items() if g.head_commit}] *)
Definition actual_commits (gits : list (string * GitState))
  : list (string * string) :=
  flat_map (fun kv =>
              match head_commit (snd kv) with
              | Some h => if String.eqb h "" then [] else [(fst kv, h)]
              | None => []
              end) gits.

(** The key the [file_exists] loop stops at. *)
Definition key_matches (fname : string) (kv : string * bool) : bool :=
  let f := Py.lower (Py.replace_char Py.backslash "/" fname) in
  Py.contains f (Py.lower (fst kv)) || Py.contains (Py.lower (fst kv)) f.

(** The body of the loop of [verify_claims]; [None] is the [ValueError]
    of unpacking [expected_value.split(":", 1)]. *)
Definition verify_claim (reality : RealitySnapshot) (claim : Claim)
  : option Claim :=
  if String.eqb (claim_type claim) "git_commit" then
    match matching_repo (expected_value claim) (git reality) with
    | Some (repo, head) =>
        Some (resolve claim VERIFIED (Some head) None
                      (Some ("Matches " +:+ repo +:+ " HEAD")))
    | None =>
        Some (resolve claim ILLUSION
                      (Some (Py.str_dict (actual_commits (git reality))))
                      (Some SEVERITY_MEDIUM)
                      (Some "Commit not found as HEAD in any known repo"))
    end
  else if String.eqb (claim_type claim) "service_health" then
    match Py.split_once ":" (expected_value claim) with
    | None => None
    | Some (sname, expected_status) =>
        match services reality !! sname with
        | None =>
            Some (resolve claim UNVERIFIABLE None None
                          (Some ("Service '" +:+ sname +:+ "' not in scan scope")))
        | Some svc =>
            if reachable svc && String.eqb expected_status "UP" then
              Some (resolve claim VERIFIED
                            (Some ("HTTP " +:+ Py.fmt_opt_int (status_code svc)
                                   +:+ " (" +:+ Py.fmt_opt (response_ms svc)
                                   +:+ "ms)"))
                            None None)
            else if negb (reachable svc) && String.eqb expected_status "DOWN" then
              Some (resolve claim VERIFIED
                            (Some ("Unreachable: " +:+ Py.fmt_opt (svc_error svc)))
                            None None)
            else if negb (reachable svc) && String.eqb expected_status "UP" then
              Some (resolve claim ILLUSION
                            (Some ("Service DOWN: " +:+ Py.fmt_opt (svc_error svc)))
                            (Some SEVERITY_HIGH)
                            (Some "Service claimed UP but is unreachable"))
            else Some (resolve claim UNVERIFIABLE None None None)
        end
    end
  else if String.eqb (claim_type claim) "bug_active" then
    Some (resolve claim UNVERIFIABLE None None
                  (Some "Bug status requires code inspection or live test to verify"))
  else if String.eqb (claim_type claim) "file_exists" then
    match List.find (key_matches (expected_value claim)) (filesystem reality) with
    | Some (key, true) =>
        Some (resolve claim VERIFIED (Some ("Found: " +:+ key)) None None)
    | Some (key, false) =>
        Some (resolve claim ILLUSION (Some ("NOT found: " +:+ key))
                      (Some SEVERITY_MEDIUM)
                      (Some "File claimed to exist but not found on filesystem"))
    | None =>
        Some (resolve claim UNVERIFIABLE None None
                      (Some "File not in known scan paths"))
    end
  else Some claim.

(** [verify_claims(claims, reality)] *)
Definition verify_claims (claims : list Claim) (reality : RealitySnapshot)
  : option (list Claim) :=
  mapM (verify_claim reality) claims.

(** The key of the deduplication: [(c.claim_type, c.expected_value[:40])] *)
Definition dedup_key (c : Claim) : string * string :=
  (claim_type c, Py.slice_to 40 (expected_value c)).

(** The loop that fills [unique_claims], with its [seen] set. *)
Fixpoint dedup_go (seen : gset (string * string)) (l : list Claim) : list Claim :=
  match l with
  | [] => []
  | c :: t =>
      if decide (dedup_key c ∈ seen) then dedup_go seen t
      else c :: dedup_go ({[dedup_key c]} ∪ seen) t
  end.

Definition deduplicate (all_claims : list Claim) : list Claim :=
  dedup_go ∅ all_claims.

(** [sev_order.get(s, 9)] and [verdict_order.get(v, 9)] *)
Definition sev_order (s : string) : nat :=
  if String.eqb s SEVERITY_HIGH then 0
  else if String.eqb s SEVERITY_MEDIUM then 1
  else if String.eqb s SEVERITY_LOW then 2
  else 9.

Definition verdict_order (v : string) : nat :=
  if String.eqb v ILLUSION then 0
  else if String.eqb v UNVERIFIABLE then 1
  else if String.eqb v VERIFIED then 2
  else if String.eqb v STALE then 3
  else 9.

(** The sort key of [detect_illusions], a pair compared as a tuple. *)
Definition sort_key (c : Claim) : nat * nat :=
  (verdict_order (verdict c), sev_order (severity c)).

Definition key_leb (a b : nat * nat) : bool :=
  (fst a <? fst b)%nat || ((fst a =? fst b)%nat && (snd a <=? snd b)%nat).

(** [sorted(l, key=...)]: the stable sort, written as insertion from the
    right, each element going before the first one whose key is not
    smaller. *)
Fixpoint insert_sorted (c : Claim) (l : list Claim) : list Claim :=
  match l with
  | [] => [c]
  | x :: t =>
      if key_leb (sort_key c) (sort_key x) then c :: x :: t
      else x :: insert_sorted c t
  end.

Definition sorted (l : list Claim) : list Claim := foldr insert_sorted [] l.

(** A row of [load_current_focus_entries]: [(id, priority, category,
    content)], the id already as text. *)
Definition Entry : Type := string * string * string * string.

(** The first loop of [detect_illusions]: the claims of every row, in
    row order. *)
Definition extract_all (entries : list Entry) : list Claim :=
  flat_map (fun e : Entry =>
              let '(entry_id0, priority, category, content) := e in
              extract_claims entry_id0 priority content) entries.

(** [detect_illusions(reality)], on the rows the knowledge base returns. *)
Definition detect_illusions (entries : list Entry) (reality : RealitySnapshot)
  : option (list Claim) :=
  let all_claims := extract_all entries in
  let unique_claims := deduplicate all_claims in
  verified ← verify_claims unique_claims reality;
  Some (sorted verified).

End Detector.

(* ===================================================================== *)
(** ** engine.py: the warning level and the claim partition              *)
(* ===================================================================== *)

Module Engine.
Import Scanner Detector.

(** The fields of [OrientationBriefing] that carry the snapshot time,
    the claim partition and the warning level.  The summaries, the work
    order and the rendered text are formatted from the same inputs and
    feed back into none of these fields; they are left out. *)
Record OrientationBriefing := mkBriefing {
  generated_at : Z;
  illusions : list Claim;
  unverifiable : list Claim;
  verified_claims : list Claim;
  illusion_count : nat;
  warning_level : string
}.

Definition has_verdict (v : string) (c : Claim) : bool := String.eqb (verdict c) v.
Definition has_severity (s : string) (c : Claim) : bool := String.eqb (severity c) s.

(** Truthiness of a list *)
Definition nonempty {A} (l : list A) : bool :=
  match l with [] => false | _ :: _ => true end.

(** [_warning_level(illusions, down_svcs)] *)
Definition _warning_level (illusions0 : list Claim) (down_svcs : list string)
  : string :=
  if nonempty down_svcs
     || existsb (has_severity SEVERITY_HIGH)
                (List.filter (has_verdict ILLUSION) illusions0)
  then "RED"
  else if existsb (has_severity SEVERITY_MEDIUM)
                  (List.filter (has_verdict ILLUSION) illusions0)
  then "AMBER"
  else "GREEN".

(** [[name for name, s in reality.services.items() if not s.reachable]];
    the order of the names is that of [map_to_list], the level only
    reads whether the list is empty. *)
Definition down_services (reality : RealitySnapshot) : list string :=
  map fst (List.filter (fun kv : string * ServiceState => negb (reachable (snd kv)))
                       (map_to_list (services reality))).

(** [synthesize(reality, illusion_claims)] *)
Definition synthesize (reality : RealitySnapshot) (illusion_claims : list Claim)
  : OrientationBriefing :=
  let illusions0 := List.filter (has_verdict ILLUSION) illusion_claims in
  let unverif := List.filter (has_verdict UNVERIFIABLE) illusion_claims in
  let verified := List.filter (has_verdict VERIFIED) illusion_claims in
  let down_svcs := down_services reality in
  let warn_level := _warning_level illusions0 down_svcs in
  mkBriefing (scanned_at reality) illusions0 unverif verified
             (length illusions0) warn_level.

End Engine.

(* ===================================================================== *)
(** ** api.py: the single-slot briefing cache                            *)
(* ===================================================================== *)

Module Api.
Import Scanner Detector Engine.

(** The two module globals.  Instants are microseconds since the epoch,
    the resolution of [datetime]. *)
Record Cache := mkCache {
  _cached_briefing : option OrientationBriefing;
  _cached_at : option Z
}.

Definition CACHE_TTL_SECONDS : Z := 60.

(** [(now - _cached_at).total_seconds() < CACHE_TTL_SECONDS]: the
    difference counts whole microseconds, so the quotient by 10^6 is
    below the integer TTL exactly when the count is below TTL * 10^6. *)
Definition within_ttl (now cached_at : Z) : bool :=
  (now - cached_at <? CACHE_TTL_SECONDS * 1000000)%Z.

(** What one request reads from outside: the clock at its first line,
    and what [full_scan] and the knowledge base return if it gets as
    far as calling them. *)
Record Request := mkRequest {
  force_refresh : bool;
  now : Z;
  scan : RealitySnapshot;
  entries : list Entry
}.

(** The guard of the early return: the cached briefing when the request
    does not force a refresh, both globals are set and the slot is
    younger than the TTL. *)
Definition cache_hit (rq : Request) (cache : Cache) : option OrientationBriefing :=
  if force_refresh rq then None
  else
    match _cached_briefing cache, _cached_at cache with
    | Some cached, Some cached_at =>
        if within_ttl (now rq) cached_at then Some cached else None
    | _, _ => None
    end.

(** [_get_briefing(force_refresh)]: the value returned ([None] if
    [detect_illusions] raised) and the cache afterwards. *)
Definition _get_briefing (rq : Request) (cache : Cache)
  : option OrientationBriefing * Cache :=
  match cache_hit rq cache with
  | Some cached => (Some cached, cache)
  | None =>
      match detect_illusions (entries rq) (scan rq) with
      | Some claims =>
          let briefing := synthesize (scan rq) claims in
          (Some briefing, mkCache (Some briefing) (Some (now rq)))
      | None => (None, cache)
      end
  end.

End Api.

(* ===================================================================== *)
(** ** Vocabulary of the properties                                      *)
(* ===================================================================== *)

Import Scanner Detector Engine Api.

(** The order of the levels: GREEN < AMBER < RED. *)
Definition level_rank (l : string) : nat :=
  if String.eqb l "RED" then 2
  else if String.eqb l "AMBER" then 1
  else 0.

(** Some service of the snapshot is unreachable. *)
Definition some_service_down (reality : RealitySnapshot) : Prop :=
  exists n s, services reality !! n = Some s /\ reachable s = false.

(** Some claim of the list is an ILLUSION of the given severity. *)
Definition some_illusion (sev : string) (claims : list Claim) : Prop :=
  exists c, In c claims /\ verdict c = ILLUSION /\ severity c = sev.

(** The snapshot with the state of service [n] set to [s]. *)
Definition with_service (n : string) (s : ServiceState) (reality : RealitySnapshot)
  : RealitySnapshot :=
  mkRealitySnapshot (scanned_at reality) (git reality)
                    (<[n := s]> (services reality)) (filesystem reality).

(** The first claim of a list with a given deduplication key. *)
Definition first_with_key (k : string * string) (l : list Claim) : option Claim :=
  List.find (fun x => bool_decide (dedup_key x = k)) l.

(** The order on sort keys: pairs compared first component first. *)
Definition key_le (a b : nat * nat) : Prop :=
  (fst a < fst b)%nat \/ (fst a = fst b /\ (snd a <= snd b)%nat).

(** The order the output of [detect_illusions] is sorted by. *)
Definition claim_le (a b : Claim) : Prop := key_le (sort_key a) (sort_key b).

(** The head of a repository entry is set, is not empty and, compared
    without case, starts with the expected token. *)
Definition head_matches (expected : string) (kv : string * GitState) : Prop :=
  exists h, head_commit (snd kv) = Some h /\ h <> ""
            /\ exists rest, Py.lower h = Py.lower expected +:+ rest.

(** The repositories of a snapshot that have a (non-empty) head, in the
    order of the snapshot, each with that head. *)
Fixpoint repositories_with_head (gits : list (string * GitState))
  : list (string * string) :=
  match gits with
  | [] => []
  | (repo, g) :: rest =>
      match head_commit g with
      | Some h => if decide (h = "") then repositories_with_head rest
                  else (repo, h) :: repositories_with_head rest
      | None => repositories_with_head rest
      end
  end.

(** A character Python prints as itself between single quotes: printable
    ASCII other than the single quote and the backslash. *)
Definition plain_char (c : ascii) : bool :=
  Py.between 32 126 c && negb (Ascii.eqb c Py.squote)
  && negb (Ascii.eqb c Py.backslash).

Definition quoted (s : string) : string := "'" +:+ s +:+ "'".

(** The text of a mapping from names to heads: ['name': 'head'] items
    separated by a comma and a space, between braces. *)
Fixpoint mapping_items (d : list (string * string)) : string :=
  match d with
  | [] => ""
  | [kv] => quoted (fst kv) +:+ ": " +:+ quoted (snd kv)
  | kv :: rest =>
      quoted (fst kv) +:+ ": " +:+ quoted (snd kv) +:+ ", " +:+ mapping_items rest
  end.

Definition mapping_text (d : list (string * string)) : string :=
  "{" +:+ mapping_items d +:+ "}".

(** A snapshot with one repository that has a head and one whose path
    is missing. *)
Definition one_headless_reality : RealitySnapshot :=
  mkRealitySnapshot 0
    [("coach", mkGitState "coach" "/srv/coach" true (Some "fffffff")
                          (Some "master") [] [] [] None None);
     ("lxr", scan_repo (mkWorld (fun _ => false) (fun _ _ => None))
                       "lxr" "/srv/lxr")]
    ∅ [].

(** A degraded probe result: unavailable, no head, a non-empty error. *)
Definition degraded (s : GitState) : Prop :=
  available s = false /\ head_commit s = None
  /\ exists e, git_error s = Some e /\ e <> "".

(** The four queries [scan_repo] issues on an existing path whose head
    query succeeds. *)
Definition issued_queries (w : World) (path : string) : list (list string) :=
  [Q_HEAD; Q_BRANCH; Q_STATUS; Q_AHEAD_BEHIND (_git w Q_BRANCH path)].

(** A machine on which every path exists and git answers the head query
    only: every other invocation raises. *)
Definition head_only_world : World :=
  mkWorld (fun _ => true)
          (fun cmd _ =>
             if decide (cmd = "git" :: Q_HEAD) then Some (0%Z, "abc1234")
             else None).

(** A machine on which no path exists. *)
Definition empty_world : World := mkWorld (fun _ => false) (fun _ _ => None).

(** The shape of every extracted claim, by the rule that produced it. *)
Definition extracted_shape (c : Claim) : Prop :=
  verdict c = UNVERIFIABLE /\ actual_value c = None /\ note c = None /\
  ((claim_type c = "git_commit" /\ severity c = SEVERITY_LOW)
   \/ (claim_type c = "service_health" /\ severity c = SEVERITY_LOW /\
       exists sname, expected_value c = sname +:+ ":UP" /\
                     (sname = "lxr-5" \/ sname = "coach" \/ sname = "lxr" \/ sname = "ui"))
   \/ (claim_type c = "bug_active" /\ severity c = SEVERITY_HIGH /\
       expected_value c = "bug:present")
   \/ (claim_type c = "file_exists" /\ severity c = SEVERITY_LOW)).

(** Requests served one after another on the same cache: the values
    returned, in order, and the cache at the end. *)
Fixpoint serve (rqs : list Request) (cache : Cache)
  : list (option OrientationBriefing) * Cache :=
  match rqs with
  | [] => ([], cache)
  | rq :: rest =>
      let '(b, cache') := _get_briefing rq cache in
      let '(bs, cache'') := serve rest cache' in
      (b :: bs, cache'')
  end.

(** Sample data for the worked examples. *)
Definition sample_request (t : Z) (head : string) : Request :=
  mkRequest false t
    (mkRealitySnapshot (t + 5) [("coach", mkGitState "coach" "/srv/coach" true
                                            (Some head) (Some "master")
                                            [] [] [] None None)]
                       ∅ [])
    [("1", "current focus", "status", "branch master at 1a2b3c4")].


Definition sample_service (n : string) (up : bool) : ServiceState :=
  mkServiceState n ("https://" +:+ n) up
                 (if up then Some 200%Z else None)
                 (if up then Some "41.7" else None)
                 None None
                 (if up then None else Some "timed out").

Definition sample_repo (n h : string) : GitState :=
  mkGitState n ("/srv/" +:+ n) true (Some h) (Some "master") [] [] [] None None.

Definition sample_reality : RealitySnapshot :=
  mkRealitySnapshot 1000000
    [("coach", sample_repo "coach" "1a2b3c4d5e"); ("lxr", sample_repo "lxr" "FFFFFFF")]
    {[ "coach" := sample_service "coach" false ]}
    [("coach/notes.md", false)].

Definition sample_entries : list Entry :=
  [("1", "current focus", "status", "branch master at 1a2b3c4. coach: UP");
   ("2", "essence", "log",
    "commit 1234567 saved notes.md; at 1A2B3C4; lxr-5 : running")].



(* ===================================================================== *)
(** ** engine.py: the repository summary line and the work order         *)
(* ===================================================================== *)

(** The literals of [engine.py] that are not ASCII stand here as their
    UTF-8 bytes; they are only concatenated, never sliced or measured. *)

Module Report.
Import Scanner Detector Engine.

(** [d.get(k)] on a dict kept as an association list *)
Definition dict_get {V} (k : string) (d : list (string * V)) : option V :=
  snd <$> List.find (fun kv => String.eqb (fst kv) k) d.

(** The [status] list of [_git_line]: one item per non-empty category. *)
Definition status_items (g : GitState) : list string :=
  (if nonempty (staged g) then [pretty (length (staged g)) +:+ " staged"] else [])
  ++ (if nonempty (modified g) then [pretty (length (modified g)) +:+ " modified"] else [])
  ++ (if nonempty (untracked g) then [pretty (length (untracked g)) +:+ " untracked"] else []).

Definition TAB : string := String (ascii_of_nat 9) "".

(** [_git_line(name, g)] *)
Definition _git_line (name0 : string) (g : GitState) : string :=
  if negb (available g) then name0 +:+ ": NOT FOUND — " +:+ Py.fmt_opt (git_error g)
  else
    match head_commit g with
    | None => name0 +:+ ": not a git repo"
    | Some head =>
        let status := status_items g in
        let clean := if nonempty status then Py.join ", " status else "clean" in
        let ab :=
          match ahead_behind g with
          | Some x =>
              if negb (String.eqb x "") && negb (String.eqb x ("0" +:+ TAB +:+ "0"))
              then " [" +:+ x +:+ "]" else ""
          | None => ""
          end in
        name0 +:+ ": " +:+ head +:+ " ("
          +:+ (if Py.truthy (branch g) then Py.fmt_opt (branch g) else "?")
          +:+ ", " +:+ clean +:+ ")" +:+ ab
    end.

Definition REVIEW : string :=
  "Review current focus entries in Librarian and orient to system state.".
Definition DOWNLOAD : string :=
  "Download path_tau_scaffold.ps1 from Telegram (~msg 622), execute, commit to omni-os-blueprint".
Definition COMMIT_PNS : string :=
  "Commit APPENDIX_PERSISTENCE_NERVOUS_SYSTEM.md to cloudeye-coach (file in Telegram msg 639)".
Definition PROCEED : string :=
  "Proceed with current focus: LXR-5 bridge bug fix (4 SQL errors)".

(** [[c for c in illusions if c.verdict == ILLUSION and c.severity == SEVERITY_HIGH]] *)
Definition high_illusions (illusions0 : list Claim) : list Claim :=
  List.filter (fun c => has_verdict ILLUSION c && has_severity SEVERITY_HIGH c)
              illusions0.

Definition illusion_line (ill : Claim) : string :=
  "⚠ ILLUSION (" +:+ claim_type ill +:+ "): " +:+ Py.slice_to 80 (claim_text ill)
    +:+ " → actually: " +:+ Py.fmt_opt (actual_value ill).

(** The lines of the rule on the untracked files of the coach repo. *)
Definition coach_lines (reality : RealitySnapshot) : list string :=
  match dict_get "coach" (git reality) with
  | Some coach_git =>
      if nonempty (untracked coach_git)
      then ("🟡 " +:+ pretty (length (untracked coach_git))
              +:+ " untracked files in coach repo — commit or discard:")
             :: map (fun f => "   " +:+ f) (firstn 4 (untracked coach_git))
      else []
  | None => []
  end.

(** [_derive_work_order(reality, illusions)], from its second statement
    on: [down_svcs] is the list its first statement builds from
    [reality.services.items()], in the insertion order of that dict,
    which the finite map of the snapshot does not keep. *)
Definition _derive_work_order (down_svcs : list string) (reality : RealitySnapshot)
           (illusions0 : list Claim) : string * string :=
  let lines : list string := [] in
  let next_action := REVIEW in
  (* Critical: any service DOWN? *)
  let '(lines, next_action) :=
    match down_svcs with
    | first :: _ =>
        (lines ++ ["⚠ CRITICAL: Services unreachable: " +:+ Py.join ", " down_svcs],
         "Investigate why " +:+ first +:+ " is unreachable — check Railway logs")
    | [] => (lines, next_action)
    end in
  (* High-severity illusions *)
  let lines := lines ++ map illusion_line (firstn 3 (high_illusions illusions0)) in
  (* Untracked files in coach repo *)
  let lines := lines ++ coach_lines reality in
  (* Bonsai Forge status *)
  let forge_exists := default false (dict_get "omni/path_tau/README.md" (filesystem reality)) in
  let '(lines, next_action) :=
    if negb forge_exists
    then (lines ++ ["🟡 Bonsai Forge (Path Tau) scaffold NOT committed to omni-os-blueprint"],
          if Py.startswith next_action "Review" then DOWNLOAD else next_action)
    else (lines, next_action) in
  (* PNS appendix *)
  let pns_exists :=
    default false (dict_get "coach/APPENDIX_PERSISTENCE_NERVOUS_SYSTEM.md"
                            (filesystem reality)) in
  let '(lines, next_action) :=
    if negb pns_exists
    then (lines ++ ["🟡 APPENDIX_PERSISTENCE_NERVOUS_SYSTEM.md not yet committed to coach repo"],
          if Py.startswith next_action "Review" then COMMIT_PNS else next_action)
    else (lines, next_action) in
  (* All green? *)
  let '(lines, next_action) :=
    if negb (nonempty lines) && negb (nonempty down_svcs)
    then (lines ++ ["✅ No critical issues detected. System appears healthy."], PROCEED)
    else (lines, next_action) in
  (Py.join (String (ascii_of_nat 10) "") lines, next_action).

End Report.

(* ===================================================================== *)
(** ** Vocabulary of the further properties                              *)
(* ===================================================================== *)

(** [a] occurs in [b] as a contiguous run of characters. *)
Definition is_substring (a b : string) : Prop := exists p q, b = p +:+ a +:+ q.


(** The cache was filled, as a whole, by one request satisfying [P]. *)
Definition built_by (P : Request -> Prop) (cache : Cache) : Prop :=
  exists rq, P rq /\ exists claims,
    detect_illusions (entries rq) (scan rq) = Some claims
    /\ cache = mkCache (Some (synthesize (scan rq) claims)) (Some (now rq)).

(** A text without leading or trailing whitespace: stripping leaves it
    as it is, its first and its last character are not whitespace. *)
Definition trimmed (s : string) : Prop :=
  Py.strip s = s
  /\ (forall c t, s = String c t -> Py.isspace c = false)
  /\ (forall p c, s = p +:+ String c "" -> Py.isspace c = false).

(** Every character of a text satisfies a test. *)
Fixpoint all_chars (p : ascii -> bool) (s : string) : bool :=
  match s with
  | EmptyString => true
  | String c t => p c && all_chars p t
  end.

(** A text of ASCII characters only.  On such a text a character is a
    byte, and the case folding, the character classes and the word
    boundaries of [re] are the ASCII ones of [Re]. *)
Definition is_ascii (s : string) : bool :=
  all_chars (fun c => (Py.code c <? 128)%nat) s.

(** A matcher state sits at its offset of the subject. *)
Definition at_pos (subj : string) (st : Re.mstate) : Prop :=
  Re.m_rest st = Py.slice_from (Re.m_pos st) subj.

(** A lower-case hexadecimal digit. *)
Definition hex_lower (c : ascii) : bool :=
  Py.between 48 57 c || Py.between 97 102 c.

(** A character of the path class of [RE_FILE_CLAIM]. *)
Definition path_char (c : ascii) : bool :=
  Py.is_upper c || Py.is_lower c || Py.between 48 57 c
  || Ascii.eqb c "_" || Ascii.eqb c "-" || Ascii.eqb c "/"
  || Ascii.eqb c Py.backslash.

(** The two key files of the work order, as the filesystem probe reports
    them (absent keys count as missing files). *)
Definition forge_exists (reality : RealitySnapshot) : bool :=
  default false (Report.dict_get "omni/path_tau/README.md" (filesystem reality)).

Definition pns_exists (reality : RealitySnapshot) : bool :=
  default false (Report.dict_get "coach/APPENDIX_PERSISTENCE_NERVOUS_SYSTEM.md"
                                 (filesystem reality)).

(** The coach repository of the snapshot has untracked files. *)
Definition coach_has_untracked (reality : RealitySnapshot) : Prop :=
  exists g, Report.dict_get "coach" (git reality) = Some g /\ untracked g <> [].

(* ===================================================================== *)
(** ** config.py: the service registry                                   *)
(* ===================================================================== *)

Module Config.

(** [SERVICES]: name and base URL, in the order of the dict. *)
Definition SERVICES : list (string * string) :=
  [("lxr-5", "https://lxr-5-production.up.railway.app");
   ("coach", "https://cloudeye-coach-production.up.railway.app");
   ("coach-fe", "https://coach-frontend-production.up.railway.app");
   ("ui", "https://cloudeye-ui-production.up.railway.app");
   ("lxr", "https://cloudeye-lxr-production.up.railway.app")].

End Config.

(** A snapshot with a state for every configured service, all of them
    unreachable, for the worked examples. *)
Definition registry_down : RealitySnapshot :=
  mkRealitySnapshot 0 []
    (list_to_map (map (fun kv => (fst kv, sample_service (fst kv) false))
                      Config.SERVICES)) [].

(* ===================================================================== *)
(** * Properties                                                         *)
(* ===================================================================== *)

(** ** Warning level *)

Section WarningLevel.

Lemma nonempty_true {A} (l : list A) : nonempty l = true <-> exists x, In x l.
Proof.
  destruct l as [|x l]; simpl; split.
  - discriminate.
  - intros [x []].
  - intros _. exists x. now left.
  - reflexivity.
Qed.

Lemma down_services_spec (reality : RealitySnapshot) :
  nonempty (down_services reality) = true <-> some_service_down reality.
Proof.
  rewrite nonempty_true. unfold down_services, some_service_down. split.
  - intros [n Hn]. apply in_map_iff in Hn as [[k s] [<- Hks]].
    apply filter_In in Hks as [Hin Hr]. simpl in *.
    apply list_elem_of_In, elem_of_map_to_list in Hin.
    exists k, s. split; [exact Hin|]. now destruct (reachable s).
  - intros (n & s & Hl & Hr). exists n.
    apply in_map_iff. exists (n, s). split; [reflexivity|].
    apply filter_In. split.
    + apply list_elem_of_In, elem_of_map_to_list. exact Hl.
    + simpl. now rewrite Hr.
Qed.

Lemma illusion_filter_spec (sev : string) (claims : list Claim) :
  existsb (has_severity sev) (List.filter (has_verdict ILLUSION) claims) = true
  <-> some_illusion sev claims.
Proof.
  rewrite existsb_exists. unfold some_illusion, has_severity, has_verdict.
  split.
  - intros (c & Hc & Hs). apply filter_In in Hc as [Hin Hv].
    apply String.eqb_eq in Hs, Hv. now exists c.
  - intros (c & Hin & Hv & Hs). exists c. split.
    + apply filter_In. split; [exact Hin|]. now apply String.eqb_eq.
    + now apply String.eqb_eq.
Qed.

Lemma filter_filter_same {A} (p : A -> bool) (l : list A) :
  List.filter p (List.filter p l) = List.filter p l.
Proof.
  induction l as [|x l IH]; simpl; [reflexivity|].
  destruct (p x) eqn:E; simpl; [rewrite E; now f_equal | exact IH].
Qed.

(** The level [synthesize] stores is [_warning_level] of the whole claim
    list: filtering the illusions beforehand changes nothing. *)
Lemma synthesize_level (reality : RealitySnapshot) (claims : list Claim) :
  warning_level (synthesize reality claims)
  = _warning_level claims (down_services reality).
Proof.
  unfold synthesize, _warning_level; simpl.
  now rewrite filter_filter_same.
Qed.

(** The three cases of [_warning_level], by the emptiness of the list of
    down services and the presence of HIGH and MEDIUM illusions. *)
Lemma warning_level_cases (claims : list Claim) (down : list string) :
  ((exists x, In x down) \/ some_illusion SEVERITY_HIGH claims ->
     _warning_level claims down = "RED")
  /\ (~ ((exists x, In x down) \/ some_illusion SEVERITY_HIGH claims) ->
      some_illusion SEVERITY_MEDIUM claims ->
      _warning_level claims down = "AMBER")
  /\ (~ ((exists x, In x down) \/ some_illusion SEVERITY_HIGH claims) ->
      ~ some_illusion SEVERITY_MEDIUM claims ->
      _warning_level claims down = "GREEN").
Proof.
  unfold _warning_level.
  pose proof (nonempty_true down) as Hd.
  pose proof (illusion_filter_spec SEVERITY_HIGH claims) as Hh.
  pose proof (illusion_filter_spec SEVERITY_MEDIUM claims) as Hm.
  destruct (nonempty down);
    destruct (existsb (has_severity SEVERITY_HIGH) _);
    destruct (existsb (has_severity SEVERITY_MEDIUM) _); simpl;
    repeat split; intros; try reflexivity; exfalso;
    intuition discriminate.
Qed.

End WarningLevel.

Lemma synthesize_red (reality : RealitySnapshot) (claims : list Claim) :
  some_service_down reality \/ some_illusion SEVERITY_HIGH claims ->
  warning_level (synthesize reality claims) = "RED".
Proof.
  rewrite synthesize_level.
  destruct (warning_level_cases claims (down_services reality)) as (Hr & _).
  intros [H|H]; apply Hr; [left | now right].
  apply nonempty_true, down_services_spec, H.
Qed.

(** C1.  The warning level of a briefing is RED when some service of the
    snapshot is unreachable or some claim is an ILLUSION of severity HIGH;
    otherwise AMBER when some claim is an ILLUSION of severity MEDIUM;
    otherwise GREEN. *)
Theorem warning_level_three_way (reality : RealitySnapshot) (claims : list Claim) :
  (some_service_down reality \/ some_illusion SEVERITY_HIGH claims ->
     warning_level (synthesize reality claims) = "RED")
  /\ (~ (some_service_down reality \/ some_illusion SEVERITY_HIGH claims) ->
      some_illusion SEVERITY_MEDIUM claims ->
      warning_level (synthesize reality claims) = "AMBER")
  /\ (~ (some_service_down reality \/ some_illusion SEVERITY_HIGH claims) ->
      ~ some_illusion SEVERITY_MEDIUM claims ->
      warning_level (synthesize reality claims) = "GREEN").
Proof.
  rewrite synthesize_level.
  destruct (warning_level_cases claims (down_services reality)) as (Hr & Ha & Hg).
  pose proof (down_services_spec reality) as Hd.
  rewrite nonempty_true in Hd.
  repeat split.
  - intros [H|H]; apply Hr; [left; now apply Hd | now right].
  - intros Hn Hm. apply Ha; [|exact Hm].
    intros [H|H]; apply Hn; [left; now apply Hd | now right].
  - intros Hn Hm. apply Hg; [|exact Hm].
    intros [H|H]; apply Hn; [left; now apply Hd | now right].
Qed.

Lemma warning_level_range (claims : list Claim) (down : list string) :
  _warning_level claims down = "RED"
  \/ _warning_level claims down = "AMBER"
  \/ _warning_level claims down = "GREEN".
Proof.
  unfold _warning_level.
  destruct (_ || _); [now left|].
  destruct (existsb _ _); [right; now left | right; now right].
Qed.

Lemma level_rank_le_red (l : string) : (level_rank l <= level_rank "RED")%nat.
Proof.
  unfold level_rank. simpl.
  destruct (String.eqb l "RED"); [lia|].
  destruct (String.eqb l "AMBER"); lia.
Qed.

Lemma some_illusion_insert (sev : string) (l1 l2 : list Claim) (c : Claim) :
  verdict c = ILLUSION -> severity c = sev -> some_illusion sev (l1 ++ c :: l2).
Proof.
  intros Hv Hs. exists c. split; [|now split].
  apply in_or_app. right. now left.
Qed.

(** C7.  Monotonicity: setting one more service of the snapshot to an
    unreachable state, or inserting one more ILLUSION claim of severity
    HIGH anywhere in the claim list, never gives a level below (in
    GREEN < AMBER < RED) the level without the addition. *)
Theorem warning_level_monotone (reality : RealitySnapshot) :
  (forall (claims : list Claim) (n : string) (s : ServiceState),
      reachable s = false ->
      (level_rank (warning_level (synthesize reality claims))
       <= level_rank (warning_level (synthesize (with_service n s reality) claims)))%nat)
  /\ (forall (l1 l2 : list Claim) (c : Claim),
         verdict c = ILLUSION -> severity c = SEVERITY_HIGH ->
         (level_rank (warning_level (synthesize reality (l1 ++ l2)))
          <= level_rank (warning_level (synthesize reality (l1 ++ c :: l2))))%nat).
Proof.
  split.
  - intros claims n s Hs.
    rewrite (synthesize_red (with_service n s reality) claims);
      [apply level_rank_le_red|].
    left. exists n, s. split; [|exact Hs].
    unfold with_service; simpl. apply lookup_insert_eq.
  - intros l1 l2 c Hv Hs.
    rewrite (synthesize_red reality (l1 ++ c :: l2));
      [apply level_rank_le_red|].
    right. now apply some_illusion_insert.
Qed.

Lemma filter_illusion_skip (l1 l2 : list Claim) (c : Claim) :
  verdict c <> ILLUSION ->
  List.filter (has_verdict ILLUSION) (l1 ++ c :: l2)
  = List.filter (has_verdict ILLUSION) (l1 ++ l2).
Proof.
  intros Hv. rewrite !List.filter_app. simpl.
  unfold has_verdict at 2.
  destruct (String.eqb_spec (verdict c) ILLUSION) as [E|E]; [contradiction|reflexivity].
Qed.

(** ** What [extract_claims] can produce *)

Lemma normalize_range (raw sname : string) :
  _service_name_normalize raw = Some sname ->
  sname = "lxr-5" \/ sname = "coach" \/ sname = "lxr" \/ sname = "ui".
Proof.
  unfold _service_name_normalize.
  repeat match goal with
         | |- context [if ?b then _ else _] => destruct b
         end; intros [= <-]; auto.
Qed.

Lemma extract_claims_shape (i p content : string) (c : Claim) :
  In c (extract_claims i p content) -> extracted_shape c.
Proof.
  unfold extract_claims, extracted_shape. intros H.
  repeat (apply in_app_or in H as [H|H]).
  - apply in_map_iff in H as (m & <- & _). simpl. intuition.
  - apply in_flat_map in H as (m & _ & H).
    destruct (_service_name_normalize (Re.group 1 m)) as [sname|] eqn:E; [|destruct H].
    destruct (String.eqb sname ""); [destruct H|].
    destruct H as [<-|[]]. simpl. repeat split.
    right; left. repeat split. exists sname. split; [reflexivity|].
    exact (normalize_range _ _ E).
  - destruct (Re.search true RE_BUG_MARKER content); [|destruct H].
    apply in_map_iff in H as (m & <- & _). simpl. intuition.
  - apply in_flat_map in H as (m & _ & H).
    destruct (4 <? String.length (Re.group 1 m))%nat; [|destruct H].
    destruct H as [<-|[]]. simpl. intuition.
Qed.

Lemma verify_extracted_some (reality : RealitySnapshot) (c : Claim) :
  extracted_shape c -> is_Some (verify_claim reality c).
Proof.
  intros (_ & _ & _ & H). unfold verify_claim.
  destruct H as [[Ht _]|[(Ht & _ & sname & He & Hs)|[(Ht & _)|[Ht _]]]];
    rewrite Ht; simpl.
  - destruct (matching_repo _ _) as [[? ?]|]; eauto.
  - rewrite He.
    assert (Hsp : Py.split_once ":" (sname +:+ ":UP") = Some (sname, "UP")).
    { destruct Hs as [->|[->|[->| ->]]]; reflexivity. }
    rewrite Hsp.
    destruct (services reality !! sname) as [svc|]; [|eauto].
    destruct (reachable svc); simpl; eauto.
  - eauto.
  - destruct (List.find _ _) as [[? []]|]; eauto.
Qed.

(** A [bug_active] claim is resolved to UNVERIFIABLE and keeps its
    severity. *)
Lemma verify_bug_active (reality : RealitySnapshot) (c : Claim) :
  claim_type c = "bug_active" ->
  exists c', verify_claim reality c = Some c' /\ verdict c' = UNVERIFIABLE
             /\ severity c' = severity c.
Proof.
  intros Ht. unfold verify_claim. rewrite Ht. simpl. eauto.
Qed.

(** C10.  A claim whose verdict is not ILLUSION does not influence the
    warning level: with or without it, anywhere in the list, the level
    of the briefing (and of [_warning_level] for any list of down
    services) is the same.  The bug-inventory claims are of that kind:
    they are extracted with severity HIGH and verification resolves them
    to UNVERIFIABLE, still with severity HIGH. *)
Theorem non_illusions_do_not_count :
  (forall (reality : RealitySnapshot) (down : list string)
          (l1 l2 : list Claim) (c : Claim),
      verdict c <> ILLUSION ->
      warning_level (synthesize reality (l1 ++ c :: l2))
      = warning_level (synthesize reality (l1 ++ l2))
      /\ _warning_level (l1 ++ c :: l2) down = _warning_level (l1 ++ l2) down)
  /\ (forall (i p content : string) (reality : RealitySnapshot) (c : Claim),
         In c (extract_claims i p content) ->
         claim_type c = "bug_active" ->
         severity c = SEVERITY_HIGH
         /\ exists c', verify_claim reality c = Some c'
                       /\ verdict c' = UNVERIFIABLE
                       /\ severity c' = SEVERITY_HIGH).
Proof.
  split.
  - intros reality down l1 l2 c Hv.
    rewrite !synthesize_level. unfold _warning_level.
    rewrite (filter_illusion_skip l1 l2 c Hv). split; reflexivity.
  - intros i p content reality c Hin Ht.
    apply extract_claims_shape in Hin as (_ & _ & _ & H).
    assert (Hs : severity c = SEVERITY_HIGH).
    { destruct H as [[E _]|[(E & _)|[(_ & E & _)|[E _]]]];
        try exact E; rewrite Ht in E; discriminate. }
    split; [exact Hs|].
    destruct (verify_bug_active reality c Ht) as (c' & Hc & Hv & Hsev).
    exists c'. rewrite Hsev, Hs. auto.
Qed.

(** ** Deduplication *)

Section Dedup.

Lemma not_in_add (k k' : string * string) (seen : gset (string * string)) :
  k ∉ {[k']} ∪ seen <-> k <> k' /\ k ∉ seen.
Proof. now rewrite not_elem_of_union, not_elem_of_singleton. Qed.

Lemma dedup_go_fresh (seen : gset (string * string)) (l : list Claim) (c : Claim) :
  In c (dedup_go seen l) -> (dedup_key c ∉ seen) /\ In c l.
Proof.
  revert seen. induction l as [|x t IH]; intros seen; simpl; [intros []|].
  destruct (decide (dedup_key x ∈ seen)) as [Hx|Hx].
  - intros H. destruct (IH _ H) as [? ?]. auto.
  - intros [<-|H]; [auto|].
    destruct (IH _ H) as [Hn ?]. apply not_in_add in Hn as [_ Hn]. auto.
Qed.

Lemma dedup_go_nodup (seen : gset (string * string)) (l : list Claim) :
  List.NoDup (map dedup_key (dedup_go seen l)).
Proof.
  revert seen. induction l as [|x t IH]; intros seen; simpl; [constructor|].
  destruct (decide (dedup_key x ∈ seen)) as [Hx|Hx]; [apply IH|].
  simpl. constructor; [|apply IH].
  intros Hin. apply in_map_iff in Hin as (c & Hk & Hc).
  apply dedup_go_fresh in Hc as [Hn _].
  apply not_in_add in Hn as [Hn _]. congruence.
Qed.

Lemma dedup_go_sublist (seen : gset (string * string)) (l : list Claim) :
  sublist (dedup_go seen l) l.
Proof.
  revert seen. induction l as [|x t IH]; intros seen; simpl; [constructor|].
  destruct (decide (dedup_key x ∈ seen)).
  - apply sublist_cons, IH.
  - apply sublist_skip, IH.
Qed.

Lemma first_with_key_skip (k : string * string) (x : Claim) (t : list Claim) :
  dedup_key x <> k -> first_with_key k (x :: t) = first_with_key k t.
Proof.
  intros Hne. unfold first_with_key. simpl.
  now rewrite bool_decide_eq_false_2.
Qed.

Lemma first_with_key_here (x : Claim) (t : list Claim) :
  first_with_key (dedup_key x) (x :: t) = Some x.
Proof.
  unfold first_with_key. simpl. now rewrite bool_decide_eq_true_2.
Qed.

(** Every key of the input that is not yet seen is represented in the
    output by the first claim that carries it. *)
Lemma dedup_go_represents (seen : gset (string * string)) (l : list Claim) (c : Claim) :
  In c l -> dedup_key c ∉ seen ->
  exists kept, In kept (dedup_go seen l)
               /\ first_with_key (dedup_key c) l = Some kept.
Proof.
  revert seen. induction l as [|x t IH]; intros seen; [intros []|].
  intros Hin Hc. cbn [dedup_go].
  destruct (decide (dedup_key x = dedup_key c)) as [E|E].
  - destruct (decide (dedup_key x ∈ seen)) as [Hx|Hx].
    + exfalso. apply Hc. now rewrite <- E.
    + exists x. split; [now left|].
      rewrite <- E. apply first_with_key_here.
  - destruct Hin as [->|Hin]; [congruence|].
    destruct (decide (dedup_key x ∈ seen)) as [Hx|Hx].
    + destruct (IH seen Hin Hc) as (kept & Hk & Hf).
      exists kept. rewrite (first_with_key_skip _ _ _ E). auto.
    + destruct (IH ({[dedup_key x]} ∪ seen) Hin) as (kept & Hk & Hf).
      { apply not_in_add. split; [congruence | exact Hc]. }
      exists kept. rewrite (first_with_key_skip _ _ _ E). simpl. auto.
Qed.

(** Every claim of the output is the first of the input with its key. *)
Lemma dedup_go_keeps_first (seen : gset (string * string)) (l : list Claim) (kept : Claim) :
  In kept (dedup_go seen l) -> first_with_key (dedup_key kept) l = Some kept.
Proof.
  revert seen. induction l as [|x t IH]; intros seen; [intros []|].
  cbn [dedup_go].
  destruct (decide (dedup_key x ∈ seen)) as [Hx|Hx].
  - intros H. pose proof (dedup_go_fresh _ _ _ H) as [Hn _].
    rewrite first_with_key_skip; [eapply IH, H|]. intros E. now rewrite E in Hx.
  - intros [<-|H]; [apply first_with_key_here|].
    pose proof (dedup_go_fresh _ _ _ H) as [Hn _].
    rewrite first_with_key_skip; [eapply IH, H|].
    apply not_in_add in Hn as [Hn _]. congruence.
Qed.

End Dedup.

Lemma find_split (A : Type) (p : A -> bool) (l : list A) (x : A) :
  List.find p l = Some x ->
  exists before after,
    l = before ++ x :: after /\ p x = true
    /\ forall y, In y before -> p y = false.
Proof.
  induction l as [|y t IH]; simpl; [discriminate|].
  destruct (p y) eqn:Hy.
  - intros [= ->]. exists [], t. split; [reflexivity|]. split; [exact Hy|].
    intros ? [].
  - intros H. destruct (IH H) as (before & after & -> & Hx & Hb).
    exists (y :: before), after. split; [reflexivity|]. split; [exact Hx|].
    intros z [<-|Hz]; [exact Hy | exact (Hb z Hz)].
Qed.

Lemma first_with_key_split (k : string * string) (l : list Claim) (kept : Claim) :
  first_with_key k l = Some kept ->
  exists before after,
    l = before ++ kept :: after /\ dedup_key kept = k
    /\ forall x, In x before -> dedup_key x <> k.
Proof.
  intros H. apply find_split in H as (before & after & -> & Hk & Hb).
  exists before, after. split; [reflexivity|].
  split; [now apply bool_decide_eq_true in Hk|].
  intros x Hx E. specialize (Hb x Hx).
  apply bool_decide_eq_false in Hb. contradiction.
Qed.

(** C3.  The list handed to verification is the deduplicated list of the
    extracted claims; no two of its claims share a (claim type, first 40
    characters of the expected value) pair; it keeps the extraction order;
    for every claim extracted, the claim kept for its pair is the first
    one extracted with that pair (no claim extracted before it has the
    same claim type and the same first 40 characters of the expected
    value); and every claim kept is the first one extracted with its
    pair. *)
Theorem dedup_first_occurrence_wins (entries : list Entry) (reality : RealitySnapshot) :
  detect_illusions entries reality
  = sorted <$> verify_claims (deduplicate (extract_all entries)) reality
  /\ List.NoDup (map (fun c => (claim_type c, Py.slice_to 40 (expected_value c)))
                     (deduplicate (extract_all entries)))
  /\ sublist (deduplicate (extract_all entries)) (extract_all entries)
  /\ (forall c, In c (extract_all entries) ->
        exists kept before after,
          extract_all entries = before ++ kept :: after
          /\ In kept (deduplicate (extract_all entries))
          /\ claim_type kept = claim_type c
          /\ Py.slice_to 40 (expected_value kept) = Py.slice_to 40 (expected_value c)
          /\ forall x, In x before ->
               ~ (claim_type x = claim_type c
                  /\ Py.slice_to 40 (expected_value x)
                     = Py.slice_to 40 (expected_value c)))
  /\ (forall kept, In kept (deduplicate (extract_all entries)) ->
        exists before after,
          extract_all entries = before ++ kept :: after
          /\ forall x, In x before ->
               ~ (claim_type x = claim_type kept
                  /\ Py.slice_to 40 (expected_value x)
                     = Py.slice_to 40 (expected_value kept))).
Proof.
  unfold deduplicate. split; [|split; [|split; [|split]]].
  - unfold detect_illusions, deduplicate.
    destruct (verify_claims (dedup_go ∅ (extract_all entries)) reality);
      reflexivity.
  - exact (dedup_go_nodup ∅ (extract_all entries)).
  - apply dedup_go_sublist.
  - intros c Hc.
    destruct (dedup_go_represents ∅ _ c Hc (not_elem_of_empty _))
      as (kept & Hk & Hf).
    apply first_with_key_split in Hf as (before & after & Hl & Hkey & Hb).
    exists kept, before, after. injection Hkey as Ht Hp.
    repeat (split; [assumption|]).
    intros x Hx [Hxt Hxp]. apply (Hb x Hx). unfold dedup_key. congruence.
  - intros kept Hk.
    pose proof (dedup_go_keeps_first _ _ _ Hk) as Hf.
    apply first_with_key_split in Hf as (before & after & Hl & _ & Hb).
    exists before, after. split; [assumption|].
    intros x Hx [Hxt Hxp]. apply (Hb x Hx). unfold dedup_key. congruence.
Qed.

(** ** Output order *)

Section Sorting.

Lemma key_leb_spec (a b : nat * nat) : key_leb a b = true <-> key_le a b.
Proof.
  unfold key_leb, key_le.
  rewrite orb_true_iff, andb_true_iff, Nat.ltb_lt, Nat.eqb_eq, Nat.leb_le.
  reflexivity.
Qed.

Lemma key_le_refl (a : nat * nat) : key_le a a.
Proof. unfold key_le. right. split; [reflexivity | lia]. Qed.

Lemma key_le_total (a b : nat * nat) : key_le a b \/ key_le b a.
Proof. unfold key_le. lia. Qed.

Lemma key_le_trans (a b c : nat * nat) : key_le a b -> key_le b c -> key_le a c.
Proof. unfold key_le. lia. Qed.

Lemma key_le_antisym (a b : nat * nat) : key_le a b -> key_le b a -> a = b.
Proof.
  destruct a, b. unfold key_le. simpl. intros H1 H2. f_equal; lia.
Qed.

Lemma key_leb_false (a b : nat * nat) : key_leb a b = false -> key_le b a.
Proof.
  intros H. destruct (key_le_total a b) as [Hab|Hba]; [|exact Hba].
  apply key_leb_spec in Hab. congruence.
Qed.

Lemma insert_sorted_perm (c : Claim) (l : list Claim) :
  Permutation (insert_sorted c l) (c :: l).
Proof.
  induction l as [|x t IH]; simpl; [reflexivity|].
  destruct (key_leb (sort_key c) (sort_key x)); [reflexivity|].
  rewrite IH. apply perm_swap.
Qed.

Lemma sorted_perm (l : list Claim) : Permutation (sorted l) l.
Proof.
  induction l as [|x t IH]; simpl; [reflexivity|].
  fold (sorted t). rewrite insert_sorted_perm. now constructor.
Qed.

Lemma insert_sorted_hd (a c : Claim) (l : list Claim) :
  claim_le a c -> HdRel claim_le a l -> HdRel claim_le a (insert_sorted c l).
Proof.
  intros Hac Hl. destruct l as [|x t]; simpl; [now constructor|].
  destruct (key_leb (sort_key c) (sort_key x)); constructor; [exact Hac|].
  now inversion Hl.
Qed.

Lemma insert_sorted_Sorted (c : Claim) (l : list Claim) :
  Sorted claim_le l -> Sorted claim_le (insert_sorted c l).
Proof.
  induction l as [|x t IH]; simpl; intros Hs.
  - repeat constructor.
  - destruct (key_leb (sort_key c) (sort_key x)) eqn:E.
    + constructor; [exact Hs|]. constructor. now apply key_leb_spec.
    + inversion Hs as [|? ? Ht Hhd]; subst.
      constructor; [now apply IH|].
      apply insert_sorted_hd; [|exact Hhd]. now apply key_leb_false.
Qed.

Lemma sorted_Sorted (l : list Claim) : Sorted claim_le (sorted l).
Proof.
  induction l as [|x t IH]; simpl; [constructor|].
  now apply insert_sorted_Sorted.
Qed.

(** The sort is stable: the claims of one key keep their order. *)
Lemma insert_sorted_filter (k : nat * nat) (c : Claim) (l : list Claim) :
  List.filter (fun x => bool_decide (sort_key x = k)) (insert_sorted c l)
  = List.filter (fun x => bool_decide (sort_key x = k)) (c :: l).
Proof.
  induction l as [|x t IH]; [reflexivity|].
  cbn [insert_sorted].
  destruct (key_leb (sort_key c) (sort_key x)) eqn:E; [reflexivity|].
  cbn [List.filter] in *. rewrite IH.
  destruct (decide (sort_key c = k)) as [Hc|Hc];
    destruct (decide (sort_key x = k)) as [Hx|Hx];
    rewrite ?(bool_decide_eq_true_2 _ Hc), ?(bool_decide_eq_false_2 _ Hc),
            ?(bool_decide_eq_true_2 _ Hx), ?(bool_decide_eq_false_2 _ Hx);
    try reflexivity.
  exfalso. rewrite Hx, <- Hc in E.
  pose proof (proj2 (key_leb_spec _ _) (key_le_refl (sort_key c))). congruence.
Qed.

Lemma sorted_stable (k : nat * nat) (l : list Claim) :
  List.filter (fun x => bool_decide (sort_key x = k)) (sorted l)
  = List.filter (fun x => bool_decide (sort_key x = k)) l.
Proof.
  induction l as [|x t IH]; [reflexivity|].
  cbn [sorted foldr]. fold (sorted t).
  rewrite insert_sorted_filter. cbn [List.filter]. now rewrite IH.
Qed.

(** Sortedness read at two neighbouring positions. *)
Lemma Sorted_adjacent (l : list Claim) (i : nat) (a b : Claim) :
  Sorted claim_le l -> l !! i = Some a -> l !! S i = Some b -> claim_le a b.
Proof.
  intros Hs. revert i. induction Hs as [|x t Ht IH Hhd]; intros i Ha Hb.
  - discriminate.
  - destruct i as [|i]; simpl in *.
    + injection Ha as ->. destruct t as [|y t']; [discriminate|].
      simpl in Hb. injection Hb as ->. now inversion Hhd.
    + eapply IH; eassumption.
Qed.

End Sorting.

(** ** [detect_illusions] returns *)

Lemma extract_all_shape (entries : list Entry) (c : Claim) :
  In c (extract_all entries) -> extracted_shape c.
Proof.
  unfold extract_all. intros H.
  apply in_flat_map in H as ([[[i p] cat] content] & _ & H).
  eapply extract_claims_shape, H.
Qed.

Lemma verify_claims_extracted (entries : list Entry) (reality : RealitySnapshot) :
  is_Some (verify_claims (deduplicate (extract_all entries)) reality).
Proof.
  unfold verify_claims. apply mapM_is_Some, Forall_forall.
  intros c Hc. apply list_elem_of_In in Hc.
  apply dedup_go_fresh in Hc as [_ Hc].
  apply verify_extracted_some. eapply extract_all_shape, Hc.
Qed.

(** C2.  [detect_illusions] returns, and the list it returns is the list
    of verified claims rearranged so that of any two neighbours either
    the first has the strictly smaller verdict priority, or both have
    the same verdict priority and the first has the smaller or equal
    severity priority; the priorities are ILLUSION=0, UNVERIFIABLE=1,
    VERIFIED=2, STALE=3 and HIGH=0, MEDIUM=1, LOW=2, and this comparison
    of (verdict priority, severity priority) pairs is a total order. *)
Theorem detect_illusions_sorted (entries : list Entry) (reality : RealitySnapshot) :
  (verdict_order ILLUSION = 0 /\ verdict_order UNVERIFIABLE = 1
   /\ verdict_order VERIFIED = 2 /\ verdict_order STALE = 3)%nat
  /\ (sev_order SEVERITY_HIGH = 0 /\ sev_order SEVERITY_MEDIUM = 1
      /\ sev_order SEVERITY_LOW = 2)%nat
  /\ (forall a b c : nat * nat,
         key_le a a /\ (key_le a b \/ key_le b a)
         /\ (key_le a b -> key_le b c -> key_le a c)
         /\ (key_le a b -> key_le b a -> a = b))
  /\ exists verified out,
       verify_claims (deduplicate (extract_all entries)) reality = Some verified
       /\ detect_illusions entries reality = Some out
       /\ Permutation out verified
       /\ forall (i : nat) (a b : Claim),
            out !! i = Some a -> out !! S i = Some b ->
            (verdict_order (verdict a) < verdict_order (verdict b))%nat
            \/ (verdict_order (verdict a) = verdict_order (verdict b)
                /\ (sev_order (severity a) <= sev_order (severity b))%nat).
Proof.
  split; [repeat split|]. split; [repeat split|]. split.
  - intros a b c. split; [apply key_le_refl|]. split; [apply key_le_total|].
    split; [apply key_le_trans | apply key_le_antisym].
  - destruct (verify_claims_extracted entries reality) as [verified Hv].
    exists verified, (sorted verified). split; [exact Hv|].
    split; [unfold detect_illusions; now rewrite Hv|].
    split; [apply sorted_perm|].
    intros i a b Ha Hb.
    exact (Sorted_adjacent _ _ _ _ (sorted_Sorted verified) Ha Hb).
Qed.

(** ** Verification of service-health claims *)

Lemma contains_char_cons (x c : ascii) (t : string) :
  Py.contains_char x (String c t) = false ->
  x <> c /\ Py.contains_char x t = false.
Proof.
  unfold Py.contains_char. simpl.
  destruct (ascii_dec x c) as [E|E]; simpl.
  - destruct t; discriminate.
  - intros H. split; [exact E|exact H].
Qed.

Lemma split_once_first (sep : ascii) (a b : string) :
  Py.contains_char sep a = false ->
  Py.split_once sep (a +:+ String sep b) = Some (a, b).
Proof.
  induction a as [|c t IH]; simpl; intros H.
  - now rewrite Ascii.eqb_refl.
  - apply contains_char_cons in H as [Hne H].
    destruct (Ascii.eqb_spec c sep) as [E|E]; [congruence|].
    now rewrite (IH H).
Qed.

(** C4.  A service-health claim whose expected value is
    [service ":" state], with no colon in [service], is resolved as
    follows: UNVERIFIABLE with a "not in scan scope" note when the
    snapshot has no such service; VERIFIED for UP against a reachable
    service and for DOWN against an unreachable one; ILLUSION of severity
    HIGH for UP against an unreachable service; UNVERIFIABLE in every
    other combination. *)
Theorem service_health_verdicts
        (reality : RealitySnapshot) (claim : Claim) (service state : string) :
  claim_type claim = "service_health" ->
  expected_value claim = service +:+ ":" +:+ state ->
  Py.contains_char ":" service = false ->
  exists c', verify_claim reality claim = Some c' /\
    match services reality !! service with
    | None =>
        verdict c' = UNVERIFIABLE
        /\ note c' = Some ("Service '" +:+ service +:+ "' not in scan scope")
    | Some svc =>
        (state = "UP" -> reachable svc = true -> verdict c' = VERIFIED)
        /\ (state = "DOWN" -> reachable svc = false -> verdict c' = VERIFIED)
        /\ (state = "UP" -> reachable svc = false ->
            verdict c' = ILLUSION /\ severity c' = SEVERITY_HIGH)
        /\ (state <> "UP" -> ~ (state = "DOWN" /\ reachable svc = false) ->
            verdict c' = UNVERIFIABLE)
    end.
Proof.
  intros Ht He Hc.
  assert (Hsp : Py.split_once ":" (expected_value claim) = Some (service, state)).
  { rewrite He. apply (split_once_first ":" service state Hc). }
  unfold verify_claim. rewrite Ht, Hsp. simpl.
  destruct (services reality !! service) as [svc|]; [|eauto].
  destruct (reachable svc) eqn:Hr; simpl;
    destruct (String.eqb_spec state "UP") as [Eu|Eu];
    try destruct (String.eqb_spec state "DOWN") as [Ed|Ed];
    eexists; (split; [reflexivity|]); simpl;
    repeat split; intros; subst; try congruence; try discriminate;
    try reflexivity; exfalso; tauto.
Qed.

Lemma service_health_verdicts_witness :
  exists c',
    verify_claim
      (mkRealitySnapshot 0 []
         {[ "coach" := mkServiceState "coach" "https://coach" false None None
                                      None None (Some "timed out") ]} [])
      (mkClaim "7" "current focus" "service_health" "coach: UP" "coach:UP"
               UNVERIFIABLE None SEVERITY_LOW None) = Some c'
    /\ verdict c' = ILLUSION /\ severity c' = SEVERITY_HIGH.
Proof.
  destruct (service_health_verdicts
              (mkRealitySnapshot 0 []
                 {[ "coach" := mkServiceState "coach" "https://coach" false None None
                                              None None (Some "timed out") ]} [])
              (mkClaim "7" "current focus" "service_health" "coach: UP" "coach:UP"
                       UNVERIFIABLE None SEVERITY_LOW None)
              "coach" "UP" eq_refl eq_refl eq_refl) as (c' & Hv & H).
  exists c'. split; [exact Hv|].
  simpl in H. rewrite lookup_singleton_eq in H.
  destruct H as (_ & _ & H & _). apply H; reflexivity.
Defined.

(** ** Prefixes and substrings *)

Section Texts.

Lemma str_app_nil_l (a : string) : "" +:+ a = a.
Proof. reflexivity. Qed.

Lemma str_app_cons (x : ascii) (a b : string) :
  String x a +:+ b = String x (a +:+ b).
Proof. reflexivity. Qed.

Lemma str_app_assoc (a b c : string) : (a +:+ b) +:+ c = a +:+ (b +:+ c).
Proof.
  induction a as [|x a IH]; [reflexivity|].
  now rewrite !str_app_cons, IH.
Qed.

Lemma str_app_nil_r (a : string) : a +:+ "" = a.
Proof.
  induction a as [|x a IH]; [reflexivity|].
  now rewrite str_app_cons, IH.
Qed.

Lemma prefix_spec (p s : string) :
  String.prefix p s = true <-> exists q, s = p +:+ q.
Proof.
  revert s. induction p as [|a p IH]; intros s.
  - split; [intros _; now exists s|intros _; now destruct s].
  - destruct s as [|b s]; simpl; [split; [discriminate|intros [q [=]]]|].
    destruct (ascii_dec a b) as [<-|Hne].
    + rewrite IH. split; intros [q Hq]; exists q; [now rewrite Hq|now injection Hq].
    + split; [discriminate|]. intros [q [= E _]]. congruence.
Qed.

Lemma contains_spec (n h : string) :
  Py.contains n h = true <-> is_substring n h.
Proof.
  unfold is_substring. induction h as [|c h IH].
  - cbn [Py.contains]. rewrite orb_false_r, prefix_spec. split.
    + intros [q Hq]. now exists "", q.
    + intros ([|? p] & q & Hq); [now exists q|discriminate].
  - cbn [Py.contains]. rewrite orb_true_iff, prefix_spec, IH. split.
    + intros [[q Hq]|(p & q & Hq)].
      * now exists "", q.
      * exists (String c p), q. simpl. now rewrite Hq.
    + intros ([|c' p] & q & Hq).
      * left. now exists q.
      * right. injection Hq as _ Hq. now exists p, q.
Qed.

End Texts.

(** ** Verification of revision references *)

Section Revision.

Lemma matching_repo_app (e : string) (pre l : list (string * GitState)) :
  matching_repo e pre = None ->
  matching_repo e (pre ++ l) = matching_repo e l.
Proof.
  induction pre as [|[r g] t IH]; simpl; [reflexivity|].
  destruct (head_commit g) as [h'|]; [|exact IH].
  destruct (negb (String.eqb h' "") && _); [discriminate|exact IH].
Qed.

Lemma head_matches_test (e repo : string) (g : GitState) :
  head_matches e (repo, g)
  <-> exists h, head_commit g = Some h
                /\ negb (String.eqb h "")
                   && Py.startswith (Py.lower h) (Py.lower e) = true.
Proof.
  unfold head_matches, Py.startswith. simpl. split.
  - intros (h & Hh & Hne & Hp). exists h. split; [exact Hh|].
    apply andb_true_iff. split; [|now apply prefix_spec].
    now destruct (String.eqb_spec h "").
  - intros (h & Hh & Ht). apply andb_true_iff in Ht as [Hne Hp].
    exists h. split; [exact Hh|]. split; [|now apply prefix_spec].
    intros ->. discriminate.
Qed.

(** The repository [matching_repo] returns is the first, in the order of
    the snapshot, whose head matches. *)
Lemma matching_repo_first (e : string) (gits : list (string * GitState))
      (repo h : string) :
  matching_repo e gits = Some (repo, h) ->
  exists pre g post,
    gits = pre ++ (repo, g) :: post
    /\ (forall kv, In kv pre -> ~ head_matches e kv)
    /\ head_commit g = Some h /\ head_matches e (repo, g).
Proof.
  induction gits as [|[r g] t IH]; [discriminate|].
  cbn [matching_repo].
  destruct (head_commit g) as [h'|] eqn:Hh.
  - destruct (negb (String.eqb h' "")
              && Py.startswith (Py.lower h') (Py.lower e)) eqn:Ht.
    + intros [= <- <-]. exists [], g, t. split; [reflexivity|].
      split; [intros ? []|]. split; [exact Hh|].
      apply head_matches_test. now exists h'.
    + intros H. destruct (IH H) as (pre & g' & post & -> & Hpre & Hg & Hm).
      exists ((r, g) :: pre), g', post. split; [reflexivity|].
      split; [|auto]. intros kv [<-|Hin]; [|exact (Hpre kv Hin)].
      intros Hk. apply head_matches_test in Hk as (h2 & Hh2 & Ht2).
      congruence.
  - intros H. destruct (IH H) as (pre & g' & post & -> & Hpre & Hg & Hm).
    exists ((r, g) :: pre), g', post. split; [reflexivity|].
    split; [|auto]. intros kv [<-|Hin]; [|exact (Hpre kv Hin)].
    intros Hk. apply head_matches_test in Hk as (h2 & Hh2 & _). congruence.
Qed.

Lemma matching_repo_unmatched (e : string) (gits : list (string * GitState)) :
  matching_repo e gits = None <-> forall kv, In kv gits -> ~ head_matches e kv.
Proof.
  split.
  - induction gits as [|[r g] t IH]; [intros _ ? []|].
    cbn [matching_repo]. intros H kv [<-|Hin].
    + intros Hk. apply head_matches_test in Hk as (h & Hh & Ht).
      rewrite Hh, Ht in H. discriminate.
    + apply IH; [|exact Hin].
      destruct (head_commit g) as [h'|]; [|exact H].
      destruct (negb (String.eqb h' "") && _); [discriminate|exact H].
  - intros H. destruct (matching_repo e gits) as [[repo h]|] eqn:E; [|reflexivity].
    apply matching_repo_first in E as (pre & g & post & -> & _ & _ & Hm).
    exfalso. apply (H (repo, g)); [|exact Hm].
    apply in_or_app. right. now left.
Qed.

Lemma actual_commits_heads (gits : list (string * GitState)) :
  actual_commits gits = repositories_with_head gits.
Proof.
  unfold actual_commits.
  induction gits as [|[r g] t IH]; [reflexivity|].
  cbn [flat_map repositories_with_head fst snd]. rewrite IH.
  destruct (head_commit g) as [h|]; [|reflexivity].
  destruct (String.eqb_spec h "") as [E|E]; destruct (decide (h = ""));
    try contradiction; reflexivity.
Qed.

Lemma repr_body_plain_char (c : ascii) (t : string) :
  plain_char c = true ->
  Py.repr_body Py.squote (String c t) = String c (Py.repr_body Py.squote t).
Proof.
  destruct c as [[] [] [] [] [] [] [] []]; intros H;
    try (exfalso; vm_compute in H; discriminate H); reflexivity.
Qed.

Lemma plain_char_not_quote (c : ascii) :
  plain_char c = true -> Py.squote <> c.
Proof. intros H <-. vm_compute in H. discriminate. Qed.

Lemma repr_body_plain (s : string) :
  all_chars plain_char s = true -> Py.repr_body Py.squote s = s.
Proof.
  induction s as [|c t IH]; [reflexivity|].
  cbn [all_chars]. intros H. apply andb_true_iff in H as [Hc Ht].
  now rewrite (repr_body_plain_char c t Hc), (IH Ht).
Qed.

Lemma contains_char_skip (x c : ascii) (t : string) :
  x <> c -> Py.contains_char x t = false ->
  Py.contains_char x (String c t) = false.
Proof.
  unfold Py.contains_char. simpl. intros Hne H.
  destruct (ascii_dec x c) as [E|E]; [contradiction|exact H].
Qed.

Lemma plain_no_quote (s : string) :
  all_chars plain_char s = true -> Py.contains_char Py.squote s = false.
Proof.
  induction s as [|c t IH]; [reflexivity|].
  cbn [all_chars]. intros H. apply andb_true_iff in H as [Hc Ht].
  apply contains_char_skip; [exact (plain_char_not_quote c Hc) | exact (IH Ht)].
Qed.

(** Python prints a plain text between single quotes, unchanged. *)
Lemma repr_plain (s : string) :
  all_chars plain_char s = true -> Py.repr s = quoted s.
Proof.
  intros H. unfold Py.repr, quoted.
  rewrite (plain_no_quote s H). cbn [andb].
  now rewrite (repr_body_plain s H).
Qed.

Lemma join_cons (sep x y : string) (t : list string) :
  Py.join sep (x :: y :: t) = x +:+ sep +:+ Py.join sep (y :: t).
Proof. reflexivity. Qed.

Lemma mapping_items_cons (kv kv' : string * string) (t : list (string * string)) :
  mapping_items (kv :: kv' :: t)
  = quoted (fst kv) +:+ ": " +:+ quoted (snd kv) +:+ ", " +:+ mapping_items (kv' :: t).
Proof. reflexivity. Qed.

Lemma str_dict_plain (d : list (string * string)) :
  Forall (fun kv => all_chars plain_char (fst kv) = true
                    /\ all_chars plain_char (snd kv) = true) d ->
  Py.str_dict d = mapping_text d.
Proof.
  intros H. unfold Py.str_dict, mapping_text. do 2 f_equal.
  induction H as [|kv t [Hk Hv] Ht IH]; [reflexivity|].
  destruct t as [|kv' t'].
  - cbn [map Py.join mapping_items].
    now rewrite (repr_plain _ Hk), (repr_plain _ Hv).
  - rewrite mapping_items_cons, <- IH. cbn [map].
    rewrite join_cons, (repr_plain _ Hk), (repr_plain _ Hv).
    now rewrite !str_app_assoc.
Qed.

End Revision.

Lemma deduplicate_singleton (c : Claim) : deduplicate [c] = [c].
Proof.
  unfold deduplicate. simpl.
  destruct (decide (dedup_key c ∈ (∅ : gset (string * string)))) as [H|H];
    [|reflexivity].
  now apply not_elem_of_empty in H.
Qed.

(** C5, as stated, fails: the actual value of an ILLUSION does not map
    every known repository.  In [one_headless_reality] the repository
    "lxr" is known but has no head (its path is missing); a claim for a
    token no head starts with is an ILLUSION whose actual value names
    "coach" only. *)
Lemma illusion_value_skips_headless_repository :
  ~ (forall (reality : RealitySnapshot) (claim : Claim),
        claim_type claim = "git_commit" ->
        ~ (exists kv, In kv (git reality)
                      /\ head_matches (expected_value claim) kv) ->
        exists c' a,
          verify_claim reality claim = Some c' /\ verdict c' = ILLUSION
          /\ actual_value c' = Some a
          /\ forall kv, In kv (git reality) -> is_substring (fst kv) a).
Proof.
  intros H.
  destruct (H one_headless_reality
              (mkClaim "1" "essence" "git_commit" "at 1a2b3c4" "1a2b3c4"
                       UNVERIFIABLE None SEVERITY_LOW None) eq_refl)
    as (c' & a & Hv & _ & Ha & Hall).
  - intros (kv & Hin & h & Hh & _ & Hp).
    apply prefix_spec in Hp.
    destruct Hin as [<-|[<-|[]]]; simpl in Hh; [|discriminate Hh].
    injection Hh as <-. vm_compute in Hp. discriminate Hp.
  - vm_compute in Hv. injection Hv as <-. simpl in Ha. injection Ha as <-.
    specialize (Hall _ (or_intror (or_introl eq_refl))).
    apply contains_spec in Hall. vm_compute in Hall. discriminate Hall.
Qed.

(** C5, amended.  A revision-reference claim is VERIFIED when some
    repository of the snapshot has a non-empty head that, compared
    without case, starts with the expected token: the actual value is
    then the head of the first such repository in the order of the
    snapshot, the note names that repository, and the severity is left
    as it was.  Otherwise it is an ILLUSION of severity MEDIUM whose
    actual value is the text of the mapping from each repository that
    has a non-empty head to that head, repositories without a head being
    left out; for names and heads of plain characters this text is
    [{'name': 'head', ...}].  In particular the entry
    "branch master at 1a2b3c4" yields one claim, and against a
    repository whose head is 1a2b3c4d5e (no earlier repository matching
    the token) its verdict is VERIFIED and its actual value
    1a2b3c4d5e. *)
Theorem revision_reference_verdicts :
  (forall (reality : RealitySnapshot) (claim : Claim),
      claim_type claim = "git_commit" ->
      exists c', verify_claim reality claim = Some c' /\
        ((exists kv, In kv (git reality)
                     /\ head_matches (expected_value claim) kv) ->
         verdict c' = VERIFIED /\ severity c' = severity claim /\
         exists pre repo g h post,
           git reality = pre ++ (repo, g) :: post
           /\ (forall kv, In kv pre -> ~ head_matches (expected_value claim) kv)
           /\ head_matches (expected_value claim) (repo, g)
           /\ head_commit g = Some h
           /\ actual_value c' = Some h
           /\ note c' = Some ("Matches " +:+ repo +:+ " HEAD"))
        /\ (~ (exists kv, In kv (git reality)
                          /\ head_matches (expected_value claim) kv) ->
            verdict c' = ILLUSION /\ severity c' = SEVERITY_MEDIUM
            /\ note c' = Some "Commit not found as HEAD in any known repo"
            /\ actual_value c'
               = Some (Py.str_dict (repositories_with_head (git reality)))
            /\ (Forall (fun kv => all_chars plain_char (fst kv) = true
                                  /\ all_chars plain_char (snd kv) = true)
                        (repositories_with_head (git reality)) ->
                actual_value c'
                = Some (mapping_text (repositories_with_head (git reality))))))
  /\ (forall (i p cat : string) (reality : RealitySnapshot)
             (pre post : list (string * GitState)) (repo : string) (g : GitState),
         git reality = pre ++ (repo, g) :: post ->
         (forall kv, In kv pre -> ~ head_matches "1a2b3c4" kv) ->
         head_commit g = Some "1a2b3c4d5e" ->
         exists c,
           detect_illusions [(i, p, cat, "branch master at 1a2b3c4")] reality
           = Some [c]
           /\ claim_type c = "git_commit" /\ expected_value c = "1a2b3c4"
           /\ verdict c = VERIFIED /\ actual_value c = Some "1a2b3c4d5e"
           /\ note c = Some ("Matches " +:+ repo +:+ " HEAD")).
Proof.
  split.
  - intros reality claim Ht. unfold verify_claim. rewrite Ht. simpl.
    destruct (matching_repo (expected_value claim) (git reality))
      as [[repo h]|] eqn:E.
    + eexists. split; [reflexivity|]. simpl. split.
      * intros _. split; [reflexivity|]. split; [reflexivity|].
        apply matching_repo_first in E as (pre & g & post & Hg & Hpre & Hh & Hm).
        exists pre, repo, g, h, post.
        split; [exact Hg|]. split; [exact Hpre|]. split; [exact Hm|].
        split; [exact Hh|]. split; reflexivity.
      * intros Hn. exfalso. apply Hn.
        apply matching_repo_first in E as (pre & g & post & Hg & _ & _ & Hm).
        exists (repo, g). split; [|exact Hm].
        rewrite Hg. apply in_or_app. right. now left.
    + eexists. split; [reflexivity|]. simpl. split.
      * intros (kv & Hin & Hkv). exfalso.
        exact (proj1 (matching_repo_unmatched _ _) E kv Hin Hkv).
      * intros _. rewrite actual_commits_heads.
        repeat (split; [reflexivity|]).
        intros Hplain. now rewrite (str_dict_plain _ Hplain).
  - intros i p cat reality pre post repo g Hg Hpre Hh.
    unfold detect_illusions.
    assert (Hx : extract_all [(i, p, cat, "branch master at 1a2b3c4")]
                 = [mkClaim i p "git_commit" "at 1a2b3c4" "1a2b3c4"
                            UNVERIFIABLE None SEVERITY_LOW None]).
    { vm_compute. reflexivity. }
    rewrite Hx, deduplicate_singleton.
    unfold verify_claims. cbn [mapM]. unfold verify_claim at 1.
    cbn [claim_type expected_value String.eqb Ascii.eqb Bool.eqb].
    rewrite Hg,
      (matching_repo_app _ _ _ (proj2 (matching_repo_unmatched _ _) Hpre)).
    cbn [matching_repo]. rewrite Hh.
    eexists. split; [reflexivity|]. simpl. auto.
Qed.

(** ** Extraction of service-health claims *)

Lemma up_is_not_down (sname service : string) :
  sname = "lxr-5" \/ sname = "coach" \/ sname = "lxr" \/ sname = "ui" ->
  sname +:+ ":UP" <> service +:+ ":DOWN".
Proof.
  intros [->|[->|[->| ->]]] H; simpl in H;
    repeat (destruct service as [|? service]; simpl in H;
            [discriminate | injection H as _ H]);
    destruct service; discriminate.
Qed.

(** C6.  The entry "coach: DOWN" is matched by [RE_SERVICE_DOWN], yet
    [extract_claims] returns no claim for it; and whatever the entry, no
    service-health claim [extract_claims] returns has an expected value
    of the form [service ":DOWN"]: they all end in ":UP". *)
Theorem down_claims_never_extracted :
  map (Re.group 0) (Re.finditer true RE_SERVICE_DOWN "coach: DOWN") = ["coach: DOWN"]
  /\ extract_claims "42" "current focus" "coach: DOWN" = []
  /\ (forall (i p content : string) (c : Claim),
         In c (extract_claims i p content) ->
         claim_type c = "service_health" ->
         (exists sname, expected_value c = sname +:+ ":UP")
         /\ forall service, expected_value c <> service +:+ ":DOWN").
Proof.
  split; [vm_compute; reflexivity|]. split; [vm_compute; reflexivity|].
  intros i p content c Hin Ht.
  apply extract_claims_shape in Hin as (_ & _ & _ & H).
  destruct H as [[E _]|[(_ & _ & sname & He & Hs)|[(E & _)|[E _]]]];
    try (rewrite Ht in E; discriminate).
  split; [now exists sname|].
  intros service. rewrite He. now apply up_is_not_down.
Qed.

(** ** The briefing cache *)

Lemma detect_illusions_some (entries0 : list Entry) (reality : RealitySnapshot) :
  exists claims, detect_illusions entries0 reality = Some claims.
Proof.
  destruct (verify_claims_extracted entries0 reality) as [verified Hv].
  exists (sorted verified). unfold detect_illusions. now rewrite Hv.
Qed.

Lemma cache_hit_empty (rq : Request) : cache_hit rq (mkCache None None) = None.
Proof. unfold cache_hit. simpl. now destruct (force_refresh rq). Qed.

Lemma cache_hit_expired (rq : Request) (cached : OrientationBriefing) (cached_at : Z) :
  (cached_at + CACHE_TTL_SECONDS * 1000000 <= now rq)%Z ->
  cache_hit rq (mkCache (Some cached) (Some cached_at)) = None.
Proof.
  intros H. unfold cache_hit, within_ttl. simpl.
  destruct (force_refresh rq); [reflexivity|].
  assert (E : (now rq - cached_at <? CACHE_TTL_SECONDS * 1000000)%Z = false)
    by (apply Z.ltb_ge; lia).
  now rewrite E.
Qed.

Lemma get_briefing_hit (rq : Request) (cached : OrientationBriefing) (cached_at : Z) :
  force_refresh rq = false ->
  (now rq - cached_at < CACHE_TTL_SECONDS * 1000000)%Z ->
  _get_briefing rq (mkCache (Some cached) (Some cached_at))
  = (Some cached, mkCache (Some cached) (Some cached_at)).
Proof.
  intros Hf Hage. unfold _get_briefing, cache_hit, within_ttl. simpl.
  rewrite Hf. now apply Z.ltb_lt in Hage as ->.
Qed.

Lemma get_briefing_refresh (rq : Request) (cache : Cache) (claims : list Claim) :
  cache_hit rq cache = None ->
  detect_illusions (entries rq) (scan rq) = Some claims ->
  _get_briefing rq cache
  = (Some (synthesize (scan rq) claims),
     mkCache (Some (synthesize (scan rq) claims)) (Some (now rq))).
Proof. intros Hc Hd. unfold _get_briefing. now rewrite Hc, Hd. Qed.

(** C8.  With a briefing in the cache: a request that does not force a
    refresh and arrives less than the TTL (60 seconds) after the slot was
    filled gets exactly the cached briefing, so with its original
    [generated_at], and leaves both globals as they were; a request that
    arrives once the TTL has elapsed gets a briefing newly built from its
    own scan, which replaces both globals, and whose [generated_at] is
    the start of that scan; that stamp is later than the cached one as
    soon as the clock readings follow the program order: the cached
    briefing was stamped before the request read the clock, and the scan
    starts no earlier than that reading. *)
Theorem briefing_cache_ttl (rq : Request) (cached : OrientationBriefing)
        (cached_at : Z) :
  CACHE_TTL_SECONDS = 60%Z
  /\ (force_refresh rq = false ->
      (now rq - cached_at < CACHE_TTL_SECONDS * 1000000)%Z ->
      _get_briefing rq (mkCache (Some cached) (Some cached_at))
      = (Some cached, mkCache (Some cached) (Some cached_at)))
  /\ ((CACHE_TTL_SECONDS * 1000000 <= now rq - cached_at)%Z ->
      exists claims,
        detect_illusions (entries rq) (scan rq) = Some claims
        /\ _get_briefing rq (mkCache (Some cached) (Some cached_at))
           = (Some (synthesize (scan rq) claims),
              mkCache (Some (synthesize (scan rq) claims)) (Some (now rq)))
        /\ generated_at (synthesize (scan rq) claims) = scanned_at (scan rq)
        /\ ((generated_at cached < now rq)%Z ->
            (now rq <= scanned_at (scan rq))%Z ->
            (generated_at cached < generated_at (synthesize (scan rq) claims))%Z)).
Proof.
  split; [reflexivity|]. split.
  - apply get_briefing_hit.
  - intros Hage.
    destruct (detect_illusions_some (entries rq) (scan rq)) as [claims Hd].
    exists claims. split; [exact Hd|]. split; [|split].
    + apply get_briefing_refresh; [|exact Hd].
      apply cache_hit_expired. lia.
    + reflexivity.
    + simpl. lia.
Qed.

(** ** The repository probe *)

Lemma scan_repo_missing (w : World) (n path : string) :
  path_exists w path = false ->
  scan_repo w n path
  = mkGitState n path false None None [] [] [] None
               (Some ("Path not found: " +:+ path)).
Proof. intros H. unfold scan_repo. simpl. now rewrite H. Qed.

Lemma scan_repo_no_head (w : World) (n path : string) :
  path_exists w path = true -> _git w Q_HEAD path = None ->
  scan_repo w n path
  = mkGitState n path false None None [] [] [] None
               (Some "Not a git repository or git not available").
Proof. intros H1 H2. unfold scan_repo. simpl. now rewrite H1, H2. Qed.

Lemma fold_status_line_fields (lines : list string) (s : GitState) :
  let s' := fold_left status_line lines s in
  available s' = available s /\ head_commit s' = head_commit s
  /\ branch s' = branch s /\ git_error s' = git_error s.
Proof.
  revert s. induction lines as [|l t IH]; intros s; simpl; [auto|].
  destruct (IH (status_line s l)) as (-> & -> & -> & ->).
  unfold status_line.
  repeat match goal with
         | |- context [if ?b then _ else _] => destruct b
         end; simpl; auto.
Qed.

Lemma scan_repo_head (w : World) (n path h : string) :
  path_exists w path = true -> _git w Q_HEAD path = Some h ->
  available (scan_repo w n path) = true
  /\ head_commit (scan_repo w n path) = Some h
  /\ branch (scan_repo w n path) = _git w Q_BRANCH path
  /\ git_error (scan_repo w n path) = None.
Proof.
  intros H1 H2. unfold scan_repo. simpl. rewrite H1, H2. simpl.
  match goal with
  | |- context [Py.truthy ?ab] => destruct (Py.truthy ab)
  end;
  destruct (_git w Q_STATUS path) as [raw|];
    try destruct (String.eqb raw "");
    try (pose proof (fold_status_line_fields (Py.splitlines raw)
           (set_branch (_git w Q_BRANCH path)
              (set_head_commit h
                 (mkGitState n path true None None [] [] [] None None))))
          as (Ha & Hh & Hb & He); simpl in Ha, Hh, Hb, He);
    simpl; auto.
Qed.

Lemma fold_status_line_ahead (lines : list string) (s : GitState) :
  ahead_behind (fold_left status_line lines s) = ahead_behind s.
Proof.
  revert s. induction lines as [|l t IH]; intros s; simpl; [reflexivity|].
  rewrite IH. unfold status_line.
  repeat match goal with
         | |- context [if ?b then _ else _] => destruct b
         end; reflexivity.
Qed.

Lemma scan_repo_ahead_behind (w : World) (n path ab : string) :
  ahead_behind (scan_repo w n path) = Some ab ->
  _git w (Q_AHEAD_BEHIND (_git w Q_BRANCH path)) path = Some ab /\ ab <> "".
Proof.
  unfold scan_repo. simpl.
  destruct (path_exists w path); simpl; [|discriminate].
  destruct (_git w Q_HEAD path) as [h|]; simpl; [|discriminate].
  assert (Hbr : forall st,
             branch (match _git w Q_STATUS path with
                     | Some status_raw =>
                         if String.eqb status_raw "" then st
                         else fold_left status_line (Py.splitlines status_raw) st
                     | None => st
                     end) = branch st
             /\ ahead_behind (match _git w Q_STATUS path with
                     | Some status_raw =>
                         if String.eqb status_raw "" then st
                         else fold_left status_line (Py.splitlines status_raw) st
                     | None => st
                     end) = ahead_behind st).
  { intros st. destruct (_git w Q_STATUS path) as [raw|]; [|auto].
    destruct (String.eqb raw ""); [auto|].
    pose proof (fold_status_line_fields (Py.splitlines raw) st) as (_ & _ & Hb & _).
    split; [exact Hb|apply fold_status_line_ahead]. }
  match goal with
  | |- context [Py.truthy ?x] => set (abq := x)
  end.
  match goal with
  | |- ahead_behind (if _ then _ else ?st) = _ -> _ => set (st0 := st)
  end.
  assert (Eq : abq = _git w (Q_AHEAD_BEHIND (_git w Q_BRANCH path)) path).
  { subst abq. f_equal. f_equal. subst st0.
    match goal with |- branch ?t = _ => destruct (Hbr (set_branch (_git w Q_BRANCH path)
      (set_head_commit h (mkGitState n path true None None [] [] [] None None))))
      as [Hb _] end.
    exact Hb. }
  rewrite <- Eq.
  destruct abq as [x|] eqn:Eab; simpl.
  - destruct (String.eqb_spec x "") as [->|Hne]; simpl.
    + subst st0.
      destruct (Hbr (set_branch (_git w Q_BRANCH path)
        (set_head_commit h (mkGitState n path true None None [] [] [] None None))))
        as [_ Ha].
      rewrite Ha. discriminate.
    + intros [= <-]. auto.
  - subst st0.
    destruct (Hbr (set_branch (_git w Q_BRANCH path)
      (set_head_commit h (mkGitState n path true None None [] [] [] None None))))
      as [_ Ha].
    rewrite Ha. discriminate.
Qed.

Lemma scan_repo_status_failed (w : World) (n path : string) :
  _git w Q_STATUS path = None ->
  untracked (scan_repo w n path) = []
  /\ modified (scan_repo w n path) = []
  /\ staged (scan_repo w n path) = [].
Proof.
  intros Hs. unfold scan_repo. simpl.
  destruct (path_exists w path); simpl; [|auto].
  destruct (_git w Q_HEAD path) as [h|]; simpl; [|auto].
  rewrite Hs. simpl.
  match goal with
  | |- context [Py.truthy ?ab] => destruct (Py.truthy ab)
  end; simpl; auto.
Qed.

Lemma scan_repo_branch (w : World) (n path : string) :
  _git w Q_BRANCH path = None -> branch (scan_repo w n path) = None.
Proof.
  intros Hb.
  destruct (path_exists w path) eqn:Hp;
    [|now rewrite (scan_repo_missing w n path Hp)].
  destruct (_git w Q_HEAD path) as [h|] eqn:Hh;
    [|now rewrite (scan_repo_no_head w n path Hp Hh)].
  destruct (scan_repo_head w n path h Hp Hh) as (_ & _ & -> & _). exact Hb.
Qed.

Lemma scan_repo_ahead_behind_failed (w : World) (n path : string) :
  _git w (Q_AHEAD_BEHIND (_git w Q_BRANCH path)) path = None ->
  ahead_behind (scan_repo w n path) = None.
Proof.
  intros Hq. destruct (ahead_behind (scan_repo w n path)) as [ab|] eqn:E;
    [|reflexivity].
  apply scan_repo_ahead_behind in E as [E _]. congruence.
Qed.

Lemma scan_repo_call_raises (m : Machine) (n path : string) :
  scan_repo_call m n path = None <-> exists_call m path = None.
Proof.
  unfold scan_repo_call. destruct (exists_call m path); simpl;
    split; congruence.
Qed.

(** The probe on a machine where only the head query works: the branch,
    status and ahead/behind queries fail, the state stays available. *)
Lemma scan_repo_head_only :
  scan_repo head_only_world "coach" "/srv/coach"
  = mkGitState "coach" "/srv/coach" true (Some "abc1234") None [] [] [] None None.
Proof. vm_compute. reflexivity. Qed.

(** C9, as stated, fails: a failing git query does not always give a
    degraded state.  On [head_only_world] the branch query fails and the
    probe still reports the repository available, with its head. *)
Lemma failed_query_not_always_degraded :
  ~ (forall (w : World) (n path : string),
        (path_exists w path = false
         \/ exists args, In args (issued_queries w path) /\ _git w args path = None) ->
        degraded (scan_repo w n path)).
Proof.
  intros H.
  destruct (H head_only_world "coach" "/srv/coach") as (Ha & _).
  - right. exists Q_BRANCH. split; [right; now left|]. vm_compute. reflexivity.
  - rewrite scan_repo_head_only in Ha. discriminate.
Qed.

(** C9, amended.  The result of the probe is unavailable exactly when
    the path is missing or the head query fails; an unavailable result
    has no head and a non-empty error.  When the path exists and the
    head query succeeds the result is available with that head and no
    error, whatever the branch, status and ahead/behind queries do; the
    branch field is the branch query's answer.  A failed query leaves its
    own field unset or empty: no branch when the branch query fails, no
    untracked, modified or staged file when the status query fails, no
    ahead/behind count when that query fails.  The same holds of every
    entry of the [git] map of a scan.  No answer of git, returned or
    raised, makes the probe raise: a call of the probe raises exactly
    when [path.exists()] itself raises, and otherwise returns the result
    described here. *)
Theorem scan_repo_degraded (w : World) (n path : string) :
  (available (scan_repo w n path) = false -> degraded (scan_repo w n path))
  /\ (available (scan_repo w n path) = false
      <-> path_exists w path = false \/ _git w Q_HEAD path = None)
  /\ (forall h, path_exists w path = true -> _git w Q_HEAD path = Some h ->
        available (scan_repo w n path) = true
        /\ head_commit (scan_repo w n path) = Some h
        /\ branch (scan_repo w n path) = _git w Q_BRANCH path
        /\ git_error (scan_repo w n path) = None)
  /\ (_git w Q_BRANCH path = None -> branch (scan_repo w n path) = None)
  /\ (_git w Q_STATUS path = None ->
      untracked (scan_repo w n path) = []
      /\ modified (scan_repo w n path) = []
      /\ staged (scan_repo w n path) = [])
  /\ (_git w (Q_AHEAD_BEHIND (_git w Q_BRANCH path)) path = None ->
      ahead_behind (scan_repo w n path) = None)
  /\ (forall repos kv, In kv (scan_repos w repos) ->
        available (snd kv) = false -> degraded (snd kv))
  /\ (forall m : Machine,
        (scan_repo_call m n path = None <-> exists_call m path = None)
        /\ (forall b, exists_call m path = Some b ->
              scan_repo_call m n path = Some (scan_repo (observed m b) n path))).
Proof.
  assert (Hdeg : forall n' path',
             available (scan_repo w n' path') = false ->
             degraded (scan_repo w n' path')).
  { intros n' path'.
    destruct (path_exists w path') eqn:Hp.
    - destruct (_git w Q_HEAD path') as [h|] eqn:Hh.
      + destruct (scan_repo_head w n' path' h Hp Hh) as (Ha & _).
        rewrite Ha. discriminate.
      + rewrite (scan_repo_no_head w n' path' Hp Hh). intros _.
        repeat split. eexists. split; [reflexivity|discriminate].
    - rewrite (scan_repo_missing w n' path' Hp). intros _.
      repeat split. eexists. split; [reflexivity|discriminate]. }
  split; [apply Hdeg|]. split; [|split].
  - destruct (path_exists w path) eqn:Hp.
    + destruct (_git w Q_HEAD path) as [h|] eqn:Hh.
      * destruct (scan_repo_head w n path h Hp Hh) as (Ha & _).
        rewrite Ha. split; [discriminate|]. intros [?|?]; discriminate.
      * rewrite (scan_repo_no_head w n path Hp Hh). simpl. tauto.
    + rewrite (scan_repo_missing w n path Hp). simpl. tauto.
  - intros h Hp Hh. exact (scan_repo_head w n path h Hp Hh).
  - split; [apply scan_repo_branch|].
    split; [apply scan_repo_status_failed|].
    split; [apply scan_repo_ahead_behind_failed|]. split.
    + intros repos kv Hin. unfold scan_repos in Hin.
      apply in_map_iff in Hin as ([n' path'] & <- & _). simpl. apply Hdeg.
    + intros m. split; [apply scan_repo_call_raises|].
      intros b Hb. unfold scan_repo_call. now rewrite Hb.
Qed.

(** ** Worked examples *)

(** Two rows, five distinct claims after deduplication ("at 1A2B3C4" of
    the second row repeats the token of the first), ordered ILLUSION
    HIGH, ILLUSION MEDIUM twice, UNVERIFIABLE, VERIFIED. *)
Example detect_illusions_sample :
  option_map (map (fun c => (claim_type c, expected_value c, verdict c, severity c)))
             (detect_illusions sample_entries sample_reality)
  = Some [("service_health", "coach:UP", "ILLUSION", "HIGH");
          ("git_commit", "1234567", "ILLUSION", "MEDIUM");
          ("file_exists", "notes.md", "ILLUSION", "MEDIUM");
          ("service_health", "lxr-5:UP", "UNVERIFIABLE", "LOW");
          ("git_commit", "1a2b3c4", "VERIFIED", "LOW")].
Proof. vm_compute. reflexivity. Qed.

Example extract_all_sample_length :
  length (extract_all sample_entries) = 6
  /\ length (deduplicate (extract_all sample_entries)) = 5.
Proof. vm_compute. split; reflexivity. Qed.

Example illusion_actual_value_sample :
  (fun c => actual_value c)
    <$> verify_claim sample_reality
          (mkClaim "2" "essence" "git_commit" "commit 1234567" "1234567"
                   UNVERIFIABLE None SEVERITY_LOW None)
  = Some (Some "{'coach': '1a2b3c4d5e', 'lxr': 'FFFFFFF'}").
Proof. vm_compute. reflexivity. Qed.

Example warning_level_sample :
  (warning_level <$> (synthesize sample_reality
                        <$> detect_illusions sample_entries sample_reality))
  = Some "RED"
  /\ _warning_level [] [] = "GREEN"
  /\ _warning_level [mkClaim "2" "essence" "file_exists" "saved notes.md" "notes.md"
                             ILLUSION None SEVERITY_MEDIUM None] [] = "AMBER"
  /\ _warning_level [mkClaim "3" "essence" "bug_active" "BUG 1" "bug:present"
                             UNVERIFIABLE None SEVERITY_HIGH None] [] = "GREEN".
Proof. vm_compute. repeat split; reflexivity. Qed.

(** Scenario B: an entry asserting "coach: UP" while the coach probe is
    unreachable gives one claim, an ILLUSION of severity HIGH. *)
Lemma scenario_coach_up_unreachable
      (i p cat : string) (reality : RealitySnapshot) (svc : ServiceState) :
  services reality !! "coach" = Some svc -> reachable svc = false ->
  exists c, detect_illusions [(i, p, cat, "coach: UP")] reality = Some [c]
            /\ verdict c = ILLUSION /\ severity c = SEVERITY_HIGH.
Proof.
  intros Hs Hr. unfold detect_illusions.
  assert (Hx : extract_all [(i, p, cat, "coach: UP")]
               = [mkClaim i p "service_health" "coach: UP" "coach:UP"
                          UNVERIFIABLE None SEVERITY_LOW None]).
  { vm_compute. reflexivity. }
  rewrite Hx, deduplicate_singleton.
  unfold verify_claims. cbn [mapM]. unfold verify_claim at 1.
  cbn [claim_type expected_value String.eqb Ascii.eqb Bool.eqb].
  change (Py.split_once ":" "coach:UP") with (Some ("coach", "UP")).
  cbn beta iota. rewrite Hs, Hr.
  eexists. split; [reflexivity|]. simpl. auto.
Qed.

(** Scenario D: on an empty cache, a request, a second one ten seconds
    later and a third one after the TTL, none forcing a refresh: the
    second gets the briefing of the first, the third a briefing of its
    own scan, and the cache ends with the third. *)
Lemma scenario_three_requests (r1 r2 r3 : Request) :
  force_refresh r2 = false ->
  now r2 = (now r1 + 10 * 1000000)%Z ->
  (now r1 + CACHE_TTL_SECONDS * 1000000 <= now r3)%Z ->
  exists b1 b3,
    serve [r1; r2; r3] (mkCache None None)
    = ([Some b1; Some b1; Some b3], mkCache (Some b3) (Some (now r3)))
    /\ generated_at b1 = scanned_at (scan r1)
    /\ generated_at b3 = scanned_at (scan r3).
Proof.
  intros Hf H2 H3.
  destruct (detect_illusions_some (entries r1) (scan r1)) as [c1 Hc1].
  destruct (detect_illusions_some (entries r3) (scan r3)) as [c3 Hc3].
  exists (synthesize (scan r1) c1), (synthesize (scan r3) c3).
  split; [|split; reflexivity].
  cbn [serve].
  rewrite (get_briefing_refresh r1 _ c1 (cache_hit_empty r1) Hc1).
  rewrite (get_briefing_hit r2 _ (now r1) Hf) by (unfold CACHE_TTL_SECONDS; lia).
  rewrite (get_briefing_refresh r3 _ c3 (cache_hit_expired r3 _ _ H3) Hc3).
  reflexivity.
Qed.

(** The probe on a machine with no such path. *)
Example scan_repo_missing_path :
  scan_repo empty_world "coach" "/srv/coach"
  = mkGitState "coach" "/srv/coach" false None None [] [] [] None
               (Some "Path not found: /srv/coach").
Proof. vm_compute. reflexivity. Qed.

(** Scenario A on the sample snapshot. *)
Example scenario_branch_master_sample :
  option_map (map (fun c => (expected_value c, verdict c, actual_value c, note c)))
             (detect_illusions [("9", "current focus", "git", "branch master at 1a2b3c4")]
                               sample_reality)
  = Some [("1a2b3c4", "VERIFIED", Some "1a2b3c4d5e", Some "Matches coach HEAD")].
Proof. vm_compute. reflexivity. Qed.

(** The token 1a2b3c4 is claimed by both sample rows; the claim kept is
    the one of the first row. *)
Example dedup_sample :
  map (fun c => (entry_id c, claim_type c, expected_value c))
      (deduplicate (extract_all sample_entries))
  = [("1", "git_commit", "1a2b3c4"); ("1", "service_health", "coach:UP");
     ("2", "git_commit", "1234567"); ("2", "service_health", "lxr-5:UP");
     ("2", "file_exists", "notes.md")].
Proof. vm_compute. reflexivity. Qed.

(** Scenario D with clock readings 0 s, 10 s and 70 s, the repository
    head moving between the scans: the second answer carries the stamp
    and the verdict of the first scan, the third those of its own. *)
Example scenario_three_requests_sample :
  let '(answers, cache) :=
    serve [sample_request 0 "1a2b3c4d5e";
           sample_request 10000000 "0000000aaa";
           sample_request 70000000 "0000000aaa"] (mkCache None None) in
  (map (option_map (fun b => (generated_at b, warning_level b))) answers,
   _cached_at cache)
  = ([Some (5, "GREEN"); Some (5, "GREEN"); Some (70000005, "AMBER")]%Z,
     Some 70000000%Z).
Proof. vm_compute. reflexivity. Qed.

(* ===================================================================== *)
(** * Further properties of the code                                     *)
(* ===================================================================== *)

(** ** Verification *)

Section Verification.

Lemma resolve_claimed (c : Claim) (v : string) (a s n : option string) :
  entry_id (resolve c v a s n) = entry_id c
  /\ entry_priority (resolve c v a s n) = entry_priority c
  /\ claim_type (resolve c v a s n) = claim_type c
  /\ claim_text (resolve c v a s n) = claim_text c
  /\ expected_value (resolve c v a s n) = expected_value c.
Proof. repeat split. Qed.

Lemma verify_claim_claimed (reality : RealitySnapshot) (c c' : Claim) :
  verify_claim reality c = Some c' ->
  entry_id c' = entry_id c /\ entry_priority c' = entry_priority c
  /\ claim_type c' = claim_type c /\ claim_text c' = claim_text c
  /\ expected_value c' = expected_value c.
Proof.
  unfold verify_claim.
  repeat match goal with
         | |- context [if ?b then _ else _] => destruct b
         | |- context [match ?x with _ => _ end] => destruct x
         end;
    intros [= <-]; try apply resolve_claimed; repeat split.
Qed.

Lemma verify_claims_cons (reality : RealitySnapshot) (c : Claim) (l : list Claim) :
  verify_claims (c :: l) reality
  = match verify_claim reality c, verify_claims l reality with
    | Some c', Some l' => Some (c' :: l')
    | _, _ => None
    end.
Proof.
  unfold verify_claims. cbn [mapM].
  destruct (verify_claim reality c); [|reflexivity].
  now destruct (mapM (verify_claim reality) l).
Qed.

Lemma verify_claims_Forall2 (reality : RealitySnapshot) (l l' : list Claim) :
  verify_claims l reality = Some l' ->
  Forall2 (fun c c' => verify_claim reality c = Some c') l l'.
Proof. unfold verify_claims. apply mapM_Some_1. Qed.

End Verification.

(** X1.  Verification never rewrites what was claimed: when
    [verify_claims] returns, its result has one claim per input claim, in
    the same order, each with the entry id, entry priority, claim type,
    claim text and expected value of its input. *)
Theorem verify_claims_keeps_claimed
        (reality : RealitySnapshot) (claims verified : list Claim) :
  verify_claims claims reality = Some verified ->
  length verified = length claims
  /\ Forall2 (fun c c' =>
                entry_id c' = entry_id c /\ entry_priority c' = entry_priority c
                /\ claim_type c' = claim_type c /\ claim_text c' = claim_text c
                /\ expected_value c' = expected_value c) claims verified.
Proof.
  intros H. apply verify_claims_Forall2 in H.
  split; [symmetry; eapply Forall2_length, H|].
  eapply Forall2_impl; [exact H|].
  intros c c' Hc. now apply verify_claim_claimed in Hc.
Qed.

Lemma verify_claims_keeps_claimed_witness :
  exists verified,
    verify_claims (deduplicate (extract_all sample_entries)) sample_reality
    = Some verified
    /\ length verified = 5.
Proof.
  destruct (verify_claims (deduplicate (extract_all sample_entries)) sample_reality)
    as [verified|] eqn:E; [|vm_compute in E; discriminate].
  exists verified. split; [reflexivity|].
  destruct (verify_claims_keeps_claimed sample_reality _ verified E) as [Hl _].
  rewrite Hl. vm_compute. reflexivity.
Defined.


Lemma verify_claim_decided (reality : RealitySnapshot) (c c' : Claim) :
  verify_claim reality c = Some c' ->
  claim_type c = "git_commit" \/ claim_type c = "service_health"
  \/ claim_type c = "bug_active" \/ claim_type c = "file_exists" ->
  (verdict c' = VERIFIED \/ verdict c' = UNVERIFIABLE
   \/ (verdict c' = ILLUSION
       /\ (severity c' = SEVERITY_HIGH \/ severity c' = SEVERITY_MEDIUM)
       /\ is_Some (actual_value c') /\ is_Some (note c'))).
Proof.
  unfold verify_claim. intros H Ht.
  destruct (String.eqb_spec (claim_type c) "git_commit") as [E1|E1].
  { destruct (matching_repo _ _) as [[? ?]|]; injection H as <-; simpl; eauto 10. }
  destruct (String.eqb_spec (claim_type c) "service_health") as [E2|E2].
  { destruct (Py.split_once _ _) as [[sname st]|]; [|discriminate].
    destruct (services reality !! sname) as [svc|];
      [|injection H as <-; simpl; auto].
    destruct (reachable svc); simpl in H;
      repeat match type of H with
             | (if ?b then _ else _) = _ => destruct b
             end; injection H as <-; simpl; eauto 10. }
  destruct (String.eqb_spec (claim_type c) "bug_active") as [E3|E3].
  { injection H as <-; simpl; auto. }
  destruct (String.eqb_spec (claim_type c) "file_exists") as [E4|E4].
  { destruct (List.find _ _) as [[? []]|]; injection H as <-; simpl; eauto 10. }
  exfalso. intuition.
Qed.

Lemma verify_claim_other_type (reality : RealitySnapshot) (c : Claim) :
  claim_type c <> "git_commit" -> claim_type c <> "service_health" ->
  claim_type c <> "bug_active" -> claim_type c <> "file_exists" ->
  verify_claim reality c = Some c.
Proof.
  intros H1 H2 H3 H4. unfold verify_claim.
  destruct (String.eqb_spec (claim_type c) "git_commit"); [contradiction|].
  destruct (String.eqb_spec (claim_type c) "service_health"); [contradiction|].
  destruct (String.eqb_spec (claim_type c) "bug_active"); [contradiction|].
  destruct (String.eqb_spec (claim_type c) "file_exists"); [contradiction|].
  reflexivity.
Qed.

Lemma extracted_shape_type (c : Claim) :
  extracted_shape c ->
  claim_type c = "git_commit" \/ claim_type c = "service_health"
  \/ claim_type c = "bug_active" \/ claim_type c = "file_exists".
Proof.
  intros (_ & _ & _ & [[? _]|[(? & _)|[(? & _)|[? _]]]]); auto.
Qed.

Lemma Forall2_In_r {A B} (P : A -> B -> Prop) (l : list A) (k : list B) (y : B) :
  Forall2 P l k -> In y k -> exists x, In x l /\ P x y.
Proof.
  induction 1 as [|x y' l k Hxy _ IH]; intros Hin; [destruct Hin|].
  destruct Hin as [<-|Hin].
  - exists x. split; [now left|exact Hxy].
  - destruct (IH Hin) as (x0 & ? & ?). exists x0. split; [now right|assumption].
Qed.

(** What [detect_illusions] returns, claim by claim: the verification of
    an extracted claim. *)
Lemma detect_illusions_elements (entries0 : list Entry) (reality : RealitySnapshot)
      (out : list Claim) (c' : Claim) :
  detect_illusions entries0 reality = Some out -> In c' out ->
  exists c, In c (extract_all entries0) /\ verify_claim reality c = Some c'.
Proof.
  unfold detect_illusions. intros H Hin.
  destruct (verify_claims (deduplicate (extract_all entries0)) reality)
    as [verified|] eqn:Hv; [|discriminate].
  injection H as <-.
  apply (Permutation_in _ (sorted_perm verified)) in Hin.
  apply verify_claims_Forall2 in Hv.
  destruct (Forall2_In_r _ _ _ _ Hv Hin) as (c & Hc & Hvc).
  exists c. split; [|exact Hvc].
  now apply dedup_go_fresh in Hc as [_ Hc].
Qed.

Lemma detect_illusions_decided (entries0 : list Entry) (reality : RealitySnapshot)
      (out : list Claim) (c : Claim) :
  detect_illusions entries0 reality = Some out -> In c out ->
  verdict c = VERIFIED \/ verdict c = UNVERIFIABLE
  \/ (verdict c = ILLUSION
      /\ (severity c = SEVERITY_HIGH \/ severity c = SEVERITY_MEDIUM)
      /\ is_Some (actual_value c) /\ is_Some (note c)).
Proof.
  intros H Hin.
  destruct (detect_illusions_elements _ _ _ _ H Hin) as (c0 & Hc0 & Hv).
  exact (verify_claim_decided reality c0 c Hv
           (extracted_shape_type _ (extract_all_shape _ _ Hc0))).
Qed.

(** X2.  Every claim [detect_illusions] returns is decided: its verdict
    is VERIFIED, UNVERIFIABLE or ILLUSION (never STALE, never anything
    else), and an ILLUSION always comes with severity HIGH or MEDIUM,
    an actual value and a note. *)
Theorem detect_illusions_verdicts
        (entries0 : list Entry) (reality : RealitySnapshot)
        (out : list Claim) (c : Claim) :
  detect_illusions entries0 reality = Some out -> In c out ->
  (verdict c = VERIFIED \/ verdict c = UNVERIFIABLE \/ verdict c = ILLUSION)
  /\ (verdict c = ILLUSION ->
      (severity c = SEVERITY_HIGH \/ severity c = SEVERITY_MEDIUM)
      /\ is_Some (actual_value c) /\ is_Some (note c)).
Proof.
  intros H Hin.
  pose proof (detect_illusions_decided _ _ _ _ H Hin) as Hd.
  split.
  - destruct Hd as [?|[?|(? & _)]]; auto.
  - intros Hi. destruct Hd as [E|[E|(_ & Hs)]];
      [rewrite Hi in E; discriminate | rewrite Hi in E; discriminate | exact Hs].
Qed.

Lemma detect_illusions_verdicts_witness :
  exists out,
    detect_illusions sample_entries sample_reality = Some out
    /\ forall c, In c out ->
         (verdict c = VERIFIED \/ verdict c = UNVERIFIABLE \/ verdict c = ILLUSION)
         /\ (verdict c = ILLUSION ->
             (severity c = SEVERITY_HIGH \/ severity c = SEVERITY_MEDIUM)
             /\ is_Some (actual_value c) /\ is_Some (note c)).
Proof.
  match eval vm_compute in (detect_illusions sample_entries sample_reality) with
  | Some ?out => exists out
  end.
  split; [vm_compute; reflexivity|].
  intros c Hin.
  eapply (detect_illusions_verdicts sample_entries sample_reality); [|exact Hin].
  vm_compute. reflexivity.
Defined.

Lemma warning_level_green_inv (claims : list Claim) (down : list string) :
  _warning_level claims down = "GREEN" ->
  down = [] /\ ~ some_illusion SEVERITY_HIGH claims
  /\ ~ some_illusion SEVERITY_MEDIUM claims.
Proof.
  unfold _warning_level.
  pose proof (illusion_filter_spec SEVERITY_HIGH claims) as Hh.
  pose proof (illusion_filter_spec SEVERITY_MEDIUM claims) as Hm.
  destruct down as [|d down]; simpl; [|discriminate].
  destruct (existsb (has_severity SEVERITY_HIGH) _); [discriminate|].
  destruct (existsb (has_severity SEVERITY_MEDIUM) _); [discriminate|].
  intros _. split; [reflexivity|]. split; intros Hx.
  - apply Hh in Hx. discriminate.
  - apply Hm in Hx. discriminate.
Qed.

Lemma filter_nil_intro {A} (p : A -> bool) (l : list A) :
  (forall x, In x l -> p x = false) -> List.filter p l = [].
Proof.
  induction l as [|x t IH]; intros H; simpl; [reflexivity|].
  rewrite (H x (or_introl eq_refl)). apply IH. intros y Hy. apply H. now right.
Qed.

(** X3.  A GREEN briefing means no illusion at all: when the warning
    level computed for the output of [detect_illusions] is GREEN, no
    service of the snapshot is unreachable, no returned claim is an
    ILLUSION and the illusion list of the briefing is empty; so any
    illusion the detector reports makes the level AMBER or RED. *)
Theorem green_means_no_illusion
        (entries0 : list Entry) (reality : RealitySnapshot) (out : list Claim) :
  detect_illusions entries0 reality = Some out ->
  warning_level (synthesize reality out) = "GREEN" ->
  ~ some_service_down reality
  /\ (forall c, In c out -> verdict c <> ILLUSION)
  /\ illusions (synthesize reality out) = []
  /\ illusion_count (synthesize reality out) = 0%nat.
Proof.
  intros H Hg. rewrite synthesize_level in Hg.
  apply warning_level_green_inv in Hg as (Hd & Hh & Hm).
  assert (Hno : forall c, In c out -> verdict c <> ILLUSION).
  { intros c Hin Hi.
    destruct (detect_illusions_decided _ _ _ _ H Hin) as [E|[E|(_ & [Hs|Hs] & _)]];
      try (rewrite Hi in E; discriminate).
    - apply Hh. now exists c.
    - apply Hm. now exists c. }
  assert (Hnil : List.filter (has_verdict ILLUSION) out = []).
  { apply filter_nil_intro. intros c Hin. unfold has_verdict.
    destruct (String.eqb_spec (verdict c) ILLUSION) as [E|E]; [|reflexivity].
    now apply Hno in Hin. }
  split; [|split; [exact Hno|]].
  - intros Hs. apply down_services_spec in Hs. now rewrite Hd in Hs.
  - simpl. now rewrite Hnil.
Qed.

Lemma green_means_no_illusion_witness :
  exists out,
    detect_illusions [("1", "essence", "log", "coach: UP")]
                     (mkRealitySnapshot 0 [] {[ "coach" := sample_service "coach" true ]} [])
    = Some out
    /\ forall c, In c out -> verdict c <> ILLUSION.
Proof.
  match eval vm_compute in
        (detect_illusions [("1", "essence", "log", "coach: UP")]
           (mkRealitySnapshot 0 [] {[ "coach" := sample_service "coach" true ]} []))
  with
  | Some ?out => exists out
  end.
  split; [vm_compute; reflexivity|].
  eapply (green_means_no_illusion
            [("1", "essence", "log", "coach: UP")]
            (mkRealitySnapshot 0 [] {[ "coach" := sample_service "coach" true ]} []));
    vm_compute; reflexivity.
Defined.


(** ** File references *)

Section Substrings.




End Substrings.



(** ** When verification raises *)

Lemma split_once_none (sep : ascii) (s : string) :
  Py.split_once sep s = None <-> Py.contains_char sep s = false.
Proof.
  unfold Py.contains_char. induction s as [|c t IH]; simpl; [tauto|].
  destruct (Ascii.eqb_spec c sep) as [->|Hne].
  - destruct (ascii_dec sep sep) as [_|Hn]; [|contradiction].
    destruct t; simpl; split; discriminate.
  - destruct (ascii_dec sep c) as [E|_]; [congruence|]. simpl.
    rewrite <- IH. destruct (Py.split_once sep t) as [[? ?]|]; split;
      try discriminate; reflexivity.
Qed.

Lemma verify_claim_none (reality : RealitySnapshot) (c : Claim) :
  verify_claim reality c = None
  <-> claim_type c = "service_health"
      /\ Py.contains_char ":" (expected_value c) = false.
Proof.
  rewrite <- split_once_none. unfold verify_claim.
  destruct (String.eqb_spec (claim_type c) "git_commit") as [E1|E1].
  { rewrite E1. destruct (matching_repo _ _) as [[? ?]|];
      split; try discriminate; intros [[=] _]. }
  destruct (String.eqb_spec (claim_type c) "service_health") as [E2|E2].
  { destruct (Py.split_once _ _) as [[sname st]|]; [|tauto].
    destruct (services reality !! sname) as [svc|];
      [|split; [discriminate|intros [_ [=]]]].
    repeat match goal with
           | |- context [if ?b then _ else _] => destruct b
           end; split; try discriminate; intros [_ [=]]. }
  destruct (String.eqb (claim_type c) "bug_active");
    [split; [discriminate|tauto]|].
  destruct (String.eqb (claim_type c) "file_exists").
  - destruct (List.find _ _) as [[? []]|]; split; try discriminate; tauto.
  - split; [discriminate|tauto].
Qed.

(** X5.  [verify_claims] raises exactly when some claim of its input is
    a service-health claim whose expected value has no colon; on every
    other input it returns. *)
Theorem verify_claims_raises_iff (claims : list Claim) (reality : RealitySnapshot) :
  verify_claims claims reality = None
  <-> exists c, In c claims /\ claim_type c = "service_health"
                /\ Py.contains_char ":" (expected_value c) = false.
Proof.
  induction claims as [|c l IH].
  - split; [discriminate|intros (? & [] & _)].
  - rewrite verify_claims_cons.
    destruct (verify_claim reality c) as [c'|] eqn:Hc.
    + destruct (verify_claims l reality) as [l'|] eqn:Hl.
      * split; [discriminate|]. intros (x & [<-|Hin] & Hx).
        -- apply (proj2 (verify_claim_none reality c)) in Hx. congruence.
        -- destruct IH as [_ IH].
           assert (Hn : @Some (list Claim) l' = None) by (apply IH; now exists x).
           discriminate Hn.
      * split; [|reflexivity]. intros _.
        destruct IH as [IH _]. destruct (IH eq_refl) as (x & Hin & Hx).
        exists x. split; [now right|exact Hx].
    + split; [|reflexivity]. intros _. exists c. split; [now left|].
      exact (proj1 (verify_claim_none reality c) Hc).
Qed.


(** ** Revision references when no repository answers *)

Lemma scan_repo_unavailable (w : World) (n path : string) :
  available (scan_repo w n path) = false ->
  head_commit (scan_repo w n path) = None.
Proof.
  destruct (path_exists w path) eqn:Hp.
  - destruct (_git w Q_HEAD path) as [h|] eqn:Hh.
    + destruct (scan_repo_head w n path h Hp Hh) as (Ha & _).
      rewrite Ha. discriminate.
    + now rewrite (scan_repo_no_head w n path Hp Hh).
  - now rewrite (scan_repo_missing w n path Hp).
Qed.

Lemma matching_repo_no_heads (e : string) (gits : list (string * GitState)) :
  (forall kv, In kv gits -> head_commit (snd kv) = None) ->
  matching_repo e gits = None /\ actual_commits gits = [].
Proof.
  induction gits as [|[r g] t IH]; intros H; [split; reflexivity|].
  destruct IH as [IH1 IH2]; [intros kv Hin; apply H; now right|].
  pose proof (H (r, g) (or_introl eq_refl)) as Hg. simpl in Hg.
  unfold actual_commits in *. simpl. rewrite Hg. simpl. auto.
Qed.

(** X6.  When no repository of the scan is available (every path is
    missing or fails the head query), each revision-reference claim is
    reported as an ILLUSION of severity MEDIUM whose actual value is the
    empty map "{}", never as UNVERIFIABLE. *)
Theorem revision_claims_without_repositories
        (w : World) (repos : list (string * string))
        (reality : RealitySnapshot) (claim : Claim) :
  git reality = scan_repos w repos ->
  (forall kv, In kv (scan_repos w repos) -> available (snd kv) = false) ->
  claim_type claim = "git_commit" ->
  exists c', verify_claim reality claim = Some c'
    /\ verdict c' = ILLUSION /\ severity c' = SEVERITY_MEDIUM
    /\ actual_value c' = Some "{}".
Proof.
  intros Hg Hun Ht.
  destruct (matching_repo_no_heads (expected_value claim) (git reality))
    as [Hm Ha].
  { rewrite Hg. intros kv Hin. pose proof (Hun kv Hin) as Hav.
    unfold scan_repos in Hin. apply in_map_iff in Hin as ([n path] & <- & _).
    simpl in *. now apply scan_repo_unavailable. }
  unfold verify_claim. rewrite Ht. simpl. rewrite Hm, Ha.
  eexists. split; [reflexivity|]. simpl. auto.
Qed.

Lemma revision_claims_without_repositories_witness :
  exists c',
    verify_claim
      (mkRealitySnapshot 0 (scan_repos empty_world [("coach", "/srv/coach")]) ∅ [])
      (mkClaim "1" "essence" "git_commit" "at 1a2b3c4" "1a2b3c4"
               UNVERIFIABLE None SEVERITY_LOW None) = Some c'
    /\ verdict c' = ILLUSION /\ severity c' = SEVERITY_MEDIUM
    /\ actual_value c' = Some "{}".
Proof.
  apply (revision_claims_without_repositories
           empty_world [("coach", "/srv/coach")]).
  - reflexivity.
  - intros kv [<-|[]]. reflexivity.
  - reflexivity.
Defined.

(** ** The briefing cache over several requests *)

(** X7.  A forced refresh always rebuilds: whatever the cache holds and
    however young it is, a request with [force_refresh] gets the briefing
    of its own scan, and the slot is replaced by that briefing stamped
    with the request's clock reading. *)
Theorem forced_refresh_rebuilds (rq : Request) (cache : Cache) :
  force_refresh rq = true ->
  exists claims,
    detect_illusions (entries rq) (scan rq) = Some claims
    /\ _get_briefing rq cache
       = (Some (synthesize (scan rq) claims),
          mkCache (Some (synthesize (scan rq) claims)) (Some (now rq))).
Proof.
  intros Hf.
  destruct (detect_illusions_some (entries rq) (scan rq)) as [claims Hd].
  exists claims. split; [exact Hd|].
  apply get_briefing_refresh; [|exact Hd].
  unfold cache_hit. now rewrite Hf.
Qed.

Lemma forced_refresh_rebuilds_witness :
  exists b,
    fst (_get_briefing
           (mkRequest true 10 (scan (sample_request 10 "0000000aaa"))
                      (entries (sample_request 10 "0000000aaa")))
           (snd (_get_briefing (sample_request 0 "1a2b3c4d5e") (mkCache None None))))
    = Some b
    /\ generated_at b = 15%Z.
Proof.
  destruct (forced_refresh_rebuilds
              (mkRequest true 10 (scan (sample_request 10 "0000000aaa"))
                         (entries (sample_request 10 "0000000aaa")))
              (snd (_get_briefing (sample_request 0 "1a2b3c4d5e") (mkCache None None)))
              eq_refl) as (claims & _ & H).
  rewrite H. eexists. split; reflexivity.
Defined.

(** X8.  Every request is answered, and what it returns is what the
    cache holds afterwards: after [_get_briefing] both globals are set
    and the cached briefing is the returned briefing, whatever the cache
    held before. *)
Theorem returned_briefing_is_cached (rq : Request) (cache : Cache) :
  exists b,
    fst (_get_briefing rq cache) = Some b
    /\ _cached_briefing (snd (_get_briefing rq cache)) = Some b
    /\ is_Some (_cached_at (snd (_get_briefing rq cache))).
Proof.
  unfold _get_briefing.
  destruct (cache_hit rq cache) as [cached|] eqn:Hh.
  - exists cached. unfold cache_hit in Hh.
    destruct (force_refresh rq); [discriminate|].
    destruct (_cached_briefing cache) as [b|] eqn:Hb; [|discriminate].
    destruct (_cached_at cache) as [t|] eqn:Ht; [|discriminate].
    destruct (within_ttl (now rq) t); [|discriminate].
    injection Hh as <-. simpl. rewrite Hb, Ht. eauto.
  - destruct (detect_illusions_some (entries rq) (scan rq)) as [claims Hd].
    rewrite Hd. simpl. eauto.
Qed.

Lemma serve_cons (rq : Request) (rqs : list Request) (cache : Cache) :
  serve (rq :: rqs) cache
  = (fst (_get_briefing rq cache) :: fst (serve rqs (snd (_get_briefing rq cache))),
     snd (serve rqs (snd (_get_briefing rq cache)))).
Proof.
  cbn [serve]. destruct (_get_briefing rq cache) as [b c]. simpl.
  now destruct (serve rqs c).
Qed.

(** X9.  Hits do not prolong the slot: any number of requests without
    forced refresh, each arriving less than the TTL after the slot was
    filled, all get the cached briefing, and the cache, its fill time
    included, is afterwards exactly what it was. *)
Theorem requests_within_ttl_share_briefing
        (rqs : list Request) (cached : OrientationBriefing) (cached_at : Z) :
  (forall rq, In rq rqs ->
     force_refresh rq = false
     /\ (now rq - cached_at < CACHE_TTL_SECONDS * 1000000)%Z) ->
  serve rqs (mkCache (Some cached) (Some cached_at))
  = (map (fun _ => Some cached) rqs, mkCache (Some cached) (Some cached_at)).
Proof.
  induction rqs as [|rq rqs IH]; intros H; [reflexivity|].
  destruct (H rq (or_introl eq_refl)) as [Hf Ht].
  rewrite serve_cons, (get_briefing_hit rq cached cached_at Hf Ht). simpl.
  rewrite IH; [reflexivity|]. intros r Hr. apply H. now right.
Qed.

Lemma requests_within_ttl_share_briefing_witness :
  serve [sample_request 10000000 "0000000aaa"; sample_request 59999999 "0000000bbb"]
        (snd (_get_briefing (sample_request 0 "1a2b3c4d5e") (mkCache None None)))
  = ([fst (_get_briefing (sample_request 0 "1a2b3c4d5e") (mkCache None None));
      fst (_get_briefing (sample_request 0 "1a2b3c4d5e") (mkCache None None))],
     snd (_get_briefing (sample_request 0 "1a2b3c4d5e") (mkCache None None))).
Proof.
  destruct (detect_illusions_some (entries (sample_request 0 "1a2b3c4d5e"))
                                  (scan (sample_request 0 "1a2b3c4d5e")))
    as [claims Hd].
  rewrite (get_briefing_refresh _ _ claims (cache_hit_empty _) Hd).
  cbn [fst snd].
  apply (requests_within_ttl_share_briefing
           [sample_request 10000000 "0000000aaa"; sample_request 59999999 "0000000bbb"]).
  intros rq [<-|[<-|[]]]; split; try reflexivity; vm_compute; reflexivity.
Defined.

Lemma get_briefing_built_by (P : Request -> Prop) (rq : Request) (cache : Cache) :
  cache = mkCache None None \/ built_by P cache ->
  built_by (fun r => P r \/ r = rq) (snd (_get_briefing rq cache)).
Proof.
  intros Hc. unfold _get_briefing.
  destruct (cache_hit rq cache) as [cached|] eqn:Hh.
  - destruct Hc as [->|(r & Hr & Hb)].
    + rewrite cache_hit_empty in Hh. discriminate.
    + exists r. split; [now left|exact Hb].
  - destruct (detect_illusions_some (entries rq) (scan rq)) as [claims Hd].
    rewrite Hd. exists rq. split; [now right|]. simpl. eauto.
Qed.

Lemma serve_built_by (rqs : list Request) (P : Request -> Prop) (cache : Cache) :
  cache = mkCache None None \/ built_by P cache ->
  rqs <> [] ->
  built_by (fun r => P r \/ In r rqs) (snd (serve rqs cache)).
Proof.
  revert P cache. induction rqs as [|rq rqs IH]; intros P cache Hc Hne;
    [contradiction|].
  rewrite serve_cons. cbn [snd].
  pose proof (get_briefing_built_by P rq cache Hc) as Hb.
  destruct rqs as [|rq' rqs'].
  - cbn [serve snd]. destruct Hb as (r & Hr & Hb). exists r.
    split; [|exact Hb]. destruct Hr as [?| ->]; [now left|right; now left].
  - destruct (IH (fun r => P r \/ r = rq) _ (or_intror Hb)) as (r & Hr & Hb');
      [discriminate|].
    exists r. split; [|exact Hb'].
    destruct Hr as [[?| ->]|?]; [now left|right; now left|right; now right].
Qed.

(** X10.  The slot is only ever replaced as a whole: after any non-empty
    run of requests on an empty cache, the cached briefing and the cached
    time come from one and the same request of the run: the time is that
    request's clock reading and the briefing is the one built from that
    request's scan. *)
Theorem cache_slot_comes_from_one_request (rqs : list Request) :
  rqs <> [] ->
  exists rq claims,
    In rq rqs
    /\ detect_illusions (entries rq) (scan rq) = Some claims
    /\ snd (serve rqs (mkCache None None))
       = mkCache (Some (synthesize (scan rq) claims)) (Some (now rq)).
Proof.
  intros Hne.
  destruct (serve_built_by rqs (fun _ => False) (mkCache None None)
                           (or_introl eq_refl) Hne)
    as (rq & Hin & claims & Hd & Hc).
  destruct Hin as [Hin|Hin]; [destruct Hin|].
  exists rq, claims. auto.
Qed.

Lemma cache_slot_comes_from_one_request_witness :
  exists rq claims,
    In rq [sample_request 0 "1a2b3c4d5e"; sample_request 10000000 "0000000aaa"]
    /\ detect_illusions (entries rq) (scan rq) = Some claims
    /\ snd (serve [sample_request 0 "1a2b3c4d5e"; sample_request 10000000 "0000000aaa"]
                  (mkCache None None))
       = mkCache (Some (synthesize (scan rq) claims)) (Some (now rq)).
Proof.
  apply (cache_slot_comes_from_one_request
           [sample_request 0 "1a2b3c4d5e"; sample_request 10000000 "0000000aaa"]).
  discriminate.
Defined.


(** ** The repository probe, further *)

Section Probe.

Lemma status_line_counts (state : GitState) (line : string) :
  (length (untracked (status_line state line))
   + length (modified (status_line state line))
   + length (staged (status_line state line))
   <= S (length (untracked state) + length (modified state) + length (staged state)))%nat.
Proof.
  unfold status_line.
  repeat match goal with
         | |- context [if ?b then _ else _] => destruct b
         end; simpl; rewrite ?length_app; simpl; lia.
Qed.

Lemma fold_status_line_counts (lines : list string) (state : GitState) :
  (length (untracked (fold_left status_line lines state))
   + length (modified (fold_left status_line lines state))
   + length (staged (fold_left status_line lines state))
   <= length lines
      + (length (untracked state) + length (modified state) + length (staged state)))%nat.
Proof.
  revert state. induction lines as [|l t IH]; intros state; simpl; [lia|].
  pose proof (IH (status_line state l)).
  pose proof (status_line_counts state l). lia.
Qed.

End Probe.

(** X11.  On a repository it reports unavailable, the probe has looked
    at nothing but the existence of the path and the head query: on any
    other machine that agrees on these two, whatever its other git
    queries answer, the result is the same, with no branch, no file
    lists and no ahead/behind count. *)
Theorem unavailable_probe_reads_little (w w' : World) (n path : string) :
  available (scan_repo w n path) = false ->
  path_exists w' path = path_exists w path ->
  subprocess_run w' ("git" :: Q_HEAD) path = subprocess_run w ("git" :: Q_HEAD) path ->
  scan_repo w' n path = scan_repo w n path
  /\ branch (scan_repo w n path) = None
  /\ untracked (scan_repo w n path) = []
  /\ modified (scan_repo w n path) = []
  /\ staged (scan_repo w n path) = []
  /\ ahead_behind (scan_repo w n path) = None.
Proof.
  intros Ha Hp Hq.
  assert (Hg : _git w' Q_HEAD path = _git w Q_HEAD path)
    by (unfold _git; now rewrite Hq).
  destruct (path_exists w path) eqn:Hpw.
  - destruct (_git w Q_HEAD path) as [h|] eqn:Hh.
    + destruct (scan_repo_head w n path h Hpw Hh) as (Hav & _).
      rewrite Hav in Ha. discriminate.
    + rewrite (scan_repo_no_head w n path Hpw Hh),
              (scan_repo_no_head w' n path Hp Hg). repeat split.
  - rewrite (scan_repo_missing w n path Hpw), (scan_repo_missing w' n path Hp).
    repeat split.
Qed.

Lemma unavailable_probe_reads_little_witness :
  scan_repo (mkWorld (fun _ => false)
                     (fun cmd _ => if decide (cmd = "git" :: Q_HEAD) then None
                                   else Some (0%Z, "master")))
            "coach" "/srv/coach"
  = scan_repo empty_world "coach" "/srv/coach".
Proof.
  apply (unavailable_probe_reads_little empty_world
           (mkWorld (fun _ => false)
                     (fun cmd _ => if decide (cmd = "git" :: Q_HEAD) then None
                                   else Some (0%Z, "master")))
           "coach" "/srv/coach"); reflexivity.
Defined.

(** X12.  Each line of the porcelain status adds at most one file to the
    result, to one list only: the untracked, modified and staged lists
    together are never longer than the status output has lines, and all
    three are empty when the status query fails or prints nothing. *)
Theorem status_lists_bounded (w : World) (n path : string) :
  (length (untracked (scan_repo w n path))
   + length (modified (scan_repo w n path))
   + length (staged (scan_repo w n path))
   <= match _git w Q_STATUS path with
      | Some status_raw => length (Py.splitlines status_raw)
      | None => 0
      end)%nat.
Proof.
  unfold scan_repo. simpl.
  destruct (path_exists w path); simpl; [|lia].
  destruct (_git w Q_HEAD path) as [h|]; simpl; [|lia].
  match goal with
  | |- context [Py.truthy ?ab] => destruct (Py.truthy ab)
  end;
    destruct (_git w Q_STATUS path) as [raw|]; simpl; try lia;
    destruct (String.eqb_spec raw "") as [->|Hne]; simpl; try lia;
    match goal with
    | |- context [fold_left status_line ?ls ?st] =>
        pose proof (fold_status_line_counts ls st) as Hc; simpl in Hc; lia
    end.
Qed.


(** ** Stripped git output *)

Section Strings.

Lemma rev_app_spec (s1 s2 : string) :
  String.rev_app s1 s2 = String.rev s1 +:+ s2.
Proof.
  unfold String.rev. revert s2. induction s1 as [|a s1 IH]; intros s2;
    [reflexivity|].
  cbn [String.rev_app].
  rewrite (IH (String a s2)), (IH (String a "")), str_app_assoc.
  reflexivity.
Qed.

Lemma rev_cons (a : ascii) (s : string) :
  String.rev (String a s) = String.rev s +:+ String a "".
Proof. unfold String.rev at 1. cbn [String.rev_app]. apply rev_app_spec. Qed.

Lemma rev_app_distr (s1 s2 : string) :
  String.rev (s1 +:+ s2) = String.rev s2 +:+ String.rev s1.
Proof.
  induction s1 as [|a s1 IH].
  - rewrite str_app_nil_l. change (String.rev "") with "".
    now rewrite str_app_nil_r.
  - now rewrite str_app_cons, !rev_cons, IH, str_app_assoc.
Qed.

Lemma rev_involutive (s : string) : String.rev (String.rev s) = s.
Proof.
  induction s as [|a s IH]; [reflexivity|].
  rewrite rev_cons, rev_app_distr, IH. reflexivity.
Qed.

Lemma lstrip_head (s : string) (c : ascii) (t : string) :
  Py.lstrip s = String c t -> Py.isspace c = false.
Proof.
  induction s as [|a s IH]; simpl; [discriminate|].
  destruct (Py.isspace a) eqn:E; [exact IH|].
  intros [= <- _]. exact E.
Qed.

Lemma lstrip_fixed (s : string) :
  (forall c t, s = String c t -> Py.isspace c = false) -> Py.lstrip s = s.
Proof.
  destruct s as [|c t]; [reflexivity|]. intros H. simpl.
  now rewrite (H c t eq_refl).
Qed.

(** Stripping from the left stops at the latest at a final character
    that is not whitespace. *)
Lemma lstrip_keeps_last (x : string) (c : ascii) :
  Py.isspace c = false ->
  exists q, Py.lstrip (x +:+ String c "") = q +:+ String c "".
Proof.
  intros Hc. induction x as [|a x IH].
  - rewrite str_app_nil_l. cbn [Py.lstrip]. rewrite Hc. now exists "".
  - rewrite str_app_cons. cbn [Py.lstrip].
    destruct (Py.isspace a); [exact IH|]. now exists (String a x).
Qed.

Lemma strip_trimmed (s : string) : trimmed (Py.strip s).
Proof.
  unfold Py.strip, Py.rstrip.
  set (a := Py.lstrip s). set (b := Py.lstrip (String.rev a)).
  assert (Hb : forall c t, b = String c t -> Py.isspace c = false)
    by (intros c t E; exact (lstrip_head _ _ _ E)).
  assert (Hlast : forall p c, String.rev b = p +:+ String c "" ->
                              Py.isspace c = false).
  { intros p c E. apply (f_equal String.rev) in E.
    rewrite rev_involutive, rev_app_distr in E.
    change (String.rev (String c "")) with (String c "") in E.
    rewrite str_app_cons, str_app_nil_l in E.
    exact (Hb _ _ E). }
  assert (Hfirst : forall c t, String.rev b = String c t -> Py.isspace c = false).
  { intros c t E. destruct a as [|c0 t0] eqn:Ea.
    - subst b. discriminate E.
    - assert (Hc0 : Py.isspace c0 = false) by exact (lstrip_head s c0 t0 Ea).
      subst b. rewrite rev_cons in E.
      destruct (lstrip_keeps_last (String.rev t0) c0 Hc0) as [q Hq].
      rewrite Hq, rev_app_distr in E.
      change (String.rev (String c0 "")) with (String c0 "") in E.
      rewrite str_app_cons in E. injection E as <- _.
      exact Hc0. }
  split; [|split; assumption].
  unfold Py.strip, Py.rstrip.
  rewrite (lstrip_fixed _ Hfirst), rev_involutive.
  now rewrite (lstrip_fixed _ Hb).
Qed.

Lemma git_trimmed (w : World) (args : list string) (cwd out : string) :
  _git w args cwd = Some out -> trimmed out.
Proof.
  unfold _git. destruct (subprocess_run w ("git" :: args) cwd) as [[rc so]|];
    [|discriminate].
  destruct (rc =? 0)%Z; [|discriminate]. intros [= <-]. apply strip_trimmed.
Qed.

End Strings.

(** X13.  Whatever git prints, the texts the probe keeps from it carry no
    surrounding whitespace (so no trailing newline): the head revision,
    the branch and the ahead/behind count of a probe result are each
    unchanged by stripping, and start and end with a character that is
    not whitespace; the ahead/behind count, when set, is not empty. *)
Theorem probe_texts_are_trimmed (w : World) (n path : string) :
  (forall h, head_commit (scan_repo w n path) = Some h -> trimmed h)
  /\ (forall b, branch (scan_repo w n path) = Some b -> trimmed b)
  /\ (forall ab, ahead_behind (scan_repo w n path) = Some ab ->
                 trimmed ab /\ ab <> "").
Proof.
  split; [|split].
  - intros h Hh. destruct (path_exists w path) eqn:Hp.
    + destruct (_git w Q_HEAD path) as [h'|] eqn:Hq.
      * destruct (scan_repo_head w n path h' Hp Hq) as (_ & Hh' & _).
        rewrite Hh' in Hh. injection Hh as <-. exact (git_trimmed _ _ _ _ Hq).
      * rewrite (scan_repo_no_head w n path Hp Hq) in Hh. discriminate.
    + rewrite (scan_repo_missing w n path Hp) in Hh. discriminate.
  - intros b Hb. destruct (path_exists w path) eqn:Hp.
    + destruct (_git w Q_HEAD path) as [h'|] eqn:Hq.
      * destruct (scan_repo_head w n path h' Hp Hq) as (_ & _ & Hb' & _).
        rewrite Hb' in Hb. exact (git_trimmed _ _ _ _ Hb).
      * rewrite (scan_repo_no_head w n path Hp Hq) in Hb. discriminate.
    + rewrite (scan_repo_missing w n path Hp) in Hb. discriminate.
  - intros ab Hab. apply scan_repo_ahead_behind in Hab as [Hg Hne].
    split; [exact (git_trimmed _ _ _ _ Hg)|exact Hne].
Qed.


(** ** The first line of the porcelain status *)

Section FirstLine.







End FirstLine.




(** ** The ranking and the partition of the briefing *)

Section Ranking.

Lemma claim_le_trans : Relations_1.Transitive claim_le.
Proof. intros a b c. unfold claim_le. apply key_le_trans. Qed.

Lemma sorted_strongly (l : list Claim) : StronglySorted claim_le (sorted l).
Proof. apply Sorted_StronglySorted; [exact claim_le_trans|apply sorted_Sorted]. Qed.

Lemma verdict_order_cases (c : Claim) :
  verdict c = VERIFIED \/ verdict c = UNVERIFIABLE \/ verdict c = ILLUSION ->
  (verdict c = ILLUSION /\ verdict_order (verdict c) = 0%nat)
  \/ (verdict c = UNVERIFIABLE /\ verdict_order (verdict c) = 1%nat)
  \/ (verdict c = VERIFIED /\ verdict_order (verdict c) = 2%nat).
Proof. intros [E|[E|E]]; rewrite E; auto. Qed.

Lemma filter_verdict_none (v : string) (l : list Claim) :
  (forall c, In c l -> verdict c <> v) -> List.filter (has_verdict v) l = [].
Proof.
  intros H. apply filter_nil_intro. intros c Hin. unfold has_verdict.
  destruct (String.eqb_spec (verdict c) v) as [E|_]; [|reflexivity].
  now apply H in Hin.
Qed.

(** A list ranked by verdict is its illusions, then its unverifiable
    claims, then its verified ones. *)
Lemma ranked_is_partition (l : list Claim) :
  StronglySorted claim_le l ->
  (forall c, In c l ->
     verdict c = VERIFIED \/ verdict c = UNVERIFIABLE \/ verdict c = ILLUSION) ->
  l = List.filter (has_verdict ILLUSION) l
      ++ List.filter (has_verdict UNVERIFIABLE) l
      ++ List.filter (has_verdict VERIFIED) l.
Proof.
  induction 1 as [|x t Ht IH Hx]; intros Hv; [reflexivity|].
  assert (Hvt : forall c, In c t ->
            verdict c = VERIFIED \/ verdict c = UNVERIFIABLE \/ verdict c = ILLUSION)
    by (intros c Hc; apply Hv; now right).
  specialize (IH Hvt).
  assert (Hge : forall c, In c t ->
            (verdict_order (verdict x) <= verdict_order (verdict c))%nat).
  { intros c Hc. rewrite List.Forall_forall in Hx. specialize (Hx c Hc).
    unfold claim_le, key_le, sort_key in Hx. simpl in Hx. lia. }
  assert (Hno : forall v n, verdict_order v = n ->
            (n < verdict_order (verdict x))%nat ->
            List.filter (has_verdict v) t = []).
  { intros v n Hvn Hlt. apply filter_verdict_none. intros c Hc Hi.
    specialize (Hge c Hc). rewrite Hi, Hvn in Hge. lia. }
  cbn [List.filter].
  set (a := List.filter (has_verdict ILLUSION) t) in *.
  set (b := List.filter (has_verdict UNVERIFIABLE) t) in *.
  set (d := List.filter (has_verdict VERIFIED) t) in *.
  destruct (verdict_order_cases x (Hv x (or_introl eq_refl)))
    as [[E O]|[[E O]|[E O]]].
  - replace (has_verdict ILLUSION x) with true
      by (unfold has_verdict; now rewrite E).
    replace (has_verdict UNVERIFIABLE x) with false
      by (unfold has_verdict; now rewrite E).
    replace (has_verdict VERIFIED x) with false
      by (unfold has_verdict; now rewrite E).
    simpl. now f_equal.
  - replace (has_verdict ILLUSION x) with false
      by (unfold has_verdict; now rewrite E).
    replace (has_verdict UNVERIFIABLE x) with true
      by (unfold has_verdict; now rewrite E).
    replace (has_verdict VERIFIED x) with false
      by (unfold has_verdict; now rewrite E).
    assert (Ha : a = []) by (apply (Hno ILLUSION 0%nat eq_refl); lia).
    rewrite Ha in *. simpl in *. now f_equal.
  - replace (has_verdict ILLUSION x) with false
      by (unfold has_verdict; now rewrite E).
    replace (has_verdict UNVERIFIABLE x) with false
      by (unfold has_verdict; now rewrite E).
    replace (has_verdict VERIFIED x) with true
      by (unfold has_verdict; now rewrite E).
    assert (Ha : a = []) by (apply (Hno ILLUSION 0%nat eq_refl); lia).
    assert (Hb : b = []) by (apply (Hno UNVERIFIABLE 1%nat eq_refl); lia).
    rewrite Ha, Hb in *. simpl in *. now f_equal.
Qed.

Lemma detect_illusions_ranked (entries0 : list Entry) (reality : RealitySnapshot)
      (out : list Claim) :
  detect_illusions entries0 reality = Some out ->
  exists verified,
    verify_claims (deduplicate (extract_all entries0)) reality = Some verified
    /\ out = sorted verified.
Proof.
  unfold detect_illusions.
  destruct (verify_claims (deduplicate (extract_all entries0)) reality)
    as [verified|]; [|discriminate].
  intros [= <-]. now exists verified.
Qed.

End Ranking.

(** X15.  The briefing splits the ranking without losing or reordering
    anything: the list [detect_illusions] returns is exactly the
    illusions of the briefing, followed by its unverifiable claims,
    followed by its verified claims, and the illusion count is the
    length of the first part. *)
Theorem briefing_partitions_the_ranking
        (entries0 : list Entry) (reality : RealitySnapshot) (out : list Claim) :
  detect_illusions entries0 reality = Some out ->
  out = illusions (synthesize reality out)
        ++ unverifiable (synthesize reality out)
        ++ verified_claims (synthesize reality out)
  /\ illusion_count (synthesize reality out)
     = length (illusions (synthesize reality out)).
Proof.
  intros H. split; [|reflexivity]. simpl.
  apply ranked_is_partition.
  - destruct (detect_illusions_ranked _ _ _ H) as (verified & _ & ->).
    apply sorted_strongly.
  - intros c Hc.
    destruct (detect_illusions_decided _ _ _ _ H Hc) as [?|[?|(? & _)]]; auto.
Qed.

Lemma briefing_partitions_the_ranking_witness :
  exists out,
    detect_illusions sample_entries sample_reality = Some out
    /\ out = illusions (synthesize sample_reality out)
             ++ unverifiable (synthesize sample_reality out)
             ++ verified_claims (synthesize sample_reality out)
    /\ length (illusions (synthesize sample_reality out)) = 3.
Proof.
  match eval vm_compute in (detect_illusions sample_entries sample_reality) with
  | Some ?out => exists out
  end.
  split; [vm_compute; reflexivity|].
  split; [|vm_compute; reflexivity].
  eapply (briefing_partitions_the_ranking sample_entries sample_reality).
  vm_compute. reflexivity.
Defined.

(** X16.  The ranking is stable: among the claims [detect_illusions]
    returns, those with the same (verdict, severity) rank stand in the
    order in which verification received them, which is the extraction
    order of the entries. *)
Theorem ranking_is_stable
        (entries0 : list Entry) (reality : RealitySnapshot) (out : list Claim) :
  detect_illusions entries0 reality = Some out ->
  exists verified,
    verify_claims (deduplicate (extract_all entries0)) reality = Some verified
    /\ forall k : nat * nat,
         List.filter (fun c => bool_decide (sort_key c = k)) out
         = List.filter (fun c => bool_decide (sort_key c = k)) verified.
Proof.
  intros H. destruct (detect_illusions_ranked _ _ _ H) as (verified & Hv & ->).
  exists verified. split; [exact Hv|]. intros k. apply sorted_stable.
Qed.

Lemma ranking_is_stable_witness :
  exists out verified,
    detect_illusions sample_entries sample_reality = Some out
    /\ verify_claims (deduplicate (extract_all sample_entries)) sample_reality
       = Some verified
    /\ map expected_value
           (List.filter (fun c => bool_decide (sort_key c = (0, 1)%nat)) out)
       = ["1234567"; "notes.md"].
Proof.
  match eval vm_compute in (detect_illusions sample_entries sample_reality) with
  | Some ?out => exists out
  end.
  destruct (ranking_is_stable sample_entries sample_reality _
              ltac:(vm_compute; reflexivity)) as (verified & Hv & Hk).
  exists verified. split; [vm_compute; reflexivity|]. split; [exact Hv|].
  vm_compute. reflexivity.
Defined.

(** ** Deduplication, again *)

Lemma dedup_go_fixed (seen : gset (string * string)) (l : list Claim) :
  List.NoDup (map dedup_key l) ->
  (forall c, In c l -> dedup_key c ∉ seen) ->
  dedup_go seen l = l.
Proof.
  revert seen. induction l as [|x t IH]; intros seen Hnd Hs; [reflexivity|].
  cbn [dedup_go]. inversion Hnd as [|? ? Hx Ht]; subst.
  destruct (decide (dedup_key x ∈ seen)) as [Hin|_].
  - exfalso. apply (Hs x); [now left|exact Hin].
  - f_equal. apply IH; [exact Ht|].
    intros c Hc. apply not_in_add. split.
    + intros E. apply Hx. rewrite <- E. now apply in_map.
    + apply Hs. now right.
Qed.

(** X17.  Deduplication is idempotent, and leaves a list alone when no
    two of its claims share a (claim type, first 40 characters of the
    expected value) pair. *)
Theorem deduplicate_idempotent (l : list Claim) :
  deduplicate (deduplicate l) = deduplicate l
  /\ (List.NoDup (map dedup_key l) -> deduplicate l = l).
Proof.
  assert (H : forall k, List.NoDup (map dedup_key k) -> deduplicate k = k).
  { intros k Hk. apply dedup_go_fixed; [exact Hk|].
    intros c _. apply not_elem_of_empty. }
  split; [|apply H]. apply H. apply dedup_go_nodup.
Qed.

(** X18.  With no entry in the knowledge base nothing is claimed:
    [detect_illusions] returns the empty list, the three claim lists of
    the briefing are empty, and the warning level only reflects the
    services: RED when one is unreachable, GREEN otherwise. *)
Theorem empty_knowledge_base (reality : RealitySnapshot) :
  detect_illusions [] reality = Some []
  /\ illusions (synthesize reality []) = []
  /\ unverifiable (synthesize reality []) = []
  /\ verified_claims (synthesize reality []) = []
  /\ (some_service_down reality -> warning_level (synthesize reality []) = "RED")
  /\ (~ some_service_down reality -> warning_level (synthesize reality []) = "GREEN").
Proof.
  repeat split.
  - intros Hd. apply synthesize_red. now left.
  - intros Hn. rewrite synthesize_level.
    destruct (warning_level_cases [] (down_services reality)) as (_ & _ & Hg).
    apply Hg.
    + intros [Hx|(c & [] & _)]. apply Hn, down_services_spec, nonempty_true, Hx.
    + intros (c & [] & _).
Qed.


(** ** What the patterns capture *)

Section Matcher.

Lemma str_length_app (a b : string) :
  String.length (a +:+ b) = (String.length a + String.length b)%nat.
Proof.
  induction a as [|x a IH]; [reflexivity|].
  rewrite str_app_cons. simpl. now rewrite IH.
Qed.

Lemma slice_from_app (n : nat) (subj w r : string) :
  Py.slice_from n subj = w +:+ r ->
  Py.slice_from (n + String.length w) subj = r.
Proof.
  revert n subj. induction w as [|c w IH]; intros n subj H.
  - now rewrite Nat.add_0_r.
  - rewrite str_app_cons in H. simpl.
    replace (n + S (String.length w))%nat with (S n + String.length w)%nat by lia.
    apply IH. clear IH. revert subj H.
    induction n as [|n IHn]; intros subj H; destruct subj as [|a s]; simpl in *;
      try discriminate.
    + now injection H as _ ->.
    + now apply IHn.
Qed.

Lemma substring_slice (n : nat) (subj w r : string) :
  Py.slice_from n subj = w +:+ r ->
  String.substring n (String.length w) subj = w.
Proof.
  revert subj. induction n as [|n IH]; intros subj H.
  - simpl in H. subst subj. clear. induction w as [|c w IH].
    + rewrite str_app_nil_l. now destruct r.
    + rewrite str_app_cons. cbn [String.length String.substring]. now rewrite IH.
  - destruct subj as [|a s]; simpl in *.
    + destruct w; [reflexivity|discriminate].
    + now apply IH.
Qed.

Lemma slice_to_app (a b : string) : Py.slice_to (String.length a) (a +:+ b) = a.
Proof. unfold Py.slice_to. now apply (substring_slice 0 (a +:+ b) a b). Qed.

(** A literal consumes a text of its length that equals it up to case. *)
Lemma lit_consumes (icase : bool) (s : string) (st st' : Re.mstate) :
  Re.lit icase s st = Some st' ->
  exists w, Re.m_rest st = w +:+ Re.m_rest st'
            /\ Re.m_pos st' = (Re.m_pos st + String.length w)%nat
            /\ Re.m_groups st' = Re.m_groups st
            /\ String.length w = String.length s
            /\ (icase = true -> Py.lower w = Py.lower s).
Proof.
  revert st. induction s as [|x s IH]; intros st; simpl.
  - intros [= <-]. exists "". rewrite Nat.add_0_r. auto.
  - destruct (Re.m_rest st) as [|c t] eqn:Hr; [discriminate|].
    destruct (Re.chr_match icase x c) eqn:Hm; [|discriminate].
    intros H. destruct (IH _ H) as (w & Hw & Hp & Hg & Hl & Hc). simpl in *.
    exists (String c w). rewrite str_app_cons, Hw. simpl.
    repeat split; try (rewrite Hp; lia); try assumption; try (now rewrite Hl).
    intros Hi. rewrite (Hc Hi). f_equal.
    unfold Re.chr_match in Hm. rewrite Hi in Hm.
    apply Ascii.eqb_eq in Hm. now symmetry.
Qed.

(** The [k]-th state of a run of a set has consumed [k] characters of
    the set. *)
Lemma spans_lookup (icase : bool) (cs : Re.cset) (hi : option nat)
      (prev : option ascii) (pos : nat) (rest : string)
      (gs : list (nat * (nat * nat))) (k : nat) (st' : Re.mstate) :
  Re.spans icase cs hi prev pos rest gs !! k = Some st' ->
  exists w, rest = w +:+ Re.m_rest st'
            /\ String.length w = k
            /\ Re.m_pos st' = (pos + k)%nat
            /\ Re.m_groups st' = gs
            /\ all_chars (Re.cset_match icase cs) w = true
            /\ (forall h, hi = Some h -> (k <= h)%nat).
Proof.
  revert hi prev pos k. induction rest as [|c t IH]; intros hi prev pos k H.
  - destruct k as [|k].
    + simpl in H. destruct hi as [[|h]|]; injection H as <-; exists "";
        rewrite Nat.add_0_r; repeat split; intros; lia.
    + exfalso. simpl in H. destruct hi as [[|h]|]; discriminate H.
  - destruct k as [|k].
    + assert (E : st' = Re.MState prev pos (String c t) gs).
      { destruct hi as [[|h]|]; simpl in H; congruence. }
      subst st'. exists "". rewrite Nat.add_0_r.
      repeat split; intros; lia.
    + assert (E : Re.cset_match icase cs c = true
                  /\ Re.spans icase cs (Nat.pred <$> hi) (Some c) (S pos) t gs !! k
                     = Some st'
                  /\ hi <> Some 0%nat).
      { destruct hi as [[|h]|]; simpl in H; try discriminate;
          destruct (Re.cset_match icase cs c); try discriminate; auto. }
      destruct E as (Hc & Hk & Hhi).
      destruct (IH _ _ _ _ Hk) as (w & Hw & Hl & Hp & Hg & Ha & Hb).
      exists (String c w). rewrite str_app_cons, <- Hw. simpl.
      rewrite Hc, Ha, Hl. repeat split; try assumption; try lia.
      intros h Hh. subst hi. destruct h as [|h]; [congruence|].
      specialize (Hb h eq_refl). lia.
Qed.

(** A repetition consumes between [lo] and [hi] characters of its set. *)
Lemma rep_consumes (icase greedy : bool) (lo : nat) (hi : option nat)
      (cs : Re.cset) (st st' : Re.mstate) :
  In st' (Re.run icase (Re.Rep greedy lo hi cs) st) ->
  exists w, Re.m_rest st = w +:+ Re.m_rest st'
            /\ Re.m_pos st' = (Re.m_pos st + String.length w)%nat
            /\ Re.m_groups st' = Re.m_groups st
            /\ all_chars (Re.cset_match icase cs) w = true
            /\ (lo <= String.length w)%nat
            /\ (forall h, hi = Some h -> (String.length w <= h)%nat).
Proof.
  cbn [Re.run]. intros H.
  assert (Hin : In st' (skipn lo (Re.spans icase cs hi (Re.m_prev st) (Re.m_pos st)
                                           (Re.m_rest st) (Re.m_groups st)))).
  { destruct greedy; [now apply in_rev in H|exact H]. }
  apply list_elem_of_In, list_elem_of_lookup in Hin as [k Hk].
  rewrite lookup_drop in Hk.
  destruct (spans_lookup _ _ _ _ _ _ _ _ _ Hk) as (w & Hw & Hl & Hp & Hg & Ha & Hb).
  exists w. rewrite Hl.
  split; [exact Hw|]. split; [lia|]. split; [exact Hg|]. split; [exact Ha|].
  split; [lia|]. intros h Hh. specialize (Hb h Hh). lia.
Qed.

(** Whatever the pattern, a match consumes a prefix of the text at its
    position. *)
Lemma run_consumes (icase : bool) (r : Re.regex) (st st' : Re.mstate) :
  In st' (Re.run icase r st) ->
  exists w, Re.m_rest st = w +:+ Re.m_rest st'
            /\ Re.m_pos st' = (Re.m_pos st + String.length w)%nat.
Proof.
  revert st st'. induction r as [s|r1 IH1 r2 IH2|r1 IH1 r2 IH2|g lo hi cs|n r IH|];
    intros st st' H.
  - cbn [Re.run] in H. destruct (Re.lit icase s st) as [x|] eqn:E; [|destruct H].
    destruct H as [<-|[]].
    destruct (lit_consumes _ _ _ _ E) as (w & ? & ? & _). now exists w.
  - cbn [Re.run] in H. apply in_flat_map in H as (m & Hm & H).
    destruct (IH1 _ _ Hm) as (w1 & Hw1 & Hp1).
    destruct (IH2 _ _ H) as (w2 & Hw2 & Hp2).
    exists (w1 +:+ w2). rewrite str_app_assoc, <- Hw2, <- Hw1, str_length_app.
    split; [reflexivity|lia].
  - cbn [Re.run] in H. apply in_app_or in H as [H|H]; eauto.
  - destruct (rep_consumes _ _ _ _ _ _ _ H) as (w & ? & ? & _). now exists w.
  - cbn [Re.run] in H. apply in_map_iff in H as (x & <- & Hx). simpl.
    now apply IH.
  - cbn [Re.run] in H. destruct (Re.at_boundary st); [|destruct H].
    destruct H as [<-|[]]. exists "". now rewrite Nat.add_0_r.
Qed.

Lemma at_pos_after (subj : string) (st st' : Re.mstate) (w : string) :
  at_pos subj st -> Re.m_rest st = w +:+ Re.m_rest st' ->
  Re.m_pos st' = (Re.m_pos st + String.length w)%nat ->
  at_pos subj st'.
Proof.
  unfold at_pos. intros Hs Hw Hp. rewrite Hp. symmetry.
  apply (slice_from_app _ _ w). now rewrite <- Hs.
Qed.

Lemma run_at_pos (icase : bool) (r : Re.regex) (subj : string) (st st' : Re.mstate) :
  at_pos subj st -> In st' (Re.run icase r st) -> at_pos subj st'.
Proof.
  intros Hs H. destruct (run_consumes _ _ _ _ H) as (w & Hw & Hp).
  exact (at_pos_after _ _ _ _ Hs Hw Hp).
Qed.

(** Every match [finditer] reports is the first result of the matcher at
    some position of the subject. *)
Lemma finditer_go_matches (icase : bool) (r : Re.regex) (subj : string)
      (rest : string) (skip : nat) (prev : option ascii) (pos : nat) (m : Re.rmatch) :
  rest = Py.slice_from pos subj ->
  In m (Re.finditer_go icase r subj skip prev pos rest) ->
  exists st st' tl,
    at_pos subj st /\ Re.m_groups st = []
    /\ Re.run icase r st = st' :: tl
    /\ Re.subject m = subj /\ Re.m_start m = Re.m_pos st
    /\ Re.m_end m = Re.m_pos st' /\ Re.spans_of m = Re.m_groups st'.
Proof.
  revert skip prev pos. induction rest as [|c t IH]; intros skip prev pos Hr H.
  - destruct skip as [|k]; cbn [Re.finditer_go] in H; [|destruct H].
    destruct (Re.run icase r (Re.MState prev pos "" [])) as [|st' tl] eqn:E;
      [destruct H|].
    destruct H as [<-|[]].
    exists (Re.MState prev pos "" []), st', tl. repeat split; assumption.
  - assert (Hnext : Py.slice_from (S pos) subj = t).
    { replace (S pos) with (pos + String.length (String c ""))%nat by (simpl; lia).
      apply (slice_from_app _ _ (String c "")). now rewrite <- Hr. }
    destruct skip as [|k]; cbn [Re.finditer_go] in H.
    + destruct (Re.run icase r (Re.MState prev pos (String c t) [])) as [|st' tl] eqn:E.
      * apply (IH _ _ _ (eq_sym Hnext) H).
      * destruct H as [<-|H].
        -- exists (Re.MState prev pos (String c t) []), st', tl.
           repeat split; assumption.
        -- apply (IH _ _ _ (eq_sym Hnext) H).
    + apply (IH _ _ _ (eq_sym Hnext) H).
Qed.

Lemma finditer_matches (icase : bool) (r : Re.regex) (s : string) (m : Re.rmatch) :
  In m (Re.finditer icase r s) ->
  exists st st' tl,
    at_pos s st /\ Re.m_groups st = []
    /\ Re.run icase r st = st' :: tl
    /\ Re.subject m = s /\ Re.m_start m = Re.m_pos st
    /\ Re.m_end m = Re.m_pos st' /\ Re.spans_of m = Re.m_groups st'.
Proof. apply finditer_go_matches. reflexivity. Qed.

End Matcher.


Section Captures.

Lemma run_cat (icase : bool) (r1 r2 : Re.regex) (st st' : Re.mstate) :
  In st' (Re.run icase (Re.Cat r1 r2) st) ->
  exists mid, In mid (Re.run icase r1 st) /\ In st' (Re.run icase r2 mid).
Proof. cbn [Re.run]. intros H. now apply in_flat_map in H. Qed.

Lemma run_group (icase : bool) (n : nat) (r : Re.regex) (st st' : Re.mstate) :
  In st' (Re.run icase (Re.Group n r) st) ->
  exists x, In x (Re.run icase r st)
            /\ Re.m_pos st' = Re.m_pos x /\ Re.m_rest st' = Re.m_rest x
            /\ Re.m_groups st' = (n, (Re.m_pos st, Re.m_pos x)) :: Re.m_groups x.
Proof.
  cbn [Re.run]. intros H. apply in_map_iff in H as (x & <- & Hx).
  exists x. auto.
Qed.

Lemma run_boundary (icase : bool) (st st' : Re.mstate) :
  In st' (Re.run icase Re.Boundary st) -> st' = st.
Proof.
  cbn [Re.run]. destruct (Re.at_boundary st); [|intros []].
  now intros [<-|[]].
Qed.

Lemma group_first (n a b : nat) (gs : list (nat * (nat * nat))) (m : Re.rmatch) :
  Re.spans_of m = (S n, (a, b)) :: gs ->
  Re.group (S n) m = String.substring a (b - a) (Re.subject m).
Proof.
  intros H. unfold Re.group. rewrite H. cbn [Re.assoc]. now rewrite Nat.eqb_refl.
Qed.

Lemma lower_length (s : string) : String.length (Py.lower s) = String.length s.
Proof. induction s as [|c s IH]; simpl; [reflexivity|now rewrite IH]. Qed.

Lemma hex_set_lower (c : ascii) :
  Re.cset_match true hex_set c = true -> hex_lower (Py.lower_char c) = true.
Proof.
  destruct c as [[] [] [] [] [] [] [] []]; vm_compute; intros H;
    first [reflexivity | discriminate H].
Qed.

Lemma all_hex_lower (w : string) :
  all_chars (Re.cset_match true hex_set) w = true ->
  all_chars hex_lower (Py.lower w) = true.
Proof.
  induction w as [|c w IH]; [reflexivity|]. cbn [all_chars Py.lower].
  intros H. apply andb_true_iff in H as [Hc Hw].
  now rewrite (hex_set_lower c Hc), (IH Hw).
Qed.

(** What group 1 of a match of [RE_COMMIT_CONTEXT] holds. *)
Lemma commit_context_group (content : string) (m : Re.rmatch) :
  In m (Re.finditer true RE_COMMIT_CONTEXT content) ->
  (7 <= String.length (Re.group 1 m) <= 10)%nat
  /\ all_chars (Re.cset_match true hex_set) (Re.group 1 m) = true.
Proof.
  intros H.
  destruct (finditer_matches _ _ _ _ H)
    as (st & st' & tl & Hst & _ & Hrun & Hsubj & _ & _ & Hsp).
  assert (Hin : In st' (Re.run true RE_COMMIT_CONTEXT st))
    by (rewrite Hrun; now left).
  unfold RE_COMMIT_CONTEXT in Hin. cbn [Re.cats] in Hin.
  apply run_cat in Hin as (s1 & H1 & Hin).
  apply run_cat in Hin as (s2 & H2 & Hin).
  apply run_cat in Hin as (s3 & H3 & Hin).
  apply run_boundary in Hin. subst st'.
  apply run_group in H3 as (x & Hx & _ & _ & Hg).
  destruct (rep_consumes _ _ _ _ _ _ _ Hx) as (w & Hw & Hp & _ & Ha & Hlo & Hhi).
  pose proof (run_at_pos _ _ _ _ _ (run_at_pos _ _ _ _ _ Hst H1) H2) as Hs2.
  rewrite (group_first 0 _ _ _ m (eq_trans Hsp Hg)), Hsubj, Hp.
  replace (Re.m_pos s2 + String.length w - Re.m_pos s2)%nat
    with (String.length w) by lia.
  unfold at_pos in Hs2. rewrite Hw in Hs2.
  rewrite (substring_slice _ _ _ _ (eq_sym Hs2)).
  split; [|exact Ha]. split; [exact Hlo|]. now apply Hhi.
Qed.

End Captures.

(** X19.  The expected value of every revision-reference claim that
    [extract_claims] returns is a token of 7 to 10 characters, each a
    digit or a lower-case letter a to f. *)
Theorem revision_tokens_are_short_hex (i p content : string) (c : Claim) :
  In c (extract_claims i p content) ->
  claim_type c = "git_commit" ->
  (7 <= String.length (expected_value c) <= 10)%nat
  /\ all_chars hex_lower (expected_value c) = true.
Proof.
  unfold extract_claims. intros H Ht.
  repeat (apply in_app_or in H as [H|H]).
  - apply in_map_iff in H as (m & <- & Hm). simpl.
    destruct (commit_context_group content m Hm) as [Hl Ha].
    rewrite lower_length. split; [exact Hl|now apply all_hex_lower].
  - apply in_flat_map in H as (m & _ & H).
    destruct (_service_name_normalize (Re.group 1 m)); [|destruct H].
    destruct (String.eqb _ ""); [destruct H|].
    destruct H as [<-|[]]. discriminate Ht.
  - destruct (Re.search true RE_BUG_MARKER content); [|destruct H].
    apply in_map_iff in H as (m & <- & _). discriminate Ht.
  - apply in_flat_map in H as (m & _ & H).
    destruct (4 <? String.length (Re.group 1 m))%nat; [|destruct H].
    destruct H as [<-|[]]. discriminate Ht.
Qed.

Lemma revision_tokens_are_short_hex_witness :
  (7 <= String.length "deadbeef12" <= 10)%nat
  /\ all_chars hex_lower "deadbeef12" = true.
Proof.
  apply (revision_tokens_are_short_hex "1" "essence" "Commit  DEADBEEF12 pushed"
           (mkClaim "1" "essence" "git_commit" "Commit  DEADBEEF12" "deadbeef12"
                    UNVERIFIABLE None SEVERITY_LOW None)).
  - vm_compute. left. reflexivity.
  - reflexivity.
Defined.


Section FileNames.

Lemma lower_app (a b : string) : Py.lower (a +:+ b) = Py.lower a +:+ Py.lower b.
Proof.
  induction a as [|c a IH]; [reflexivity|].
  rewrite str_app_cons. cbn [Py.lower]. now rewrite IH, str_app_cons.
Qed.

Lemma lower_idem (s : string) : Py.lower (Py.lower s) = Py.lower s.
Proof.
  induction s as [|c s IH]; [reflexivity|]. cbn [Py.lower]. rewrite IH. f_equal.
  destruct c as [[] [] [] [] [] [] [] []]; vm_compute; reflexivity.
Qed.

(** An alternation of literals matches as one of them. *)
Lemma run_alts_lits (icase : bool) (e : string) (l : list string)
      (st st' : Re.mstate) :
  In st' (Re.run icase (Re.alts (map Re.Lit (e :: l))) st) ->
  exists x, In x (e :: l) /\ Re.lit icase x st = Some st'.
Proof.
  revert e. induction l as [|e' l IH]; intros e H.
  - cbn [map Re.alts Re.run] in H.
    destruct (Re.lit icase e st) as [y|] eqn:E; [|destruct H].
    destruct H as [<-|[]]. exists e. split; [now left|exact E].
  - change (Re.alts (map Re.Lit (e :: e' :: l)))
      with (Re.Alt (Re.Lit e) (Re.alts (map Re.Lit (e' :: l)))) in H.
    cbn [Re.run] in H. apply in_app_or in H as [H|H].
    + destruct (Re.lit icase e st) as [y|] eqn:E; [|destruct H].
      destruct H as [<-|[]]. exists e. split; [now left|exact E].
    + destruct (IH e' H) as (x & Hx & Hl). exists x. split; [now right|exact Hl].
Qed.

Lemma path_class_char (c : ascii) :
  Re.cset_match true
    (Re.OneOf [Re.Range "A" "Z"; Re.Range "a" "z"; Re.Range "0" "9"; Re.One "_";
               Re.One "-"; Re.One "/"; Re.One Py.backslash]) c = true ->
  path_char c = true.
Proof.
  destruct c as [[] [] [] [] [] [] [] []]; vm_compute; intros H;
    first [reflexivity | discriminate H].
Qed.

Lemma all_chars_impl (p q : ascii -> bool) (s : string) :
  (forall c, p c = true -> q c = true) ->
  all_chars p s = true -> all_chars q s = true.
Proof.
  intros Hpq. induction s as [|c s IH]; [reflexivity|]. cbn [all_chars].
  intros H. apply andb_true_iff in H as [Hc Hs].
  now rewrite (Hpq c Hc), (IH Hs).
Qed.

(** What group 1 of a match of [RE_FILE_CLAIM] holds. *)
Lemma file_claim_group (content : string) (m : Re.rmatch) :
  In m (Re.finditer true RE_FILE_CLAIM content) ->
  exists stem ext,
    Re.group 1 m = stem +:+ ext
    /\ stem <> "" /\ all_chars path_char stem = true
    /\ In (Py.lower ext) [".py"; ".md"; ".js"; ".ts"; ".jsx"; ".sql"; ".toml"; ".json"].
Proof.
  intros H.
  destruct (finditer_matches _ _ _ _ H)
    as (st & st' & tl & Hst & _ & Hrun & Hsubj & _ & _ & Hsp).
  assert (Hin : In st' (Re.run true RE_FILE_CLAIM st))
    by (rewrite Hrun; now left).
  unfold RE_FILE_CLAIM in Hin. cbn [Re.cats] in Hin.
  apply run_cat in Hin as (s1 & H1 & Hin).
  apply run_cat in Hin as (s2 & H2 & Hin).
  apply run_cat in Hin as (s3 & H3 & Hin).
  apply run_boundary in Hin. subst st'.
  apply run_group in H3 as (x & Hx & _ & _ & Hg).
  apply run_cat in Hx as (y1 & Hy1 & Hx).
  apply run_cat in Hx as (y2 & Hy2 & Hx).
  destruct (rep_consumes _ _ _ _ _ _ _ Hy1) as (w1 & Hw1 & Hp1 & _ & Ha1 & Hlo & _).
  cbn [Re.run] in Hy2.
  destruct (Re.lit true "." y1) as [y2'|] eqn:Edot; [|destruct Hy2].
  destruct Hy2 as [<-|[]].
  destruct (lit_consumes _ _ _ _ Edot) as (w2 & Hw2 & Hp2 & _ & _ & Hl2).
  change (Re.alts [Re.Lit "py"; Re.Lit "md"; Re.Lit "js"; Re.Lit "ts";
                   Re.Lit "jsx"; Re.Lit "sql"; Re.Lit "toml"; Re.Lit "json"])
    with (Re.alts (map Re.Lit ["py"; "md"; "js"; "ts"; "jsx"; "sql"; "toml"; "json"]))
    in Hx.
  apply run_alts_lits in Hx as (e & He & Elit).
  destruct (lit_consumes _ _ _ _ Elit) as (w3 & Hw3 & Hp3 & _ & _ & Hl3).
  pose proof (run_at_pos _ _ _ _ _ (run_at_pos _ _ _ _ _ Hst H1) H2) as Hs2.
  exists w1, (w2 +:+ w3).
  split; [|split; [|split]].
  - rewrite (group_first 0 _ _ _ m (eq_trans Hsp Hg)), Hsubj.
    replace (Re.m_pos x - Re.m_pos s2)%nat
      with (String.length (w1 +:+ w2 +:+ w3))
      by (rewrite !str_length_app; lia).
    apply (substring_slice _ _ _ (Re.m_rest x)).
    unfold at_pos in Hs2. rewrite <- Hs2, Hw1, Hw2, Hw3.
    now rewrite !str_app_assoc.
  - intros ->. simpl in Hlo. lia.
  - exact (all_chars_impl _ _ _ path_class_char Ha1).
  - rewrite lower_app, (Hl2 eq_refl), (Hl3 eq_refl).
    repeat (destruct He as [<-|He]; [vm_compute; tauto|]). destruct He.
Qed.

End FileNames.

(** X20.  On ASCII content (where the case folding and the classes of
    [re] are the ASCII ones), the expected value of every file-reference
    claim that [extract_claims] returns is a path-like token: a non-empty
    run of letters, digits, underscores, hyphens, slashes and backslashes
    followed by one of the extensions .py .md .js .ts .jsx .sql .toml
    .json (in any case), more than four characters in all. *)
Theorem file_names_are_path_tokens (i p content : string) (c : Claim) :
  is_ascii content = true ->
  In c (extract_claims i p content) ->
  claim_type c = "file_exists" ->
  (4 < String.length (expected_value c))%nat
  /\ exists stem ext,
       expected_value c = stem +:+ ext
       /\ stem <> "" /\ all_chars path_char stem = true
       /\ In (Py.lower ext)
             [".py"; ".md"; ".js"; ".ts"; ".jsx"; ".sql"; ".toml"; ".json"].
Proof.
  unfold extract_claims. intros _ H Ht.
  repeat (apply in_app_or in H as [H|H]).
  - apply in_map_iff in H as (m & <- & _). discriminate Ht.
  - apply in_flat_map in H as (m & _ & H).
    destruct (_service_name_normalize (Re.group 1 m)); [|destruct H].
    destruct (String.eqb _ ""); [destruct H|].
    destruct H as [<-|[]]. discriminate Ht.
  - destruct (Re.search true RE_BUG_MARKER content); [|destruct H].
    apply in_map_iff in H as (m & <- & _). discriminate Ht.
  - apply in_flat_map in H as (m & Hm & H).
    destruct (4 <? String.length (Re.group 1 m))%nat eqn:E; [|destruct H].
    destruct H as [<-|[]]. simpl. split; [now apply Nat.ltb_lt in E|].
    exact (file_claim_group content m Hm).
Qed.

Lemma file_names_are_path_tokens_witness :
  (4 < String.length "src/Notes.MD")%nat
  /\ exists stem ext,
       "src/Notes.MD" = stem +:+ ext
       /\ stem <> "" /\ all_chars path_char stem = true
       /\ In (Py.lower ext)
             [".py"; ".md"; ".js"; ".ts"; ".jsx"; ".sql"; ".toml"; ".json"].
Proof.
  apply (file_names_are_path_tokens "1" "essence" "Saved to src/Notes.MD today"
           (mkClaim "1" "essence" "file_exists" "Saved to src/Notes.MD" "src/Notes.MD"
                    UNVERIFIABLE None SEVERITY_LOW None)).
  - vm_compute. reflexivity.
  - vm_compute. left. reflexivity.
  - reflexivity.
Defined.

(** ** Service claims against the configured registry *)

(** X21.  When the snapshot has a state for every service of the
    configured registry, no service-health claim that [extract_claims]
    returns is left unverifiable: its service is in the snapshot, and it
    is VERIFIED when that service is reachable and an ILLUSION of
    severity HIGH when it is not. *)
Theorem extracted_service_claims_are_decided
        (reality : RealitySnapshot) (i p content : string) (c : Claim) :
  (forall n, In n (map fst Config.SERVICES) -> is_Some (services reality !! n)) ->
  In c (extract_claims i p content) ->
  claim_type c = "service_health" ->
  exists sname svc c',
    expected_value c = sname +:+ ":UP"
    /\ services reality !! sname = Some svc
    /\ verify_claim reality c = Some c'
    /\ (reachable svc = true -> verdict c' = VERIFIED)
    /\ (reachable svc = false ->
        verdict c' = ILLUSION /\ severity c' = SEVERITY_HIGH).
Proof.
  intros Hreg Hin Ht.
  apply extract_claims_shape in Hin as (_ & _ & _ & H).
  destruct H as [[E _]|[(_ & _ & sname & He & Hs)|[(E & _)|[E _]]]];
    try (rewrite Ht in E; discriminate).
  assert (Hk : In sname (map fst Config.SERVICES)).
  { destruct Hs as [->|[->|[->| ->]]]; simpl; tauto. }
  destruct (Hreg sname Hk) as [svc Hsvc].
  assert (Hsp : Py.split_once ":" (expected_value c) = Some (sname, "UP")).
  { rewrite He. destruct Hs as [->|[->|[->| ->]]]; reflexivity. }
  exists sname, svc. unfold verify_claim. rewrite Ht, Hsp. simpl. rewrite Hsvc.
  destruct (reachable svc); simpl; eexists;
    (split; [exact He|]); (split; [reflexivity|]); (split; [reflexivity|]);
    simpl; split; intros; try discriminate; auto.
Qed.

Lemma extracted_service_claims_are_decided_witness :
  exists sname svc c',
    "ui:UP" = sname +:+ ":UP"
    /\ services registry_down !! sname = Some svc
    /\ verify_claim registry_down
         (mkClaim "1" "essence" "service_health" "cloudeye-ui: healthy" "ui:UP"
                  UNVERIFIABLE None SEVERITY_LOW None) = Some c'
    /\ (reachable svc = true -> verdict c' = VERIFIED)
    /\ (reachable svc = false ->
        verdict c' = ILLUSION /\ severity c' = SEVERITY_HIGH).
Proof.
  apply (extracted_service_claims_are_decided registry_down
           "1" "essence" "cloudeye-ui: healthy"
           (mkClaim "1" "essence" "service_health" "cloudeye-ui: healthy" "ui:UP"
                    UNVERIFIABLE None SEVERITY_LOW None)).
  - intros n Hn. simpl in Hn.
    repeat (destruct Hn as [<-|Hn]; [vm_compute; eauto|]). destruct Hn.
  - vm_compute. left. reflexivity.
  - reflexivity.
Defined.


(** ** The work order *)

Section WorkOrder.
Import Report.

Lemma coach_lines_nil (reality : RealitySnapshot) :
  coach_lines reality = [] <-> ~ coach_has_untracked reality.
Proof.
  unfold coach_lines, coach_has_untracked.
  destruct (dict_get "coach" (git reality)) as [g|].
  - destruct (untracked g) as [|f fs] eqn:E; simpl.
    + split; [|reflexivity]. intros _ (g' & [= <-] & Hne). now apply Hne.
    + split; [discriminate|]. intros H. exfalso. apply H. exists g.
      split; [reflexivity|]. rewrite E. discriminate.
  - split; [|reflexivity]. intros _ (g' & [=] & _).
Qed.

Lemma high_illusions_nil (claims : list Claim) :
  high_illusions claims = [] <-> ~ some_illusion SEVERITY_HIGH claims.
Proof.
  unfold high_illusions, some_illusion, has_verdict, has_severity. split.
  - intros H (c & Hin & Hv & Hs).
    assert (Hc : In c (List.filter
                         (fun c => String.eqb (verdict c) ILLUSION
                                   && String.eqb (severity c) SEVERITY_HIGH) claims)).
    { apply filter_In. split; [exact Hin|]. rewrite Hv, Hs. reflexivity. }
    rewrite H in Hc. destruct Hc.
  - intros H. apply filter_nil_intro. intros c Hin.
    destruct (String.eqb_spec (verdict c) ILLUSION) as [Hv|_]; [|reflexivity].
    destruct (String.eqb_spec (severity c) SEVERITY_HIGH) as [Hs|_]; [|reflexivity].
    exfalso. apply H. now exists c.
Qed.

Lemma nonempty_app_r {A} (l k : list A) :
  nonempty k = true -> nonempty (l ++ k) = true.
Proof. destruct l; [now simpl|reflexivity]. Qed.

Lemma nonempty_app_l {A} (l k : list A) :
  nonempty l = true -> nonempty (l ++ k) = true.
Proof. destruct l; [discriminate|reflexivity]. Qed.

End WorkOrder.

(** X22.  The next action follows a fixed order of precedence.  An
    unreachable service always wins: the action is to investigate the
    first one listed.  Otherwise a missing Path Tau README asks for the
    download; otherwise a missing PNS appendix asks for its commit;
    otherwise, when there is neither a HIGH illusion nor an untracked
    file in the coach repository, the action is to proceed; and
    otherwise it stays the default review.  HIGH illusions and untracked
    files thus never choose the action themselves, they only withhold
    the all-clear. *)
Theorem next_action_precedence
        (down_svcs : list string) (reality : RealitySnapshot) (claims : list Claim) :
  (forall first others, down_svcs = first :: others ->
     snd (Report._derive_work_order down_svcs reality claims)
     = "Investigate why " +:+ first +:+ " is unreachable — check Railway logs")
  /\ (down_svcs = [] -> forge_exists reality = false ->
      snd (Report._derive_work_order down_svcs reality claims) = Report.DOWNLOAD)
  /\ (down_svcs = [] -> forge_exists reality = true -> pns_exists reality = false ->
      snd (Report._derive_work_order down_svcs reality claims) = Report.COMMIT_PNS)
  /\ (down_svcs = [] -> forge_exists reality = true -> pns_exists reality = true ->
      ~ some_illusion SEVERITY_HIGH claims -> ~ coach_has_untracked reality ->
      snd (Report._derive_work_order down_svcs reality claims) = Report.PROCEED)
  /\ (down_svcs = [] -> forge_exists reality = true -> pns_exists reality = true ->
      some_illusion SEVERITY_HIGH claims \/ coach_has_untracked reality ->
      snd (Report._derive_work_order down_svcs reality claims) = Report.REVIEW).
Proof.
  unfold Report._derive_work_order.
  fold (forge_exists reality). fold (pns_exists reality).
  split; [|split; [|split; [|split]]].
  - intros first others ->. cbn [nonempty app].
    destruct (forge_exists reality), (pns_exists reality); reflexivity.
  - intros -> Hf. rewrite Hf. cbn [negb app].
    destruct (pns_exists reality); cbn [negb];
      rewrite ?nonempty_app_r by reflexivity; reflexivity.
  - intros -> Hf Hp. rewrite Hf, Hp. cbn [negb app].
    rewrite nonempty_app_r by reflexivity. reflexivity.
  - intros -> Hf Hp Hh Hc. rewrite Hf, Hp. cbn [negb app].
    apply high_illusions_nil in Hh. apply coach_lines_nil in Hc.
    rewrite Hh, Hc. reflexivity.
  - intros -> Hf Hp Hx. rewrite Hf, Hp. cbn [negb app].
    assert (Hne : nonempty (map Report.illusion_line
                              (firstn 3 (Report.high_illusions claims))
                            ++ Report.coach_lines reality) = true).
    { destruct Hx as [Hh|Hc].
      - apply nonempty_app_l.
        destruct (Report.high_illusions claims) as [|c t] eqn:E; [|reflexivity].
        exfalso. now apply (proj1 (high_illusions_nil claims)) in E.
      - apply nonempty_app_r.
        destruct (Report.coach_lines reality) as [|l t] eqn:E; [|reflexivity].
        exfalso. now apply (proj1 (coach_lines_nil reality)) in E. }
    rewrite Hne. reflexivity.
Qed.


(** ** The repository line of the briefing *)

Section GitLine.

Lemma str_app_inv_head (a b c : string) : a +:+ b = a +:+ c -> b = c.
Proof.
  induction a as [|x a IH]; [now rewrite !str_app_nil_l|].
  rewrite !str_app_cons. intros [= H]. now apply IH.
Qed.

End GitLine.

(** X23.  The summary line of a probe result is never the "not a git
    repo" line: for an unavailable repository it is "name: NOT FOUND"
    with the probe's error, and for an available one it starts with the
    name and the head revision. *)
Theorem probe_summary_line (w : World) (n path : string) :
  (available (scan_repo w n path) = false ->
   exists e, git_error (scan_repo w n path) = Some e /\ e <> ""
             /\ Report._git_line n (scan_repo w n path)
                = n +:+ ": NOT FOUND — " +:+ e)
  /\ (available (scan_repo w n path) = true ->
      exists h rest, head_commit (scan_repo w n path) = Some h
                     /\ Report._git_line n (scan_repo w n path)
                        = n +:+ ": " +:+ h +:+ " (" +:+ rest)
  /\ Report._git_line n (scan_repo w n path) <> n +:+ ": not a git repo".
Proof.
  assert (Hcases :
    (scan_repo w n path
     = mkGitState n path false None None [] [] [] None
                  (Some ("Path not found: " +:+ path)))
    \/ (scan_repo w n path
        = mkGitState n path false None None [] [] [] None
                     (Some "Not a git repository or git not available"))
    \/ (exists h, available (scan_repo w n path) = true
                  /\ head_commit (scan_repo w n path) = Some h)).
  { destruct (path_exists w path) eqn:Hp.
    - destruct (_git w Q_HEAD path) as [h|] eqn:Hh.
      + right; right. exists h.
        destruct (scan_repo_head w n path h Hp Hh) as (? & ? & _). auto.
      + right; left. exact (scan_repo_no_head w n path Hp Hh).
    - left. exact (scan_repo_missing w n path Hp). }
  destruct Hcases as [E|[E|(h & Ha & Hh)]].
  - rewrite E. unfold Report._git_line. simpl.
    split; [|split].
    + intros _. eexists. split; [reflexivity|]. split; [discriminate|reflexivity].
    + discriminate.
    + intros H. apply str_app_inv_head in H. discriminate H.
  - rewrite E. unfold Report._git_line. simpl.
    split; [|split].
    + intros _. eexists. split; [reflexivity|]. split; [discriminate|reflexivity].
    + discriminate.
    + intros H. apply str_app_inv_head in H. discriminate H.
  - unfold Report._git_line. rewrite Ha, Hh. cbn [negb].
    split; [|split].
    + discriminate.
    + intros _. exists h. eexists. split; reflexivity.
    + intros H. apply str_app_inv_head in H.
      match type of H with
      | ": " +:+ h +:+ " (" +:+ ?R = _ =>
          assert (Hc : Py.contains_char "(" (": " +:+ h +:+ " (" +:+ R) = true)
      end.
      { apply contains_spec. eexists (": " +:+ h +:+ " "), _.
        rewrite !str_app_assoc. reflexivity. }
      rewrite H in Hc. vm_compute in Hc. discriminate Hc.
Qed.


(** ** Claims quote their entry *)

Section Quotes.

Lemma slice_from_suffix (n : nat) (s : string) :
  exists pre, s = pre +:+ Py.slice_from n s.
Proof.
  revert s. induction n as [|n IH]; intros s; [now exists ""|].
  destruct s as [|c t]; [now exists ""|].
  destruct (IH t) as [pre Hpre]. exists (String c pre).
  rewrite str_app_cons. simpl. now rewrite <- Hpre.
Qed.

Lemma slice_split (k : nat) (w : string) :
  w = Py.slice_to k w +:+ Py.slice_from k w.
Proof.
  unfold Py.slice_to. revert w. induction k as [|k IH]; intros w.
  - destruct w; reflexivity.
  - destruct w as [|c t]; [reflexivity|].
    cbn [String.substring Py.slice_from]. rewrite str_app_cons. now rewrite <- IH.
Qed.

Lemma slice_to_length (k : nat) (w : string) : (String.length (Py.slice_to k w) <= k)%nat.
Proof.
  unfold Py.slice_to. revert w. induction k as [|k IH]; intros w.
  - destruct w; simpl; lia.
  - destruct w as [|c t]; simpl; [lia|]. specialize (IH t). lia.
Qed.

Lemma is_substring_prefix (k : nat) (w s : string) :
  is_substring w s -> is_substring (Py.slice_to k w) s.
Proof.
  intros (p & q & ->). exists p, (Py.slice_from k w +:+ q).
  now rewrite <- (str_app_assoc (Py.slice_to k w)), <- slice_split.
Qed.

(** The whole match is the text the matcher consumed, a part of the
    subject. *)
Lemma finditer_group0 (icase : bool) (r : Re.regex) (s : string) (m : Re.rmatch) :
  In m (Re.finditer icase r s) -> is_substring (Re.group 0 m) s.
Proof.
  intros H.
  destruct (finditer_matches _ _ _ _ H)
    as (st & st' & tl & Hst & _ & Hrun & Hsubj & Hstart & Hend & _).
  assert (Hin : In st' (Re.run icase r st)) by (rewrite Hrun; now left).
  destruct (run_consumes _ _ _ _ Hin) as (w & Hw & Hp).
  unfold at_pos in Hst. rewrite Hw in Hst.
  assert (Hg : Re.group 0 m = w).
  { unfold Re.group. rewrite Hsubj, Hend, Hstart, Hp.
    replace (Re.m_pos st + String.length w - Re.m_pos st)%nat
      with (String.length w) by lia.
    exact (substring_slice _ _ _ _ (eq_sym Hst)). }
  rewrite Hg. destruct (slice_from_suffix (Re.m_pos st) s) as [pre Hpre].
  exists pre, (Re.m_rest st'). now rewrite Hst.
Qed.

Lemma search_finds (icase : bool) (r : Re.regex) (s : string) :
  Re.search icase r s = true -> exists m, In m (Re.finditer icase r s).
Proof.
  unfold Re.search. destruct (Re.finditer icase r s) as [|m l]; [discriminate|].
  intros _. exists m. now left.
Qed.

(** A match of the marker pattern is one of the four phrases, up to
    case. *)
Lemma bug_marker_match (content : string) (m : Re.rmatch) :
  In m (Re.finditer true RE_BUG_MARKER content) ->
  In (Py.lower (Re.group 0 m))
     ["bug inventory"; "known runtime"; "before state"; "runtime bugs"].
Proof.
  intros H.
  destruct (finditer_matches _ _ _ _ H)
    as (st & st' & tl & Hst & _ & Hrun & Hsubj & Hstart & Hend & _).
  assert (Hin : In st' (Re.run true RE_BUG_MARKER st)) by (rewrite Hrun; now left).
  change RE_BUG_MARKER
    with (Re.alts (map Re.Lit ["BUG INVENTORY"; "KNOWN RUNTIME";
                               "BEFORE STATE"; "runtime bugs"])) in Hin.
  apply run_alts_lits in Hin as (e & He & Elit).
  destruct (lit_consumes _ _ _ _ Elit) as (w & Hw & Hp & _ & _ & Hl).
  unfold at_pos in Hst. rewrite Hw in Hst.
  assert (Hg : Re.group 0 m = w).
  { unfold Re.group. rewrite Hsubj, Hend, Hstart, Hp.
    replace (Re.m_pos st + String.length w - Re.m_pos st)%nat
      with (String.length w) by lia.
    exact (substring_slice _ _ _ _ (eq_sym Hst)). }
  rewrite Hg, (Hl eq_refl).
  repeat (destruct He as [<-|He]; [vm_compute; tauto|]). destruct He.
Qed.

Lemma is_substring_lower (a s : string) :
  is_substring a s -> is_substring (Py.lower a) (Py.lower s).
Proof.
  intros (p & q & ->). exists (Py.lower p), (Py.lower q).
  now rewrite !lower_app.
Qed.

Lemma all_chars_app (f : ascii -> bool) (a b : string) :
  all_chars f (a +:+ b) = all_chars f a && all_chars f b.
Proof.
  induction a as [|x a IH]; [reflexivity|].
  rewrite str_app_cons. cbn [all_chars]. now rewrite IH, andb_assoc.
Qed.

Lemma is_ascii_substring (a s : string) :
  is_substring a s -> is_ascii s = true -> is_ascii a = true.
Proof.
  unfold is_ascii. intros (p & q & ->). rewrite !all_chars_app.
  intros H. apply andb_true_iff in H as [_ H].
  now apply andb_true_iff in H as [H _].
Qed.

End Quotes.

(** X24.  On ASCII content (where a character is a byte, so that the
    cut [[:120]] and the length count characters), every claim
    [extract_claims] returns quotes its entry: the claim text is a part
    of the entry's content (cut to at most 120 characters for defect and
    file claims) and so is ASCII as well, and the claim carries the
    entry's id and priority and starts unresolved, with verdict
    UNVERIFIABLE, no actual value and no note. *)
Theorem claims_quote_their_entry (i p content : string) (c : Claim) :
  is_ascii content = true ->
  In c (extract_claims i p content) ->
  is_substring (claim_text c) content
  /\ is_ascii (claim_text c) = true
  /\ entry_id c = i /\ entry_priority c = p
  /\ verdict c = UNVERIFIABLE /\ actual_value c = None /\ note c = None
  /\ (claim_type c = "bug_active" \/ claim_type c = "file_exists" ->
      (String.length (claim_text c) <= 120)%nat).
Proof.
  intros Hascii H.
  assert (Hsub : is_substring (claim_text c) content
                 /\ entry_id c = i /\ entry_priority c = p
                 /\ verdict c = UNVERIFIABLE /\ actual_value c = None
                 /\ note c = None
                 /\ (claim_type c = "bug_active" \/ claim_type c = "file_exists" ->
                     (String.length (claim_text c) <= 120)%nat)).
  { unfold extract_claims in H.
    repeat (apply in_app_or in H as [H|H]).
    - apply in_map_iff in H as (m & <- & Hm). simpl.
      split; [exact (finditer_group0 _ _ _ _ Hm)|].
      repeat split. intros [E|E]; discriminate E.
    - apply in_flat_map in H as (m & Hm & H).
      destruct (_service_name_normalize (Re.group 1 m)); [|destruct H].
      destruct (String.eqb _ ""); [destruct H|].
      destruct H as [<-|[]]. simpl.
      split; [exact (finditer_group0 _ _ _ _ Hm)|].
      repeat split. intros [E|E]; discriminate E.
    - destruct (Re.search true RE_BUG_MARKER content); [|destruct H].
      apply in_map_iff in H as (m & <- & Hm). simpl.
      split; [exact (is_substring_prefix _ _ _ (finditer_group0 _ _ _ _ Hm))|].
      repeat split. intros _. apply slice_to_length.
    - apply in_flat_map in H as (m & Hm & H).
      destruct (4 <? String.length (Re.group 1 m))%nat; [|destruct H].
      destruct H as [<-|[]]. simpl.
      split; [exact (is_substring_prefix _ _ _ (finditer_group0 _ _ _ _ Hm))|].
      repeat split. intros _. apply slice_to_length. }
  destruct Hsub as (Hs & Hrest). split; [exact Hs|]. split; [|exact Hrest].
  exact (is_ascii_substring _ _ Hs Hascii).
Qed.

Lemma claims_quote_their_entry_witness :
  is_substring "Commit  DEADBEEF12" "Commit  DEADBEEF12 pushed".
Proof.
  apply (claims_quote_their_entry "1" "essence" "Commit  DEADBEEF12 pushed"
           (mkClaim "1" "essence" "git_commit" "Commit  DEADBEEF12" "deadbeef12"
                    UNVERIFIABLE None SEVERITY_LOW None)).
  - vm_compute. reflexivity.
  - vm_compute. left. reflexivity.
Defined.

(** X25.  On ASCII content (where the case folding of [re] is the ASCII
    one), defect claims are only extracted from an entry that contains
    one of the marker phrases "bug inventory", "known runtime", "before
    state", "runtime bugs" (in any case); each has the expected value
    "bug:present" and severity HIGH. *)
Theorem defect_claims_need_a_marker (i p content : string) (c : Claim) :
  is_ascii content = true ->
  In c (extract_claims i p content) ->
  claim_type c = "bug_active" ->
  (exists marker,
      In marker ["bug inventory"; "known runtime"; "before state"; "runtime bugs"]
      /\ is_substring marker (Py.lower content))
  /\ expected_value c = "bug:present" /\ severity c = SEVERITY_HIGH.
Proof.
  unfold extract_claims. intros _ H Ht.
  repeat (apply in_app_or in H as [H|H]).
  - apply in_map_iff in H as (m & <- & _). discriminate Ht.
  - apply in_flat_map in H as (m & _ & H).
    destruct (_service_name_normalize (Re.group 1 m)); [|destruct H].
    destruct (String.eqb _ ""); [destruct H|].
    destruct H as [<-|[]]. discriminate Ht.
  - destruct (Re.search true RE_BUG_MARKER content) eqn:Es; [|destruct H].
    apply in_map_iff in H as (m & <- & _). simpl.
    split; [|split; reflexivity].
    destruct (search_finds _ _ _ Es) as [mk Hmk].
    exists (Py.lower (Re.group 0 mk)).
    split; [exact (bug_marker_match content mk Hmk)|].
    apply is_substring_lower. exact (finditer_group0 _ _ _ _ Hmk).
  - apply in_flat_map in H as (m & _ & H).
    destruct (4 <? String.length (Re.group 1 m))%nat; [|destruct H].
    destruct H as [<-|[]]. discriminate Ht.
Qed.

Lemma defect_claims_need_a_marker_witness :
  (exists marker,
      In marker ["bug inventory"; "known runtime"; "before state"; "runtime bugs"]
      /\ is_substring marker (Py.lower "Known Runtime bugs: BUG 2 no such table"))
  /\ "bug:present" = "bug:present" /\ SEVERITY_HIGH = SEVERITY_HIGH.
Proof.
  apply (defect_claims_need_a_marker "1" "essence"
           "Known Runtime bugs: BUG 2 no such table"
           (mkClaim "1" "essence" "bug_active" "BUG 2 no such table" "bug:present"
                    UNVERIFIABLE None SEVERITY_HIGH None)).
  - vm_compute. reflexivity.
  - vm_compute. left. reflexivity.
  - reflexivity.
Defined.

(** ** The repositories of a scan *)

Lemma fold_status_line_names (lines : list string) (s : GitState) :
  repo_name (fold_left status_line lines s) = repo_name s
  /\ repo_path (fold_left status_line lines s) = repo_path s.
Proof.
  revert s. induction lines as [|l t IH]; intros s; simpl; [auto|].
  destruct (IH (status_line s l)) as [-> ->]. unfold status_line.
  repeat match goal with
         | |- context [if ?b then _ else _] => destruct b
         end; auto.
Qed.

Lemma scan_repo_names (w : World) (n path : string) :
  repo_name (scan_repo w n path) = n /\ repo_path (scan_repo w n path) = path.
Proof.
  unfold scan_repo. simpl.
  destruct (path_exists w path); simpl; [|auto].
  destruct (_git w Q_HEAD path) as [h|]; simpl; [|auto].
  match goal with
  | |- context [Py.truthy ?ab] => destruct (Py.truthy ab)
  end;
    destruct (_git w Q_STATUS path) as [raw|]; simpl; auto;
    destruct (String.eqb raw ""); simpl; auto;
    match goal with
    | |- context [fold_left status_line ?ls ?st] =>
        destruct (fold_status_line_names ls st) as [Hn Hp]; simpl in Hn, Hp; auto
    end.
Qed.

(** X26.  A scan has one repository state per configured repository, in
    the order of the registry and under the same keys, unavailable ones
    included; each state carries the name and the path it was probed
    for. *)
Theorem scan_covers_every_repository (w : World) (repos : list (string * string)) :
  map fst (scan_repos w repos) = map fst repos
  /\ map (fun kv => (repo_name (snd kv), repo_path (snd kv))) (scan_repos w repos)
     = repos.
Proof.
  unfold scan_repos. rewrite !map_map. simpl. split; [reflexivity|].
  induction repos as [|[n path] t IH]; [reflexivity|]. simpl.
  destruct (scan_repo_names w n path) as [-> ->]. now rewrite IH.
Qed.
